(** * PR100 acquisition engine: a shallow embedding and its properties

    The development follows three scripts of the repository:

    - [python/Pr100.py]       continuous geo-tagged logging (Potencia.txt),
    - [python/medicion360.py] stationary 360 degree sweep (medicion360.txt),
    - [python/Cambiar_freq.py] one-shot frequency change.

    Part I holds the definitions: first the fragment of the Python runtime
    the scripts rely on (text, binary64 floats, [float()], [int()], format
    specifications), then one module per script.  Part II holds the
    properties.

    Modelling conventions.

    - Text and bytes are [string]s over 8-bit characters.  Only the ASCII
      range is interpreted: a character above 127 is an opaque symbol that
      is neither a digit nor white space.
    - A Python float is a binary64 number: a sign and a rational magnitude
      that is always the result of rounding to nearest, ties to even, with
      53 bits of precision, gradual underflow and overflow to infinity.
    - Network and file-system behaviour is an explicit input of every
      function that performs I/O: what a query returns or raises, how a
      socket delivers its bytes, whether the log file exists, whether an
      append succeeds. *)

From Stdlib Require Import ZArith QArith Qround Qpower Qabs Qreduction.
From Stdlib Require Import Bool List Ascii String Lia Lqa.
Import ListNotations.

Local Open Scope list_scope.
Local Open Scope string_scope.

(* ================================================================== *)
(** * Part I: definitions *)
(* ================================================================== *)

(** ** Characters and text *)

Definition is_digit (c : ascii) : bool :=
  let n := nat_of_ascii c in (48 <=? n)%nat && (n <=? 57)%nat.

Definition digit_val (c : ascii) : Z := Z.of_nat (nat_of_ascii c) - 48.

(** White space of [str.strip] and [float] on text (ASCII range):
    TAB, LF, VT, FF, CR, the separators FS GS RS US, and the space. *)
Definition is_space (c : ascii) : bool :=
  let n := nat_of_ascii c in
  ((9 <=? n)%nat && (n <=? 13)%nat) || ((28 <=? n)%nat && (n <=? 32)%nat).

(** White space of [int] on bytes: TAB, LF, VT, FF, CR and the space. *)
Definition is_bspace (c : ascii) : bool :=
  let n := nat_of_ascii c in
  ((9 <=? n)%nat && (n <=? 13)%nat) || (n =? 32)%nat.

Definition is_ascii (c : ascii) : bool := (nat_of_ascii c <? 128)%nat.

Fixpoint forallb_string (p : ascii -> bool) (s : string) : bool :=
  match s with
  | EmptyString => true
  | String c s' => p c && forallb_string p s'
  end.

Fixpoint lstrip_with (sp : ascii -> bool) (s : string) : string :=
  match s with
  | EmptyString => EmptyString
  | String c s' => if sp c then lstrip_with sp s' else s
  end.

Fixpoint rstrip_with (sp : ascii -> bool) (s : string) : string :=
  match s with
  | EmptyString => EmptyString
  | String c s' =>
      match rstrip_with sp s' with
      | EmptyString => if sp c then EmptyString else String c EmptyString
      | r => String c r
      end
  end.

(** [s.strip()] on text. *)
Definition strip (s : string) : string :=
  rstrip_with is_space (lstrip_with is_space s).

(** [s.split(",")]: never empty, the empty text gives one empty field. *)
Fixpoint split_comma (s : string) : list string :=
  match s with
  | EmptyString => [EmptyString]
  | String c s' =>
      if Ascii.eqb c "," then EmptyString :: split_comma s'
      else match split_comma s' with
           | [] => [String c EmptyString]
           | t :: ts => String c t :: ts
           end
  end.

(** [s.replace(",", ".")] *)
Fixpoint replace_comma_dot (s : string) : string :=
  match s with
  | EmptyString => EmptyString
  | String c s' =>
      String (if Ascii.eqb c "," then "."%char else c) (replace_comma_dot s')
  end.

(** The longest prefix of digits and what follows it. *)
Fixpoint span_digits (s : string) : string * string :=
  match s with
  | EmptyString => (EmptyString, EmptyString)
  | String c s' =>
      if is_digit c
      then let (d, r) := span_digits s' in (String c d, r)
      else (EmptyString, s)
  end.

(** Value of a text of decimal digits, most significant first. *)
Fixpoint digits_val_acc (acc : Z) (s : string) : Z :=
  match s with
  | EmptyString => acc
  | String c s' => digits_val_acc (10 * acc + digit_val c) s'
  end.

Definition digits_val (s : string) : Z := digits_val_acc 0 s.

Definition lower (c : ascii) : ascii :=
  let n := nat_of_ascii c in
  if (65 <=? n)%nat && (n <=? 90)%nat then ascii_of_nat (n + 32) else c.

Fixpoint lower_string (s : string) : string :=
  match s with
  | EmptyString => EmptyString
  | String c s' => String (lower c) (lower_string s')
  end.

(** Decimal numerals of naturals, as [str(n)] prints them. *)
Fixpoint digits_of_pos_fuel (fuel : nat) (n : Z) (acc : string) : string :=
  match fuel with
  | O => acc
  | S fuel' =>
      let acc' := String (ascii_of_nat (48 + Z.to_nat (n mod 10))) acc in
      if (n / 10 =? 0)%Z then acc' else digits_of_pos_fuel fuel' (n / 10) acc'
  end.

Definition string_of_Z_nat (n : Z) : string :=
  digits_of_pos_fuel (S (Z.to_nat (Z.log2 n))) n EmptyString.

(** The slices [s[:n]] and [s[n:]]. *)
Fixpoint take (n : nat) (s : string) : string :=
  match n, s with
  | S n', String c s' => String c (take n' s')
  | _, _ => EmptyString
  end.

Fixpoint drop (n : nat) (s : string) : string :=
  match n, s with
  | S n', String _ s' => drop n' s'
  | _, _ => s
  end.

Fixpoint repeat_char (c : ascii) (n : nat) : string :=
  match n with
  | O => EmptyString
  | S n' => String c (repeat_char c n')
  end.

(** Left padding with zeros up to [w] characters, as [%0wd]. *)
Definition zero_pad (w : nat) (s : string) : string :=
  repeat_char "0" (w - String.length s) ++ s.

(** ** Binary64 floats *)

Module PyFloat.

(** A finite float is a sign and a magnitude; zero is signed. *)
Inductive float : Type :=
| Fin (neg : bool) (mag : Q)
| Inf (neg : bool)
| NaN.

Definition pow2 (e : Z) : Q := 2 ^ e.

(** [ilog2 x] is the binade of a positive rational: 2^e <= x < 2^(e+1). *)
Definition ilog2 (x : Q) : Z :=
  let e0 := (Z.log2 (Qnum x) - Z.log2 (Zpos (Qden x)))%Z in
  if Qle_bool (pow2 e0) x then e0 else (e0 - 1)%Z.

(** Round to the nearest integer, ties to even. *)
Definition rne (y : Q) : Z :=
  let f := Qfloor y in
  match Qcompare (y - inject_Z f) (1 # 2) with
  | Lt => f
  | Gt => (f + 1)%Z
  | Eq => if Z.even f then f else (f + 1)%Z
  end.

(** Exponent of the unit in the last place: 53 bits, subnormals from
    2^-1074. *)
Definition ulp_exp (x : Q) : Z := Z.max (ilog2 x - 52) (-1074).

(** Rounding of a non-negative rational to the binary64 grid (no
    overflow check yet). *)
Definition round_mag (x : Q) : Q :=
  if Qle_bool x 0 then 0
  else inject_Z (rne (x / pow2 (ulp_exp x))) * pow2 (ulp_exp x).

(** The float nearest to the magnitude [x >= 0] with sign [neg]. *)
Definition of_Q (neg : bool) (x : Q) : float :=
  let r := round_mag x in
  if Qle_bool (pow2 1024) r then Inf neg else Fin neg (Qred r).

Definition of_Z (z : Z) : float := of_Q (z <? 0)%Z (inject_Z (Z.abs z)).

(** [n * 10^scale], correctly rounded: the value of a decimal numeral. *)
Definition of_decimal (neg : bool) (n : Z) (scale : Z) : float :=
  of_Q neg (inject_Z n * 10 ^ scale).

Definition zero : float := Fin false 0.

(** The largest finite magnitude, (2^53 - 1) * 2^971. *)
Definition max_float : Q := inject_Z (2 ^ 53 - 1) * pow2 971.

(** The floats the operations produce: a finite magnitude is never
    negative and never above [max_float]. *)
Definition wf (x : float) : Prop :=
  match x with
  | Fin _ m => (0 <= m)%Q /\ (m <= max_float)%Q
  | _ => True
  end.

(** [x] is finite and its value is [v]. *)
Definition has_val (x : float) (v : Q) : Prop :=
  exists s m, x = Fin s m /\ (0 <= m)%Q /\ ((if s then - m else m) == v)%Q.

(** Signed value of a finite float. *)
Definition sval (neg : bool) (mag : Q) : Q := if neg then - mag else mag.

Definition is_finite (x : float) : bool :=
  match x with Fin _ _ => true | _ => false end.

Definition is_nan (x : float) : bool :=
  match x with NaN => true | _ => false end.

Definition opp (x : float) : float :=
  match x with
  | Fin s m => Fin (negb s) m
  | Inf s => Inf (negb s)
  | NaN => NaN
  end.

Definition add (x y : float) : float :=
  match x, y with
  | NaN, _ | _, NaN => NaN
  | Inf a, Inf b => if Bool.eqb a b then Inf a else NaN
  | Inf a, Fin _ _ => Inf a
  | Fin _ _, Inf b => Inf b
  | Fin a p, Fin b q =>
      let s := (sval a p + sval b q)%Q in
      if Qeq_bool s 0 then Fin (a && b) 0
      else of_Q (negb (Qle_bool 0 s)) (Qabs s)
  end.

Definition sub (x y : float) : float := add x (opp y).

(** Division.  Python raises [ZeroDivisionError] on a zero divisor; the
    scripts only divide by the literals 60.0 and 3600.0, and the model
    gives [NaN] for the case that never occurs. *)
Definition div (x y : float) : float :=
  match x, y with
  | NaN, _ | _, NaN => NaN
  | Inf _, Inf _ => NaN
  | Inf a, Fin b _ => Inf (xorb a b)
  | Fin a _, Inf b => Fin (xorb a b) 0
  | Fin a p, Fin b q =>
      if Qeq_bool q 0 then NaN
      else of_Q (xorb a b) (p / q)
  end.

(** [x < y] and [x <= y]; every comparison with NaN is false. *)
Definition ltb (x y : float) : bool :=
  match x, y with
  | NaN, _ | _, NaN => false
  | Inf a, Inf b => a && negb b
  | Inf a, Fin _ _ => a
  | Fin _ _, Inf b => negb b
  | Fin a p, Fin b q => negb (Qle_bool (sval b q) (sval a p))
  end.

Definition leb (x y : float) : bool :=
  match x, y with
  | NaN, _ | _, NaN => false
  | Inf a, Inf b => a || negb b
  | Inf a, Fin _ _ => a
  | Fin _ _, Inf b => negb b
  | Fin a p, Fin b q => Qle_bool (sval a p) (sval b q)
  end.

End PyFloat.

Abbreviation float := PyFloat.float.

(** ** [float(text)] *)

Definition split_sign (s : string) : bool * string :=
  match s with
  | String "-" r => (true, r)
  | String "+" r => (false, r)
  | _ => (false, s)
  end.

(** Underscores may only sit between two digits; they are dropped. *)
Fixpoint drop_underscores (prev : ascii) (s : string) : option string :=
  match s with
  | EmptyString => if Ascii.eqb prev "_" then None else Some EmptyString
  | String c s' =>
      if Ascii.eqb c "_" then
        if is_digit prev then drop_underscores c s' else None
      else if Ascii.eqb prev "_" && negb (is_digit c) then None
      else option_map (String c) (drop_underscores c s')
  end.

(** What may follow the mantissa: nothing, or [e], an optional sign and at
    least one digit. *)
Definition parse_exponent (s : string) : option Z :=
  match s with
  | EmptyString => Some 0%Z
  | String c r =>
      if Ascii.eqb c "e" || Ascii.eqb c "E" then
        let (neg, r') := split_sign r in
        let (ds, rest) := span_digits r' in
        match ds, rest with
        | String _ _, EmptyString =>
            Some (if neg then (- digits_val ds)%Z else digits_val ds)
        | _, _ => None
        end
      else None
  end.

(** Digits, an optional point and digits, at least one digit in all, then
    the exponent. *)
Definition parse_decimal (neg : bool) (s : string) : option float :=
  let (ip, r1) := span_digits s in
  let (fp, r2) :=
    match r1 with
    | String "." r => span_digits r
    | _ => (EmptyString, r1)
    end in
  match ip ++ fp with
  | EmptyString => None
  | String _ _ as ds =>
      match parse_exponent r2 with
      | None => None
      | Some e =>
          Some (PyFloat.of_decimal neg (digits_val ds)
                  (e - Z.of_nat (String.length fp)))
      end
  end.

Definition parse_inf_nan (neg : bool) (s : string) : option float :=
  let l := lower_string s in
  if String.eqb l "inf" || String.eqb l "infinity" then Some (PyFloat.Inf neg)
  else if String.eqb l "nan" then Some PyFloat.NaN
  else None.

(** [float(s)] on text: [None] stands for [ValueError]. *)
Definition py_float (s : string) : option float :=
  let t := rstrip_with is_bspace (lstrip_with is_bspace s) in
  match drop_underscores zero t with
  | None => None
  | Some u =>
      let (neg, r) := split_sign u in
      match parse_decimal neg r with
      | Some f => Some f
      | None => parse_inf_nan neg r
      end
  end.

(** ** [int(bytes)] *)

(** Digits with single underscores between them; stops at the first other
    byte. *)
Fixpoint scan_int (acc : Z) (prev : ascii) (s : string) : option (Z * string) :=
  match s with
  | EmptyString => if Ascii.eqb prev "_" then None else Some (acc, EmptyString)
  | String c s' =>
      if is_digit c then scan_int (10 * acc + digit_val c) c s'
      else if Ascii.eqb c "_" then
        if Ascii.eqb prev "_" then None else scan_int acc c s'
      else if Ascii.eqb prev "_" then None else Some (acc, s)
  end.

(** [int(b)] on bytes, base ten: [None] stands for [ValueError]. *)
Definition py_int (b : string) : option Z :=
  let (neg, r) := split_sign (lstrip_with is_bspace b) in
  match r with
  | EmptyString => None
  | String c _ =>
      if is_digit c then
        match scan_int 0 zero r with
        | Some (v, rest) =>
            if forallb_string is_bspace rest
            then Some (if neg then (- v)%Z else v)
            else None
        | None => None
        end
      else None
  end.

(** ** The pattern [-?\d+(?:\.\d+)?] *)

(** The match that starts at a digit: digits, then a point and digits when
    both are there. *)
Definition match_number (s : string) : string :=
  let (ip, r) := span_digits s in
  match r with
  | String "." r' =>
      match fst (span_digits r') with
      | EmptyString => ip
      | fp => ip ++ "." ++ fp
      end
  | _ => ip
  end.

(** [re.search]: the leftmost match, [None] when there is none. *)
Fixpoint search_number (s : string) : option string :=
  match s with
  | EmptyString => None
  | String c s' =>
      if is_digit c then Some (match_number s)
      else if Ascii.eqb c "-" then
        match s' with
        | String d _ =>
            if is_digit d then Some (String "-" (match_number s'))
            else search_number s'
        | EmptyString => None
        end
      else search_number s'
  end.

(** [re.fullmatch(r"\d+(\.\d+)?", s)] *)
Definition fullmatch_numeral (s : string) : bool :=
  let (ip, r) := span_digits s in
  match ip, r with
  | EmptyString, _ => false
  | _, EmptyString => true
  | _, String "." r' =>
      match span_digits r' with
      | (String _ _, EmptyString) => true
      | _ => false
      end
  | _, _ => false
  end.

(** ** Format specifications *)

Definition sign_prefix (neg : bool) : string := if neg then "-" else "".

(** [format(x, ".kf")]: the exact binary value rounded half to even at [k]
    decimals. *)
Definition format_f (k : nat) (x : float) : string :=
  match x with
  | PyFloat.NaN => "nan"
  | PyFloat.Inf s => sign_prefix s ++ "inf"
  | PyFloat.Fin s m =>
      let p := (10 ^ Z.of_nat k)%Z in
      let n := PyFloat.rne (m * inject_Z p) in
      sign_prefix s ++ string_of_Z_nat (n / p) ++
      match k with
      | O => ""
      | S _ => "." ++ zero_pad k (string_of_Z_nat (n mod p))
      end
  end.

(** [floor(log10 m)] for a positive magnitude. *)
Definition ilog10 (m : Q) : Z :=
  let up (g : Z) := if Qle_bool (10 ^ (g + 1)) m then (g + 1)%Z else g in
  up (up (up ((PyFloat.ilog2 m * 30103) / 100000 - 1)%Z)).

(** The shortest decimal [c * 10^scale] that reads back as [m]; among the
    two neighbours with [n] digits the nearer one, the even one on a tie. *)
Fixpoint shortest_digits (fuel n : nat) (m : Q) (e10 : Z) : Z * Z :=
  let scale := (e10 - Z.of_nat n + 1)%Z in
  let y := (m / 10 ^ scale)%Q in
  let lo := Qfloor y in
  let hi := (lo + 1)%Z in
  let ok (c : Z) := Qeq_bool (PyFloat.round_mag (inject_Z c * 10 ^ scale)) m in
  let nearer :=
    match Qcompare (y - inject_Z lo) (inject_Z hi - y) with
    | Lt => lo
    | Gt => hi
    | Eq => if Z.even lo then lo else hi
    end in
  match ok lo, ok hi, fuel with
  | true, true, _ => (nearer, scale)
  | true, false, _ => (lo, scale)
  | false, true, _ => (hi, scale)
  | false, false, S fuel' => shortest_digits fuel' (S n) m e10
  | false, false, O => (PyFloat.rne y, scale)
  end.

Fixpoint drop_trailing_zeros (fuel : nat) (c scale : Z) : Z * Z :=
  match fuel with
  | O => (c, scale)
  | S fuel' =>
      if (c mod 10 =? 0)%Z && negb (c =? 0)%Z
      then drop_trailing_zeros fuel' (c / 10) (scale + 1)
      else (c, scale)
  end.

(** [repr(x)], which is also [str(x)] and the empty format specification:
    the shortest digits that round-trip, in positional notation when the
    decimal point falls within [-3 .. 16], in exponent notation otherwise. *)
Definition float_repr (x : float) : string :=
  match x with
  | PyFloat.NaN => "nan"
  | PyFloat.Inf s => sign_prefix s ++ "inf"
  | PyFloat.Fin s m =>
      if Qle_bool m 0 then sign_prefix s ++ "0.0"
      else
        let (c0, sc0) := shortest_digits 16 1 m (ilog10 m) in
        let (c, sc) := drop_trailing_zeros 17 c0 sc0 in
        let ds := string_of_Z_nat c in
        let nd := Z.of_nat (String.length ds) in
        let decpt := (nd + sc)%Z in
        sign_prefix s ++
        if (decpt <=? -4)%Z || (16 <? decpt)%Z then
          let e := (decpt - 1)%Z in
          take 1 ds ++
          (if (1 <? nd)%Z then "." ++ drop 1 ds else "") ++
          "e" ++ (if (e <? 0)%Z then "-" else "+") ++
          zero_pad 2 (string_of_Z_nat (Z.abs e))
        else if (decpt <=? 0)%Z then
          "0." ++ repeat_char "0" (Z.to_nat (- decpt)) ++ ds
        else if (decpt <? nd)%Z then
          take (Z.to_nat decpt) ds ++ "." ++ drop (Z.to_nat decpt) ds
        else
          ds ++ repeat_char "0" (Z.to_nat (decpt - nd)) ++ ".0"
  end.

(** ** Wall clock *)

Record datetime : Type := mk_datetime {
  year : nat; month : nat; day : nat;
  hour : nat; minute : nat; second : nat
}.

Definition dec (w : nat) (n : nat) : string :=
  zero_pad w (string_of_Z_nat (Z.of_nat n)).

(** [strftime("%Y-%m-%d")] *)
Definition strftime_Ymd (t : datetime) : string :=
  dec 4 (year t) ++ "-" ++ dec 2 (month t) ++ "-" ++ dec 2 (day t).

(** [strftime("%H:%M:%S")] *)
Definition strftime_HMS (t : datetime) : string :=
  dec 2 (hour t) ++ ":" ++ dec 2 (minute t) ++ ":" ++ dec 2 (second t).

(** ** Shapes of text *)

Definition not_comma (c : ascii) : bool := negb (Ascii.eqb c ",").

Definition no_comma (s : string) : Prop := forallb_string not_comma s = true.

(** A numeral with exactly [k] decimals: an optional minus sign, at least
    one digit, a point, [k] digits. *)
Definition fixed_numeral (k : nat) (s : string) : Prop :=
  exists sign ip fp,
    s = sign ++ ip ++ "." ++ fp /\ (sign = "" \/ sign = "-") /\ ip <> "" /\
    forallb_string is_digit ip = true /\ forallb_string is_digit fp = true /\
    String.length fp = k.

(** A non-negative decimal numeral: digits, optionally followed by a point
    and digits. *)
Definition numeral_shaped (s : string) : Prop :=
  exists ip, ip <> "" /\ forallb_string is_digit ip = true /\
    (s = ip \/
     exists fp, fp <> "" /\ forallb_string is_digit fp = true /\ s = ip ++ "." ++ fp).

(** Characters of a signed numeral. *)
Definition num_char (c : ascii) : bool :=
  is_digit c || Ascii.eqb c "." || Ascii.eqb c "-".

(** ** Exceptions and outcomes *)

Inductive exn : Type :=
| RuntimeError (msg : string)
| ValueError
| TimeoutError
| OSError.

Inductive result (A : Type) : Type :=
| Ok (a : A)
| Raise (e : exn).

Arguments Ok {A} a.
Arguments Raise {A} e.


(** [bytes.decode(errors="replace")]: never fails; a byte above 127 stays
    an opaque symbol. *)
Definition decode_replace (b : string) : string := b.

Fixpoint ascii_only (b : string) : string :=
  match b with
  | EmptyString => EmptyString
  | String c b' =>
      if is_ascii c then String c (ascii_only b') else ascii_only b'
  end.

(** [bytes.decode(errors="ignore")]: bytes above 127 are dropped. *)
Definition decode_ignore (b : string) : string := ascii_only b.

(** [text.encode("ascii", errors="ignore")] *)
Definition encode_ascii_ignore (s : string) : string := ascii_only s.

Definition is_empty (s : string) : bool :=
  match s with EmptyString => true | _ => false end.

Definition LF : ascii := ascii_of_nat 10.

(** ** Raw socket files

    [makefile("rwb", buffering=0)] gives an unbuffered file: [read(n)]
    hands out at most [n] bytes of the piece the network delivered next, so
    it may return fewer than [n].  A socket file is the list of the pieces
    still to come; the empty list is a closed connection. *)

Definition sock_file : Type := list string.

(** All the bytes still to come. *)
Definition pending (f : sock_file) : string := fold_right append EmptyString f.

Fixpoint read (n : nat) (f : sock_file) : string * sock_file :=
  match n, f with
  | O, _ => (EmptyString, f)
  | _, [] => (EmptyString, [])
  | _, c :: cs =>
      if is_empty c then read n cs
      else if (String.length c <=? n)%nat then (c, cs)
      else (take n c, drop n c :: cs)
  end.

(** The bytes of [s] up to and including the first line feed, and what
    follows it when there is one. *)
Fixpoint break_line (s : string) : string * option string :=
  match s with
  | EmptyString => (EmptyString, None)
  | String c s' =>
      if Ascii.eqb c LF then (String c EmptyString, Some s')
      else let (l, r) := break_line s' in (String c l, r)
  end.

Fixpoint readline (f : sock_file) : string * sock_file :=
  match f with
  | [] => (EmptyString, [])
  | c :: cs =>
      match break_line c with
      | (l, Some r) => (l, if is_empty r then cs else r :: cs)
      | (l, None) => let (l', f') := readline cs in (l ++ l', f')
      end
  end.

(** The read of the [n] length digits of a block header, the third read
    on the socket, is not cut short. *)
Definition header_unsplit (f : sock_file) (n : nat) : Prop :=
  String.length (fst (read n (snd (read 1 (snd (read 1 f)))))) = n.

(** ** The log file

    [None] is a file that does not exist.  Opening in append mode creates
    it. *)

Definition log_file : Type := option string.

Definition exists_ (f : log_file) : bool :=
  match f with Some _ => true | None => false end.

Definition append (line : string) (f : log_file) : log_file :=
  match f with
  | Some content => Some (content ++ line)
  | None => Some line
  end.

(** What a query does: the raw line the instrument sent, or the exception
    the attempt raised (time-out, connection reset, ...). *)
Definition reply : Type := result string.

(** [scpi_query_line]: write the command, read one line, decode, strip. *)
Definition scpi_query_line (r : reply) : result string :=
  match r with
  | Ok line => Ok (strip (decode_replace line))
  | Raise e => Raise e
  end.

(** The pattern [try: resp = await scpi_query_line(...) except Exception:
    resp = ""] of both acquisition loops. *)
Definition query_or_empty (r : reply) : string :=
  match scpi_query_line r with
  | Ok resp => resp
  | Raise _ => EmptyString
  end.

Definition f60 : float := PyFloat.of_Z 60.
Definition f3600 : float := PyFloat.of_Z 3600.
Definition f107 : float := PyFloat.of_Z 107.

(** [next((i for i, p in enumerate(parts, start) if test(p)), None)] *)
Fixpoint find_index (test : string -> bool) (parts : list string) (start : nat)
  : option nat :=
  match parts with
  | [] => None
  | p :: ps => if test p then Some start else find_index test ps (S start)
  end.

Definition is_NS (p : string) : bool := String.eqb p "N" || String.eqb p "S".
Definition is_EW (p : string) : bool := String.eqb p "E" || String.eqb p "W".

(** [float(parts[i])]: [None] for [ValueError] or [IndexError]. *)
Definition float_at (parts : list string) (i : nat) : option float :=
  match nth_error parts i with
  | Some p => py_float p
  | None => None
  end.

(** The expression [d + m/60.0 + s/3600.0] of [parse_gps_data]. *)
Definition dms (d m s : float) : float :=
  PyFloat.add (PyFloat.add d (PyFloat.div m f60)) (PyFloat.div s f3600).

(** The same expression on the grid of binary64 values, for magnitudes
    bounded by [D], [M] and [S]. *)
Definition dms_bound (D M S : Q) : Q :=
  PyFloat.round_mag
    (PyFloat.round_mag (D + PyFloat.round_mag (M / 60)) +
     PyFloat.round_mag (S / 3600))%Q.

(** A valid degrees-minutes-seconds triple for a coordinate of at most
    [limit] degrees: up to [limit - 1] degrees with up to 59 minutes and
    less than 60 seconds, or [limit] degrees sharp. *)
Definition valid_dms (limit : Z) (d m s : float) : Prop :=
  (PyFloat.leb PyFloat.zero d = true /\ PyFloat.leb d (PyFloat.of_Z (limit - 1)) = true /\
   PyFloat.leb PyFloat.zero m = true /\ PyFloat.leb m (PyFloat.of_Z 59) = true /\
   PyFloat.leb PyFloat.zero s = true /\ PyFloat.ltb s (PyFloat.of_Z 60) = true)
  \/
  (PyFloat.leb (PyFloat.of_Z limit) d = true /\ PyFloat.leb d (PyFloat.of_Z limit) = true /\
   PyFloat.leb PyFloat.zero m = true /\ PyFloat.leb m PyFloat.zero = true /\
   PyFloat.leb PyFloat.zero s = true /\ PyFloat.leb s PyFloat.zero = true).

(** No step of [dms] overflows for magnitudes up to [D], [M], [S]. *)
Definition dms_small (D M S : Q) : Prop :=
  (PyFloat.round_mag (M / 60) < PyFloat.pow2 1024 /\
   PyFloat.round_mag (D + PyFloat.round_mag (M / 60)) < PyFloat.pow2 1024 /\
   PyFloat.round_mag (S / 3600) < PyFloat.pow2 1024 /\
   dms_bound D M S < PyFloat.pow2 1024)%Q.

(** The first field at or after [from] that passes [test] is field [i]. *)
Definition first_at (test : string -> bool) (parts : list string) (from i : nat)
  : Prop :=
  (from <= i)%nat /\
  (exists p, nth_error parts i = Some p /\ test p = true) /\
  (forall j p, (from <= j < i)%nat -> nth_error parts j = Some p -> test p = false).

(** The reply quoted in the scripts, in full and as the specification
    abridges it. *)
Definition example_gps : string :=
  "GPS,1,1239090583,220,4,N,48,7,40.33,E,11,36,47.42,2009,4,7,7,49,42,0.00,18.89,0.0,554".

Definition example_gps_elided : string :=
  "GPS,1,...,N,48,7,40.33,E,11,36,47.42,...".

(** ** More of the runtime: text, indexing, [int] on text *)

Definition upper (c : ascii) : ascii :=
  let n := nat_of_ascii c in
  if (97 <=? n)%nat && (n <=? 122)%nat then ascii_of_nat (n - 32) else c.

(** [s.upper()] *)
Fixpoint upper_string (s : string) : string :=
  match s with
  | EmptyString => EmptyString
  | String c s' => String (upper c) (upper_string s')
  end.

(** [s.replace(x, "")] for a single character [x]. *)
Fixpoint remove_char (x : ascii) (s : string) : string :=
  match s with
  | EmptyString => EmptyString
  | String c s' =>
      if Ascii.eqb c x then remove_char x s' else String c (remove_char x s')
  end.

(** [needle in s] *)
Fixpoint contains (needle s : string) : bool :=
  String.prefix needle s ||
  match s with
  | EmptyString => false
  | String _ s' => contains needle s'
  end.

(** [s.rstrip("\n")] *)
Definition rstrip_LF (s : string) : string :=
  rstrip_with (fun c => Ascii.eqb c LF) s.


(** The text made of the given lines, one after the other. *)
Definition text_of (ls : list string) : string :=
  fold_right String.append EmptyString ls.

(** [l[i]]: a negative index counts from the end; [None] stands for
    [IndexError]. *)
Definition list_index {A : Type} (l : list A) (i : Z) : option A :=
  let n := Z.of_nat (List.length l) in
  if (0 <=? i)%Z then nth_error l (Z.to_nat i)
  else if (i <? - n)%Z then None
  else nth_error l (Z.to_nat (n + i)).

Fixpoint count_digits (s : string) : nat :=
  match s with
  | EmptyString => O
  | String c s' => if is_digit c then S (count_digits s') else count_digits s'
  end.

(** [int(s)] on text, base ten: as on bytes, and a numeral of more than
    4300 digits is refused (the default limit of the conversion). *)
Definition py_int_text (s : string) : option Z :=
  if (4300 <? count_digits s)%nat then None else py_int s.

Definition DQ : ascii := ascii_of_nat 34.

(** The defaults of both acquisition scripts. *)
Definition default_measure : string :=
  "SENSe:DATA? " ++ String DQ ("VOLT:AC" ++ String DQ "").
Definition default_gps : string := "SYST:GPS:DATA?".
Definition default_compass : string := "SYST:COMPass:DATA?".
Definition default_capture : string := "DISPlay:WINDow:FETch?".

Definition CR : ascii := ascii_of_nat 13.

(** The lines of a text file opened with [newline=""], as [readline] and
    iteration give them: a line ends after a line feed, a carriage return,
    or the pair of them, and keeps its terminator. *)
Fixpoint text_lines (s : string) : list string :=
  match s with
  | EmptyString => []
  | String c s' =>
      if Ascii.eqb c LF then String c EmptyString :: text_lines s'
      else if Ascii.eqb c CR then
        match s' with
        | String d s'' =>
            if Ascii.eqb d LF
            then String c (String d EmptyString) :: text_lines s''
            else String c EmptyString :: text_lines s'
        | EmptyString => [String c EmptyString]
        end
      else
        match text_lines s' with
        | [] => [String c EmptyString]
        | l :: ls => String c l :: ls
        end
  end.

(** [re.findall(r'[-+]?\d+(?:\.\d+)?', s)]: the matches from left to
    right, none overlapping another.  The first [skip] characters of [s]
    belong to the match before. *)
Fixpoint findall_number (skip : nat) (s : string) : list string :=
  match s with
  | EmptyString => []
  | String c s' =>
      match skip with
      | S k => findall_number k s'
      | O =>
          if is_digit c then
            let m := match_number s in
            m :: findall_number (String.length m - 1) s'
          else if Ascii.eqb c "-" || Ascii.eqb c "+" then
            match s' with
            | String d _ =>
                if is_digit d then
                  let m := match_number s' in
                  String c m :: findall_number (String.length m) s'
                else findall_number 0 s'
            | EmptyString => []
            end
          else findall_number 0 s'
      end
  end.

(** [x % 360.0]: the remainder of the division, exact, then moved into the
    range of the divisor by adding 360.0 when it is negative; a zero
    remainder is the positive zero. *)
Definition mod_360 (x : float) : float :=
  match x with
  | PyFloat.Fin s m =>
      let r := (m - 360 * inject_Z (Qfloor (m / 360)))%Q in
      if Qeq_bool r 0 then PyFloat.zero
      else if s then PyFloat.of_Q false (360 - r) else PyFloat.Fin false (Qred r)
  | _ => PyFloat.NaN
  end.

(** A finite float rounded to [k] decimals and read back: what a reader
    of the text [format(x, ".kf")] gets. *)
Definition at_decimals (k : nat) (x : float) : float :=
  match x with
  | PyFloat.Fin s m =>
      PyFloat.of_decimal s (PyFloat.rne (m * inject_Z (10 ^ Z.of_nat k)))
        (0 - Z.of_nat k)
  | _ => x
  end.

(** A character that ends no line. *)
Definition plain (c : ascii) : bool :=
  negb (Ascii.eqb c LF) && negb (Ascii.eqb c CR).

(** A whole line: characters that end no line, then a line feed. *)
Definition is_line (l : string) : Prop :=
  exists body, l = body ++ String LF "" /\ forallb_string plain body = true.

Definition BSL : ascii := ascii_of_nat 92.

(** What follows [pre] in [s], when [s] starts with it. *)
Definition after_prefix (pre s : string) : option string :=
  if String.prefix pre s then Some (drop (String.length pre) s) else None.

(** The same, whatever the case of the letters of [s]; [pre] is in lower
    case. *)
Definition after_prefix_ci (pre s : string) : option string :=
  if String.eqb (lower_string (take (String.length pre) s)) pre
  then Some (drop (String.length pre) s) else None.

(** [s] without its last character when that is a line feed: the place
    where [$] may match. *)
Fixpoint chop_LF (s : string) : string :=
  match s with
  | EmptyString => EmptyString
  | String c s' =>
      match s' with
      | EmptyString => if Ascii.eqb c LF then EmptyString else s
      | _ => String c (chop_LF s')
      end
  end.

(** [s.endswith(suffix)] *)
Fixpoint ends_with (suffix s : string) : bool :=
  String.eqb suffix s ||
  match s with
  | EmptyString => false
  | String _ s' => ends_with suffix s'
  end.

(** The whole of [r] matches [\(.+\)]: a parenthesis, at least one
    character and none of them a line feed, a parenthesis. *)
Definition paren_group (r : string) : bool :=
  String.prefix "(" r && ends_with ")" r && (3 <=? String.length r)%nat &&
  forallb_string (fun c => negb (Ascii.eqb c LF)) r.

(** [strftime("%Y-%m-%d_%H-%M-%S")] *)
Definition strftime_stamp (t : datetime) : string :=
  dec 4 (year t) ++ "-" ++ dec 2 (month t) ++ "-" ++ dec 2 (day t) ++ "_" ++
  dec 2 (hour t) ++ "-" ++ dec 2 (minute t) ++ "-" ++ dec 2 (second t).

(** [[f(x) for x in l if f(x) is not None]] *)
Fixpoint collect {A B : Type} (f : A -> option B) (l : list A) : list B :=
  match l with
  | [] => []
  | x :: r => match f x with Some y => y :: collect f r | None => collect f r end
  end.

(** [max(ns) + 1 if ns else 1] *)
Definition next_number (ns : list Z) : Z :=
  match ns with
  | [] => 1%Z
  | n :: r => (fold_left Z.max r n + 1)%Z
  end.

(** What [read] gives of a text file opened without [newline]: a
    carriage return, alone or before a line feed, reads as a line feed. *)
Fixpoint universal_newlines (s : string) : string :=
  match s with
  | EmptyString => EmptyString
  | String c s' =>
      if Ascii.eqb c CR then
        match s' with
        | String d s'' =>
            if Ascii.eqb d LF then String LF (universal_newlines s'')
            else String LF (universal_newlines s')
        | EmptyString => String LF EmptyString
        end
      else String c (universal_newlines s')
  end.

(** A character at which [str.splitlines] ends a line (ASCII range):
    LF, VT, FF, CR and the separators FS, GS, RS. *)
Definition is_linebreak (c : ascii) : bool :=
  let n := nat_of_ascii c in
  ((10 <=? n)%nat && (n <=? 13)%nat) || ((28 <=? n)%nat && (n <=? 30)%nat).

(** [s.splitlines()]: the lines without their terminators; a carriage
    return and the line feed after it end one line. *)
Fixpoint splitlines (s : string) : list string :=
  match s with
  | EmptyString => []
  | String c s' =>
      if is_linebreak c then
        match s' with
        | String d s'' =>
            if Ascii.eqb c CR && Ascii.eqb d LF
            then EmptyString :: splitlines s''
            else EmptyString :: splitlines s'
        | EmptyString => [EmptyString]
        end
      else
        match splitlines s' with
        | [] => [String c EmptyString]
        | l :: ls => String c l :: ls
        end
  end.

(** ** python/Pr100.py *)

Module Pr100.

Definition dbuv_to_dbm (dbuv : float) : float := PyFloat.sub dbuv f107.

(** [float(m.group(1))] cannot raise: the match is always a numeral
    ([search_number_float] in Part II). *)
Definition extraer_primer_float (s : string) : option float :=
  if is_empty s then None
  else match search_number s with
       | Some g => py_float g
       | None => None
       end.

(** The body under [try]; [ValueError] and [IndexError] are the [None]s
    of [float_at], which the handler turns into [(None, None)]. *)
Definition parse_gps_data (s : string) : option float * option float :=
  if is_empty s then (None, None)
  else
    let parts := map strip (split_comma s) in
    match find_index is_NS parts 0 with
    | None => (None, None)
    | Some i_ns =>
        if (List.length parts <=? i_ns + 3)%nat then (None, None)
        else
          let hemi_ns := nth i_ns parts EmptyString in
          match float_at parts (i_ns + 1), float_at parts (i_ns + 2),
                float_at parts (i_ns + 3) with
          | Some lat_d, Some lat_m, Some lat_s =>
              match find_index is_EW (skipn (i_ns + 4) parts) (i_ns + 4) with
              | None => (None, None)
              | Some i_ew =>
                  if (List.length parts <=? i_ew + 3)%nat then (None, None)
                  else
                    let hemi_ew := nth i_ew parts EmptyString in
                    match float_at parts (i_ew + 1), float_at parts (i_ew + 2),
                          float_at parts (i_ew + 3) with
                    | Some lon_d, Some lon_m, Some lon_s =>
                        let lat :=
                          PyFloat.add (PyFloat.add lat_d (PyFloat.div lat_m f60))
                                      (PyFloat.div lat_s f3600) in
                        let lon :=
                          PyFloat.add (PyFloat.add lon_d (PyFloat.div lon_m f60))
                                      (PyFloat.div lon_s f3600) in
                        let lat := if String.eqb hemi_ns "S" then PyFloat.opp lat else lat in
                        let lon := if String.eqb hemi_ew "W" then PyFloat.opp lon else lon in
                        (Some lat, Some lon)
                    | _, _, _ => (None, None)
                    end
              end
          | _, _, _ => (None, None)
          end
    end.

(** *** Block data *)

Definition not_block_msg : string := "Respuesta no es block data: ".
Definition closed_msg : string := "Conexión cerrada durante lectura de captura".

(** The loop [while len(data) < blen].  Every round adds at least one
    byte, so [blen - len(data)] rounds are enough: [fuel] is that bound
    and the loop test is false when it reaches zero
    ([recv_data_unfold] in Part II). *)
Fixpoint recv_data (fuel : nat) (blen : Z) (data : string) (f : sock_file)
  : result string * sock_file :=
  match fuel with
  | O => (Ok data, f)
  | S fuel' =>
      if (Z.of_nat (String.length data) <? blen)%Z then
        let (chunk, f') :=
          read (Z.to_nat (blen - Z.of_nat (String.length data))) f in
        if is_empty chunk then (Raise (RuntimeError closed_msg), f')
        else recv_data fuel' blen (data ++ chunk) f'
      else (Ok data, f)
  end.

(** The outcome and what is left of the stream. *)
Definition _scpi_recv_block (f : sock_file) : result string * sock_file :=
  let (first, f1) := read 1 f in
  if negb (String.eqb first "#") then
    let (line, f2) := readline f1 in
    (Raise (RuntimeError
              (not_block_msg ++ strip (decode_replace (first ++ line)))), f2)
  else
    let (b1, f2) := read 1 f1 in
    match py_int b1 with
    | None => (Raise ValueError, f2)
    | Some ndigits =>
        let (b2, f3) := read (Z.to_nat ndigits) f2 in
        match py_int b2 with
        | None => (Raise ValueError, f3)
        | Some blen => recv_data (Z.to_nat blen) blen EmptyString f3
        end
    end.

(** [conn] is what [socket.create_connection] does: it raises, or it
    gives the socket whose replies arrive as the given pieces. *)
Definition _fetch_png_via_scpi (conn : result sock_file) : result string :=
  match conn with
  | Raise e => Raise e
  | Ok f => fst (_scpi_recv_block f)
  end.

(** *** Snapshots *)

Record metadata : Type := mk_metadata {
  m_when : datetime;
  m_lat : option float; m_lon : option float;
  m_az : option float; m_dbm : float
}.

(** What lands in [capturas/] and [frames/]: the instrument's screen, or
    a card drawn from the sample. *)
Inductive artifact : Type :=
| Pantalla (png : string)
| Tarjeta (title : string) (m : metadata).

(** [save_card_img], the external renderer: [drawn] is what drawing and
    saving the card does, it succeeds or raises. *)
Definition save_card_img (title : string) (m : metadata) (drawn : result unit)
  : result artifact :=
  match drawn with
  | Ok _ => Ok (Tarjeta title m)
  | Raise e => Raise e
  end.

(** The card is drawn inside the handlers, so what it raises leaves the
    function (a drawing that fails in the inner handler is tried again by
    the outer one, within the same call and with the same outcome). *)
Definition guardar_captura_real_o_fallback
    (conn : result sock_file) (pillow_ok : bool) (drawn : result unit)
    (m : metadata) : result artifact :=
  match _fetch_png_via_scpi conn with
  | Ok png =>
      if pillow_ok then Ok (Pantalla png)
      else save_card_img "Medición PR100" m drawn
  | Raise _ => save_card_img "Medición PR100" m drawn
  end.

Definition save_frame_img (m : metadata) (drawn : result unit) : result artifact :=
  save_card_img "Frame PR100" m drawn.

(** *** Sampling period *)



(** The value of [PERIODO_S] at import, from [SAMPLE_PERIOD]. *)
Definition initial_period (SAMPLE_PERIOD : option string) : float :=
  let text := match SAMPLE_PERIOD with Some t => t | None => "5" end in
  match py_float text with
  | Some v => if PyFloat.leb v PyFloat.zero then PyFloat.of_Z 5 else v
  | None => PyFloat.of_Z 5
  end.

(** *** The sampling loop *)

Definition az_txt (az : option float) : string :=
  match az with
  | Some a => if PyFloat.is_finite a then format_f 1 a else "no directivo"
  | None => "no directivo"
  end.

Definition coord_txt (c : option float) : string :=
  match c with
  | Some x => if PyFloat.is_finite x then format_f 6 x else ""
  | None => ""
  end.

Definition sample_line (t : datetime) (dbm : float)
    (az lat lon : option float) : string :=
  strftime_Ymd t ++ "," ++ strftime_HMS t ++ "," ++ float_repr dbm ++ "," ++
  az_txt az ++ "," ++ coord_txt lat ++ "," ++ coord_txt lon ++ String LF "".

(** What the world does during one round of the loop. *)
Record cycle_env : Type := mk_cycle_env {
  signal : bool;          (* a stop signal arrived before the loop test *)
  removed_before : bool;  (* the log was removed before the existence test *)
  ahora : datetime;
  measure_reply : reply;
  gps_reply : reply;
  compass_reply : reply;
  removed_during : bool;  (* the log was removed between test and append *)
  append_ok : bool;       (* opening the log for append and writing succeed *)
  capture_conn : result sock_file;
  pillow_ok : bool;       (* the PNG converts to JPEG *)
  capture_card : result unit;  (* drawing the fall-back card of the capture *)
  frame_card : result unit     (* drawing the card of the frame *)
}.

Record state : Type := mk_state {
  stop_ev : bool;
  file : log_file;
  idx : nat;
  capturas : list artifact;
  frames : list artifact
}.

(** How a round ends: the loop goes on, the loop is left, or an exception
    leaves the body of the loop. *)
Inductive control : Type :=
| Continue
| Break
| Escaped (e : exn).

Definition remove_if (b : bool) (f : log_file) : log_file :=
  if b then None else f.

(** The readings of one round. *)
Definition reading_dbuv (e : cycle_env) : option float :=
  extraer_primer_float (query_or_empty (measure_reply e)).

Definition reading_dbm (e : cycle_env) : float :=
  match reading_dbuv e with
  | Some dbuv => dbuv_to_dbm dbuv
  | None => PyFloat.NaN
  end.

Definition reading_gps (e : cycle_env) : option float * option float :=
  parse_gps_data (query_or_empty (gps_reply e)).

Definition reading_az (e : cycle_env) : option float :=
  extraer_primer_float (query_or_empty (compass_reply e)).

(** The loop test of a round passes: no stop signal, and the log is
    there. *)
Definition enters (e : cycle_env) (st : state) : Prop :=
  stop_ev st = false /\ signal e = false /\
  exists_ (remove_if (removed_before e) (file st)) = true.

(** The log as the append of a round finds it. *)
Definition log_at_append (e : cycle_env) (st : state) : log_file :=
  remove_if (removed_during e) (remove_if (removed_before e) (file st)).



(** One round of [while not stop_ev.is_set()]. *)
Definition cycle (e : cycle_env) (st : state) : state * control :=
  let stop := stop_ev st || signal e in
  let file0 := remove_if (removed_before e) (file st) in
  if stop then
    (mk_state stop file0 (idx st) (capturas st) (frames st), Break)
  else if negb (exists_ file0) then
    (mk_state stop file0 (idx st) (capturas st) (frames st), Break)
  else
    let dbm := reading_dbm e in
    let (lat, lon) := reading_gps e in
    let az := reading_az e in
    let line := sample_line (ahora e) dbm az lat lon in
    let file1 := remove_if (removed_during e) file0 in
    let file2 := if append_ok e then append line file1 else file1 in
    let m := mk_metadata (ahora e) lat lon az dbm in
    match guardar_captura_real_o_fallback
            (capture_conn e) (pillow_ok e) (capture_card e) m with
    | Raise ex =>
        (mk_state stop file2 (idx st) (capturas st) (frames st), Escaped ex)
    | Ok c =>
        match save_frame_img m (frame_card e) with
        | Raise ex =>
            (mk_state stop file2 (idx st) (capturas st ++ [c])%list (frames st),
             Escaped ex)
        | Ok fr =>
            (mk_state stop file2 (S (idx st)) (capturas st ++ [c])%list
               (frames st ++ [fr])%list, Continue)
        end
    end.

(** How the loop stands: left in the normal way, left through the handler
    [except Exception] around it, or still going when the script of the
    world ends. *)
Inductive status : Type :=
| Finished
| Failed (e : exn)
| Running.

Fixpoint main_loop (envs : list cycle_env) (st : state) : state * status :=
  match envs with
  | [] => (st, Running)
  | e :: es =>
      match cycle e st with
      | (st', Continue) => main_loop es st'
      | (st', Break) => (st', Finished)
      | (st', Escaped ex) => (st', Failed ex)
      end
  end.

(** [main] from the truncation of the log on: the connection is refused
    (the exception leaves [main]), or the loop runs. *)
Definition main (connect : result unit) (envs : list cycle_env)
  : result (state * status) :=
  let st0 := mk_state false (Some EmptyString) 0 [] [] in
  match connect with
  | Raise e => Raise e
  | Ok _ => Ok (main_loop envs st0)
  end.

(** *** Scenarios *)

Definition t0 : datetime := mk_datetime 2026 11 4 12 0 0.

(** A round in which the three queries time out and the capture connection
    is refused; [ok] says whether the append succeeds, [drawn] what drawing
    a card does. *)
Definition all_fail (ok : bool) (drawn : result unit) : cycle_env :=
  mk_cycle_env false false t0 (Raise TimeoutError) (Raise TimeoutError)
    (Raise TimeoutError) false ok (Raise OSError) true drawn drawn.

Definition st0 : state := mk_state false (Some EmptyString) 0 [] [].

(** *** Commands *)

(** [get_cmd]: [IndexError], which a negative index below the length
    raises, is caught and gives the default. *)
Definition get_cmd (cmds : list string) (index : option Z)
    (default : option string) : option string :=
  match index with
  | None => default
  | Some i =>
      if (i <? Z.of_nat (List.length cmds))%Z then
        match list_index cmds i with
        | Some raw =>
            let c := strip raw in
            if is_empty c then default else Some c
        | None => default
        end
      else default
  end.

(** The loop [for c in cmds] of [find_capture_cmd]. *)
Fixpoint first_fetch (cmds : list string) : option string :=
  match cmds with
  | [] => None
  | c :: cs =>
      let cc := upper_string (strip c) in
      if contains "DISPLAY:WINDOW:FETCH?" (remove_char " " cc)
      then Some (strip c)
      else first_fetch cs
  end.

(** [find_capture_cmd], with the environment variable [CAPTURE_CMD_INDEX]
    as an argument. *)
Definition find_capture_cmd (CAPTURE_CMD_INDEX : option string)
    (cmds : list string) (default : string) : string :=
  let heuristic :=
    match first_fetch cmds with
    | Some c => c
    | None => default
    end in
  match CAPTURE_CMD_INDEX with
  | None => heuristic
  | Some t =>
      match py_int_text t with
      | None => heuristic
      | Some i =>
          match get_cmd cmds (Some i) None with
          | Some c => if is_empty c then heuristic else c
          | None => heuristic
          end
      end
  end.

(** The commands [main] works with; [cmds] is what
    [obtener_comandos_por_equipo] read from the menu, the empty list when
    the menu cannot be read. *)
Record commands : Type := mk_commands {
  cmd_idn : option string;
  cmd_measure : option string;
  cmd_gps : option string;
  cmd_compass : option string;
  cmd_freq : option string;
  cmd_capture : string
}.

Definition main_commands (CAPTURE_CMD_INDEX : option string)
    (cmds : list string) : commands :=
  mk_commands
    (get_cmd cmds (Some 0%Z) None)
    (get_cmd cmds (Some 2%Z) (Some default_measure))
    (get_cmd cmds (Some 3%Z) (Some default_gps))
    (get_cmd cmds (Some 4%Z) (Some default_compass))
    (get_cmd cmds (Some 5%Z) None)
    (find_capture_cmd CAPTURE_CMD_INDEX cmds default_capture).

(** [scpi_write]: the bytes handed to the writer.  The strict encoding
    raises [UnicodeEncodeError], a [ValueError], on a character outside
    ASCII. *)
Definition scpi_write (cmd : string) : result string :=
  let line := rstrip_LF cmd ++ String LF "" in
  if forallb_string is_ascii line then Ok line else Raise ValueError.

(** *** The shape of the log *)

Definition is_sample_line (l : string) : Prop :=
  exists t dbm az lat lon, l = sample_line t dbm az lat lon.

(** The log is absent, or it is a sequence of whole sample lines. *)
Definition well_formed_log (f : log_file) : Prop :=
  match f with
  | None => True
  | Some content => exists ls, content = text_of ls /\ Forall is_sample_line ls
  end.

(** A round that nothing disturbs: no stop signal, the log stays in
    place, the append succeeds and both cards can be drawn. *)
Definition undisturbed (e : cycle_env) : Prop :=
  signal e = false /\ removed_before e = false /\ removed_during e = false /\
  append_ok e = true /\ capture_card e = Ok tt /\ frame_card e = Ok tt.

(** The line a round writes. *)
Definition round_line (e : cycle_env) : string :=
  sample_line (ahora e) (reading_dbm e) (reading_az e)
    (fst (reading_gps e)) (snd (reading_gps e)).

(** The frames and the captures are numbered as the rounds. *)
Definition numbered (st : state) : Prop :=
  List.length (frames st) = idx st /\ List.length (capturas st) = idx st.

End Pr100.

(** ** python/medicion360.py *)

Module Medicion360.

Definition dbuv_to_dbm (dbuv : float) : float := PyFloat.sub dbuv f107.

Definition extraer_primer_float (s : string) : option float :=
  if is_empty s then None
  else match search_number s with
       | Some g => py_float g
       | None => None
       end.

Definition parse_gps_data (s : string) : option float * option float :=
  if is_empty s then (None, None)
  else
    let parts := map strip (split_comma s) in
    match find_index is_NS parts 0 with
    | None => (None, None)
    | Some i_ns =>
        if (List.length parts <=? i_ns + 3)%nat then (None, None)
        else
          let hemi_ns := nth i_ns parts EmptyString in
          match float_at parts (i_ns + 1), float_at parts (i_ns + 2),
                float_at parts (i_ns + 3) with
          | Some lat_d, Some lat_m, Some lat_s =>
              match find_index is_EW (skipn (i_ns + 4) parts) (i_ns + 4) with
              | None => (None, None)
              | Some i_ew =>
                  if (List.length parts <=? i_ew + 3)%nat then (None, None)
                  else
                    let hemi_ew := nth i_ew parts EmptyString in
                    match float_at parts (i_ew + 1), float_at parts (i_ew + 2),
                          float_at parts (i_ew + 3) with
                    | Some lon_d, Some lon_m, Some lon_s =>
                        let lat :=
                          PyFloat.add (PyFloat.add lat_d (PyFloat.div lat_m f60))
                                      (PyFloat.div lat_s f3600) in
                        let lon :=
                          PyFloat.add (PyFloat.add lon_d (PyFloat.div lon_m f60))
                                      (PyFloat.div lon_s f3600) in
                        let lat := if String.eqb hemi_ns "S" then PyFloat.opp lat else lat in
                        let lon := if String.eqb hemi_ew "W" then PyFloat.opp lon else lon in
                        (Some lat, Some lon)
                    | _, _, _ => (None, None)
                    end
              end
          | _, _, _ => (None, None)
          end
    end.

(** [GPS_WAIT_S], by default 8.0 seconds. *)
Definition GPS_WAIT_S : float := PyFloat.of_Z 8.

(** What the world does during one round of the wait for a position. *)
Record poll_env : Type := mk_poll_env {
  p_signal : bool;          (* a stop signal arrived before the loop test *)
  p_removed_before : bool;  (* the log was removed before the existence test *)
  p_gps_reply : reply;
  p_elapsed : float         (* loop.time() - start_wait after the query *)
}.

Record state : Type := mk_state {
  stop_ev : bool;
  file : log_file
}.

Definition remove_if (b : bool) (f : log_file) : log_file :=
  if b then None else f.

(** The first loop of [main]: the position it leaves in [lat0, lon0];
    [None] when the script of the world ends during the wait. *)
Fixpoint wait_fix (polls : list poll_env) (st : state)
  : option (state * option (float * float)) :=
  match polls with
  | [] => None
  | p :: ps =>
      let stop := stop_ev st || p_signal p in
      let file0 := remove_if (p_removed_before p) (file st) in
      let st' := mk_state stop file0 in
      if stop then Some (st', None)
      else if negb (exists_ file0) then Some (st', None)
      else
        match parse_gps_data (query_or_empty (p_gps_reply p)) with
        | (Some lat, Some lon) => Some (st', Some (lat, lon))
        | _ =>
            if PyFloat.leb GPS_WAIT_S (p_elapsed p) then Some (st', None)
            else wait_fix ps st'
        end
  end.

(** The first line of the log. *)
Definition header_line (pos : option (float * float)) : string :=
  match pos with
  | Some (lat0, lon0) => format_f 6 lat0 ++ "," ++ format_f 6 lon0 ++ String LF ""
  | None => String LF ""
  end.

Definition write_header (append_ok : bool) (pos : option (float * float))
    (st : state) : state :=
  if append_ok then mk_state (stop_ev st) (append (header_line pos) (file st))
  else st.

(** What the world does during one round of the sweep. *)
Record cycle_env : Type := mk_cycle_env {
  signal : bool;
  removed_before : bool;
  measure_reply : reply;
  compass_reply : reply;
  removed_during : bool;
  append_ok : bool
}.

Inductive control : Type := Continue | Break.

Definition reading_dbuv (e : cycle_env) : option float :=
  extraer_primer_float (query_or_empty (measure_reply e)).

Definition reading_dbm (e : cycle_env) : option float :=
  match reading_dbuv e with
  | Some dbuv => Some (dbuv_to_dbm dbuv)
  | None => None
  end.

Definition reading_az (e : cycle_env) : option float :=
  extraer_primer_float (query_or_empty (compass_reply e)).

Definition sweep_line (az dbm : float) : string :=
  format_f 1 az ++ "," ++ format_f 2 dbm ++ String LF "".

(** The lines one round appends to the log: one or none. *)
Definition cycle_lines (e : cycle_env) : list string :=
  match reading_az e, reading_dbm e with
  | Some az, Some dbm =>
      if PyFloat.is_finite az && PyFloat.is_finite dbm && append_ok e
      then [sweep_line az dbm] else []
  | _, _ => []
  end.

(** The loop test of a round passes: no stop signal, and the log is
    there. *)
Definition enters (e : cycle_env) (st : state) : Prop :=
  stop_ev st = false /\ signal e = false /\
  exists_ (remove_if (removed_before e) (file st)) = true.

(** The log as the append of a round finds it. *)
Definition log_at_append (e : cycle_env) (st : state) : log_file :=
  remove_if (removed_during e) (remove_if (removed_before e) (file st)).

(** One round of the second loop of [main]. *)
Definition cycle (e : cycle_env) (st : state) : state * control :=
  let stop := stop_ev st || signal e in
  let file0 := remove_if (removed_before e) (file st) in
  if stop then (mk_state stop file0, Break)
  else if negb (exists_ file0) then (mk_state stop file0, Break)
  else
    let file1 := remove_if (removed_during e) file0 in
    (mk_state stop (fold_left (fun f l => append l f) (cycle_lines e) file1),
     Continue).

Inductive status : Type := Finished | Running.

Fixpoint sweep_loop (envs : list cycle_env) (st : state) : state * status :=
  match envs with
  | [] => (st, Running)
  | e :: es =>
      match cycle e st with
      | (st', Continue) => sweep_loop es st'
      | (st', Break) => (st', Finished)
      end
  end.

(** [main] from the truncation of the log on.  [None]: the script of the
    world ends during the wait for a position. *)
Definition main (polls : list poll_env) (header_ok : bool)
    (envs : list cycle_env) : option (state * status) :=
  match wait_fix polls (mk_state false (Some EmptyString)) with
  | None => None
  | Some (st, pos) => Some (sweep_loop envs (write_header header_ok pos st))
  end.

(** *** Scenarios *)

(** A round of the wait before which the log has been removed. *)
Definition removed_poll : poll_env :=
  mk_poll_env false true (Ok EmptyString) PyFloat.zero.

(** A round of the sweep with a level of 50 dBuV and a bearing of 10
    degrees; [ok] says whether the append succeeds. *)
Definition good_round (ok : bool) : cycle_env :=
  mk_cycle_env false false (Ok "50") (Ok "10") false ok.

(** A round of the sweep with a bearing and no level. *)
Definition bearing_only : cycle_env :=
  mk_cycle_env false false (Raise TimeoutError) (Ok "10") false true.

Definition st0 : state := mk_state false (Some EmptyString).

(** *** Commands *)

(** The choice [cmds[i].strip() if len(cmds) > i and cmds[i].strip() else
    default] of [obtener_comandos_pr100]. *)
Definition cmd_or (cmds : list string) (i : nat) (default : string) : string :=
  match nth_error cmds i with
  | Some raw => if is_empty (strip raw) then default else strip raw
  | None => default
  end.

(** [obtener_comandos_pr100] from the commands of the PR100 entry of the
    menu on; [cmds] is empty when the menu cannot be read. *)
Definition obtener_comandos_pr100 (cmds : list string)
  : string * string * string :=
  (cmd_or cmds 2 default_measure, cmd_or cmds 3 default_gps,
   cmd_or cmds 4 default_compass).

(** [scpi_write]: the bytes handed to the writer; characters outside ASCII
    are dropped. *)
Definition scpi_write (cmd : string) : string :=
  encode_ascii_ignore (rstrip_LF cmd ++ String LF "").

(** The value of [PERIODO_S] at import, from [SAMPLE_PERIOD]. *)
Definition initial_period (SAMPLE_PERIOD : option string) : float :=
  let text := match SAMPLE_PERIOD with Some t => t | None => "1.0" end in
  match py_float text with
  | Some v => if PyFloat.leb v PyFloat.zero then PyFloat.of_Z 1 else v
  | None => PyFloat.of_Z 1
  end.

(** *** The shape of the log *)

(** A round of the sweep during which the log stays in place. *)
Definition calm (e : cycle_env) : Prop :=
  removed_before e = false /\ removed_during e = false.

(** The position of a complete fix among the replies of the wait. *)
Definition fix_of (polls : list poll_env) (pos : float * float) : Prop :=
  exists p, In p polls /\
    parse_gps_data (query_or_empty (p_gps_reply p)) = (Some (fst pos), Some (snd pos)).

(** The bearing and the level a round writes down: one pair or none. *)
Definition round_sample (e : cycle_env) : list (float * float) :=
  match reading_az e, reading_dbm e with
  | Some az, Some dbm =>
      if PyFloat.is_finite az && PyFloat.is_finite dbm && append_ok e
      then [(az, dbm)] else []
  | _, _ => []
  end.

(** A pair of finite floats as the operations produce them. *)
Definition sound_pair (p : float * float) : Prop :=
  (PyFloat.is_finite (fst p) = true /\ PyFloat.wf (fst p)) /\
  (PyFloat.is_finite (snd p) = true /\ PyFloat.wf (snd p)).

End Medicion360.

(** ** python/Cambiar_freq.py *)

Module Cambiar_freq.

(** What the function does to the outside, in order. *)
Inductive io : Type :=
| Connect
| Write (line : string)
| Readline.

(** What the instrument side does: the connection is refused or made;
    the read of the echo returns a line (empty at end of stream) or
    raises, as a read does when the five seconds of the socket's
    time-out pass without a byte. *)
Record freq_env : Type := mk_freq_env {
  connect : result unit;
  echo : reply
}.

(** [(s.rstrip("\n") + "\n").encode("ascii", errors="ignore")] *)
Definition _write_line (s : string) : io :=
  Write (encode_ascii_ignore
           (rstrip_with (fun c => Ascii.eqb c LF) s ++ String LF "")).

(** [str(freq_mhz or "").strip().replace(",", ".")] *)
Definition normalize (freq_mhz : option string) : string :=
  replace_comma_dot (strip (match freq_mhz with Some t => t | None => "" end)).

(** The outcome and the trace of what was done to the outside. *)
Definition enviar_comando_frecuencia (freq_mhz : option string) (e : freq_env)
  : result string * list io :=
  let freq := normalize freq_mhz in
  if negb (fullmatch_numeral freq) then (Raise ValueError, [])
  else
    let cmd_set := "FREQ " ++ freq ++ "MHz" in
    let cmd_echo := "FREQ?" in
    match connect e with
    | Raise ex => (Raise ex, [Connect])
    | Ok _ =>
        let sent := [Connect; _write_line "*CLS"; _write_line cmd_set;
                     _write_line cmd_echo; Readline] in
        match echo e with
        | Raise ex => (Raise ex, sent)
        | Ok line =>
            let resp := strip (decode_ignore line) in
            (Ok (if is_empty resp then "OK" else resp), sent)
        end
    end.

(** *** Scenarios *)

(** The instrument accepts the connection and then stays silent. *)
Definition silent : freq_env := mk_freq_env (Ok tt) (Raise TimeoutError).

(** The instrument accepts the connection and closes it without a reply. *)
Definition closed : freq_env := mk_freq_env (Ok tt) (Ok EmptyString).

(** *** The steps on the socket, one by one

    A write on the socket can raise as a read can (the peer has gone, the
    time-out passes).  [wire] says what every step does; [freq_env] above
    is the case of the three writes going through. *)
Record wire : Type := mk_wire {
  w_connect : result unit;
  w_cls : result unit;      (* the write of [*CLS] *)
  w_set : result unit;      (* the write of the frequency *)
  w_query : result unit;    (* the write of [FREQ?] *)
  w_echo : reply
}.

Definition wire_of (e : freq_env) : wire :=
  mk_wire (connect e) (Ok tt) (Ok tt) (Ok tt) (echo e).

(** [enviar_comando_frecuencia] on such a socket: an exception leaves the
    function at the step that raises, and the trace ends with that
    step. *)
Definition enviar_comando_frecuencia_wire (freq_mhz : option string) (w : wire)
  : result string * list io :=
  let freq := normalize freq_mhz in
  if negb (fullmatch_numeral freq) then (Raise ValueError, [])
  else
    let cmd_set := "FREQ " ++ freq ++ "MHz" in
    let cmd_echo := "FREQ?" in
    match w_connect w with
    | Raise ex => (Raise ex, [Connect])
    | Ok _ =>
        match w_cls w with
        | Raise ex => (Raise ex, [Connect; _write_line "*CLS"])
        | Ok _ =>
            match w_set w with
            | Raise ex =>
                (Raise ex, [Connect; _write_line "*CLS"; _write_line cmd_set])
            | Ok _ =>
                match w_query w with
                | Raise ex =>
                    (Raise ex, [Connect; _write_line "*CLS"; _write_line cmd_set;
                                _write_line cmd_echo])
                | Ok _ =>
                    let sent := [Connect; _write_line "*CLS"; _write_line cmd_set;
                                 _write_line cmd_echo; Readline] in
                    match w_echo w with
                    | Raise ex => (Raise ex, sent)
                    | Ok line =>
                        let resp := strip (decode_ignore line) in
                        (Ok (if is_empty resp then "OK" else resp), sent)
                    end
                end
            end
        end
    end.

End Cambiar_freq.

(** ** server.py *)

Module Server.

(** *** Frequency change *)




(** *** The sweep, live *)

(** The answer of [api_med360_live]; the field [n] of the answer is the
    number of points. *)
Record live : Type := mk_live {
  lat : option float;
  long : option float;
  points : list (float * float)    (* deg, pwr *)
}.

(** The loop [for line in f].  A conversion that raises leaves the loop
    with the points gathered so far. *)
Fixpoint live_points (lines : list string) : list (float * float) :=
  match lines with
  | [] => []
  | line :: rest =>
      match findall_number 0 line with
      | a :: b :: _ =>
          match py_float a with
          | None => []
          | Some x =>
              match py_float b with
              | None => []
              | Some y => (mod_360 x, y) :: live_points rest
              end
          end
      | _ => live_points rest
      end
  end.

(** What the endpoint makes of a pair the sweep wrote with one and two
    decimals, and of the position in the header. *)
Definition point_of (p : float * float) : float * float :=
  (mod_360 (at_decimals 1 (fst p)), at_decimals 2 (snd p)).

Definition position_of (pos : option (float * float))
  : option float * option float :=
  match pos with
  | Some (la, lo) =>
      if PyFloat.is_finite la && PyFloat.is_finite lo
      then (Some (at_decimals 6 la), Some (at_decimals 6 lo))
      else (None, None)
  | None => (None, None)
  end.

(** [api_med360_live] on the text of [medicion360.txt]; [None] is a file
    that does not exist. *)
Definition api_med360_live (f : option string) : live :=
  match f with
  | None => mk_live None None []
  | Some content =>
      match text_lines content with
      | [] => mk_live None None []
      | first :: rest =>
          match findall_number 0 first with
          | a :: b :: _ =>
              match py_float a with
              | None => mk_live None None []
              | Some x =>
                  match py_float b with
                  | None => mk_live (Some x) None []
                  | Some y => mk_live (Some x) (Some y) (live_points rest)
                  end
              end
          | _ => mk_live None None (live_points rest)
          end
      end
  end.

(** *** Names of what is saved *)

(** [SAFE_SAVE_DIR_RE.match(name)], the pattern
    [^save_\d+(?:\(.+\))?$] without regard to case. *)
Definition safe_save_dir_re (name : string) : bool :=
  match after_prefix_ci "save_" name with
  | None => false
  | Some r =>
      let (ds, rest) := span_digits r in
      negb (is_empty ds) &&
      (is_empty (chop_LF rest) || paren_group (chop_LF rest))
  end.

Definition _safe_guardado_folder (name : string) : bool :=
  negb (is_empty name) && safe_save_dir_re name &&
  negb (contains "/" name) && negb (contains (String BSL "") name).

(** The number of a folder of [guardado]: [int(m.group(1))] for the match
    of [^save_(\d+)]; [None] without a match or when the conversion
    raises. *)
Definition save_number (n : string) : option Z :=
  match after_prefix "save_" n with
  | None => None
  | Some r =>
      let (ds, _) := span_digits r in
      if is_empty ds then None else py_int_text ds
  end.

(** [_next_save_dir]: the name of the folder, which the function returns
    joined to [base_dir]; [existentes] is the listing of [base_dir], empty
    when the directory is not there. *)
Definition _next_save_dir (existentes : list string) (ts_str : string) : string :=
  "save_" ++ string_of_Z_nat (next_number (collect save_number existentes)) ++
  "(" ++ ts_str ++ ")".

(** The number of a file of [guardado360], for the match of
    [^save360_(\d+)\(]. *)
Definition save360_number (n : string) : option Z :=
  match after_prefix "save360_" n with
  | None => None
  | Some r =>
      let (ds, rest) := span_digits r in
      if is_empty ds then None
      else if String.prefix "(" rest then py_int_text ds else None
  end.

(** [next_save360_name]: the name of the file, which the function returns
    joined to [base_dir]. *)
Definition next_save360_name (existentes : list string) (ts_str : string) : string :=
  "save360_" ++ string_of_Z_nat (next_number (collect save360_number existentes)) ++
  "(" ++ ts_str ++ ").txt".

(** The filter of [api_med360_list], the pattern
    [^save360_\d+(?:\(.+\))?\.txt$] without regard to case. *)
Definition listed_360 (fname : string) : bool :=
  match after_prefix_ci "save360_" fname with
  | None => false
  | Some r =>
      let (ds, rest) := span_digits r in
      let rest := chop_LF rest in
      let n := String.length rest in
      negb (is_empty ds) &&
      String.eqb (lower_string (drop (n - 4) rest)) ".txt" &&
      (is_empty (take (n - 4) rest) || paren_group (take (n - 4) rest))
  end.

(** The validation of [api_med360_delete]: no path separator, the
    extension [.txt] in any case, no leading point. *)
Definition deletable_360 (name : string) : bool :=
  negb (contains "/" name) && negb (contains (String BSL "") name) &&
  ends_with ".txt" (lower_string name) && negb (String.prefix "." name).

(** *** Saving a sweep *)

(** What [api_med360_save] writes: the name of the equipment on a line,
    then every line of [medicion360.txt] without its white space at the
    end.  [raw] is the text of the file as stored. *)
Definition saved_lines (raw : string) : list string :=
  map (fun ln => rstrip_with is_space ln ++ String LF "")
      (splitlines (universal_newlines raw)).

(** [api_med360_save]: [None] is the answer 400 for a sweep that is not
    there; otherwise the name of the new file, which the function joins
    to [GUARDADO360_DIR], and its text. *)
Definition api_med360_save (EQUIPO_ACTUAL : string) (f : option string)
    (existentes : list string) (t : datetime) : option (string * string) :=
  match f with
  | None => None
  | Some raw =>
      Some (next_save360_name existentes (strftime_stamp t),
            EQUIPO_ACTUAL ++ String LF "" ++ text_of (saved_lines raw))
  end.

End Server.

(* ================================================================== *)
(** * Part II: properties *)
(* ================================================================== *)

(** ** Binary64 arithmetic *)

Section FloatFacts.

Import PyFloat.
Local Open Scope Q_scope.


Lemma pow2_pos e : 0 < pow2 e.
Proof. unfold pow2. apply Qpower_0_lt. reflexivity. Qed.

Lemma pow2_add a b : pow2 (a + b) == pow2 a * pow2 b.
Proof. unfold pow2. apply Qpower_plus. discriminate. Qed.

Lemma pow2_succ a : pow2 (a + 1) == 2 * pow2 a.
Proof. rewrite pow2_add. unfold pow2 at 2. simpl. ring. Qed.

Lemma pow2_le a b : (a <= b)%Z -> pow2 a <= pow2 b.
Proof. intros H. unfold pow2. apply Qpower_le_compat_l; [exact H | discriminate]. Qed.

Lemma pow2_lt a b : (a < b)%Z -> pow2 a < pow2 b.
Proof. intros H. unfold pow2. apply Qpower_lt_compat_l; [exact H | reflexivity]. Qed.

Lemma pow2_inject n : (0 <= n)%Z -> pow2 n == inject_Z (2 ^ n).
Proof. intros H. unfold pow2. rewrite Zpower_Qpower by exact H. reflexivity. Qed.

Lemma Q_as_div (x : Q) : x * inject_Z (Zpos (Qden x)) == inject_Z (Qnum x).
Proof.
  destruct x as [n d]. unfold Qeq, Qmult, inject_Z. simpl. lia.
Qed.

Lemma ilog2_spec x : 0 < x -> pow2 (ilog2 x) <= x /\ x < pow2 (ilog2 x + 1).
Proof.
  intros Hx. unfold ilog2.
  set (n := Qnum x). set (d := Zpos (Qden x)).
  assert (Hn : (0 < n)%Z) by (destruct x as [xn xd]; unfold Qlt in Hx; simpl in *; subst n; simpl; lia).
  assert (Hd : (0 < d)%Z) by (subst d; lia).
  set (a := Z.log2 n). set (b := Z.log2 d).
  assert (Ha0 : (0 <= a)%Z) by apply Z.log2_nonneg.
  assert (Hb0 : (0 <= b)%Z) by apply Z.log2_nonneg.
  destruct (Z.log2_spec n Hn) as [Ha1 Ha2]. fold a in Ha1, Ha2.
  destruct (Z.log2_spec d Hd) as [Hb1 Hb2]. fold b in Hb1, Hb2.
  pose proof (Q_as_div x) as Hxd. fold n d in Hxd.
  assert (Hdq : 0 < inject_Z d) by (change 0 with (inject_Z 0); rewrite <- Zlt_Qlt; exact Hd).
  assert (HPa : pow2 a == inject_Z (2 ^ a)) by (apply pow2_inject; exact Ha0).
  assert (HPb : pow2 b == inject_Z (2 ^ b)) by (apply pow2_inject; exact Hb0).
  assert (Hna1 : pow2 a <= inject_Z n) by (rewrite HPa, <- Zle_Qle; exact Ha1).
  assert (Hna2 : inject_Z n < 2 * pow2 a).
  { rewrite <- pow2_succ, pow2_inject by lia. rewrite <- Zlt_Qlt.
    replace (a + 1)%Z with (Z.succ a) by lia. exact Ha2. }
  assert (Hdb1 : pow2 b <= inject_Z d) by (rewrite HPb, <- Zle_Qle; exact Hb1).
  assert (Hdb2 : inject_Z d < 2 * pow2 b).
  { rewrite <- pow2_succ, pow2_inject by lia. rewrite <- Zlt_Qlt.
    replace (b + 1)%Z with (Z.succ b) by lia. exact Hb2. }
  assert (Hab : pow2 (a - b) * pow2 b == pow2 a).
  { rewrite <- pow2_add. replace (a - b + b)%Z with a by lia. reflexivity. }
  pose proof (pow2_pos (a - b)) as Hp. pose proof (pow2_pos b) as Hpb.
  destruct (Qle_bool (pow2 (a - b)) x) eqn:E.
  - apply Qle_bool_iff in E. split; [exact E|].
    rewrite pow2_succ.
    apply Qmult_lt_r with (z := inject_Z d); [exact Hdq|].
    rewrite Hxd.
    apply Qlt_le_trans with (2 * pow2 a); [exact Hna2|].
    rewrite <- Hab. 
    setoid_replace (2 * (pow2 (a - b) * pow2 b)) with (2 * pow2 (a - b) * pow2 b) by ring.
    apply Qmult_le_l; [lra|]. exact Hdb1.
  - assert (E' : x < pow2 (a - b)).
    { apply Qnot_le_lt. intro H. apply Qle_bool_iff in H. congruence. }
    split.
    + apply Qmult_le_r with (z := inject_Z d); [exact Hdq|].
      rewrite Hxd.
      apply Qle_trans with (pow2 a); [|exact Hna1].
      rewrite <- Hab.
      assert (Hh : pow2 (a - b) == 2 * pow2 (a - b - 1)).
      { rewrite <- pow2_succ. replace (a - b - 1 + 1)%Z with (a - b)%Z by lia. reflexivity. }
      rewrite Hh.
      setoid_replace (2 * pow2 (a - b - 1) * pow2 b) with (pow2 (a - b - 1) * (2 * pow2 b)) by ring.
      apply Qmult_le_l; [apply pow2_pos|]. apply Qlt_le_weak. exact Hdb2.
    + replace (a - b - 1 + 1)%Z with (a - b)%Z by lia. exact E'.
Qed.

Lemma binade_unique x e1 e2 :
  pow2 e1 <= x -> x < pow2 (e1 + 1) -> pow2 e2 <= x -> x < pow2 (e2 + 1) -> e1 = e2.
Proof.
  intros A1 A2 B1 B2.
  destruct (Z.lt_trichotomy e1 e2) as [H|[H|H]]; [|exact H|].
  - exfalso. assert (pow2 (e1 + 1) <= pow2 e2) by (apply pow2_le; lia). lra.
  - exfalso. assert (pow2 (e2 + 1) <= pow2 e1) by (apply pow2_le; lia). lra.
Qed.

Lemma ilog2_comp x y : 0 < x -> x == y -> ilog2 x = ilog2 y.
Proof.
  intros Hx E. assert (Hy : 0 < y) by (rewrite <- E; exact Hx).
  destruct (ilog2_spec x Hx) as [A1 A2]. destruct (ilog2_spec y Hy) as [B1 B2].
  apply binade_unique with x; auto; rewrite E; auto.
Qed.

Lemma ilog2_mono x y : 0 < x -> x <= y -> (ilog2 x <= ilog2 y)%Z.
Proof.
  intros Hx L. assert (Hy : 0 < y) by lra.
  destruct (ilog2_spec x Hx) as [A1 A2]. destruct (ilog2_spec y Hy) as [B1 B2].
  destruct (Z_le_gt_dec (ilog2 x) (ilog2 y)) as [H|H]; [exact H|exfalso].
  assert (pow2 (ilog2 y + 1) <= pow2 (ilog2 x)) by (apply pow2_le; lia). lra.
Qed.

(** rounding to the nearest integer *)

Lemma rne_comp x y : x == y -> rne x = rne y.
Proof.
  intros E. unfold rne. rewrite (Qfloor_comp _ _ E).
  assert (E2 : x - inject_Z (Qfloor y) == y - inject_Z (Qfloor y)) by (rewrite E; reflexivity).
  rewrite (Qcompare_comp _ _ E2 (1#2) (1#2) (Qeq_refl _)). reflexivity.
Qed.

Lemma rne_floor y : (Qfloor y <= rne y <= Qfloor y + 1)%Z.
Proof.
  unfold rne. destruct (Qcompare _ _); [destruct (Z.even _)| |]; lia.
Qed.

Lemma rne_inject k : rne (inject_Z k) = k.
Proof.
  unfold rne. rewrite Qfloor_Z.
  assert (E : inject_Z k - inject_Z k == 0) by ring.
  rewrite (Qcompare_comp _ _ E (1#2) (1#2) (Qeq_refl _)). reflexivity.
Qed.

Lemma rne_mono x y : x <= y -> (rne x <= rne y)%Z.
Proof.
  intros L. pose proof (Qfloor_resp_le _ _ L) as F.
  pose proof (rne_floor x) as Fx. pose proof (rne_floor y) as Fy.
  destruct (Z.eq_dec (Qfloor x) (Qfloor y)) as [E|NE]; [|lia].
  unfold rne. rewrite E.
  assert (L' : x - inject_Z (Qfloor y) <= y - inject_Z (Qfloor y)) by lra.
  destruct (Qcompare (x - inject_Z (Qfloor y)) (1#2)) eqn:Cx;
  destruct (Qcompare (y - inject_Z (Qfloor y)) (1#2)) eqn:Cy;
  try (destruct (Z.even (Qfloor y))); try lia; exfalso;
  repeat match goal with
  | H : Qcompare _ _ = Eq |- _ => apply Qeq_alt in H
  | H : Qcompare _ _ = Lt |- _ => apply Qlt_alt in H
  | H : Qcompare _ _ = Gt |- _ => apply Qgt_alt in H
  end; lra.
Qed.

Lemma rne_ge k y : inject_Z k <= y -> (k <= rne y)%Z.
Proof. intros H. rewrite <- (rne_inject k). apply rne_mono. exact H. Qed.

Lemma rne_le k y : y <= inject_Z k -> (rne y <= k)%Z.
Proof. intros H. rewrite <- (rne_inject k). apply rne_mono. exact H. Qed.

(** rounding to the binary64 grid *)

Lemma round_mag_zero x : x <= 0 -> round_mag x = 0.
Proof. intros H. unfold round_mag. apply Qle_bool_iff in H. rewrite H. reflexivity. Qed.

Lemma round_mag_pos_eq x : 0 < x ->
  round_mag x = inject_Z (rne (x / pow2 (ulp_exp x))) * pow2 (ulp_exp x).
Proof.
  intros H. unfold round_mag.
  destruct (Qle_bool x 0) eqn:E; [|reflexivity].
  apply Qle_bool_iff in E. lra.
Qed.

Lemma round_mag_nonneg x : 0 <= round_mag x.
Proof.
  destruct (Qlt_le_dec 0 x) as [H|H].
  - rewrite round_mag_pos_eq by exact H.
    apply Qmult_le_0_compat; [|apply Qlt_le_weak, pow2_pos].
    change 0 with (inject_Z 0). rewrite <- Zle_Qle. apply rne_ge.
    apply Qle_shift_div_l; [apply pow2_pos|].
    change (inject_Z 0) with 0. rewrite Qmult_0_l. lra.
  - rewrite round_mag_zero by exact H. lra.
Qed.

Lemma round_mag_comp x y : x == y -> round_mag x == round_mag y.
Proof.
  intros E. destruct (Qlt_le_dec 0 x) as [H|H].
  - assert (Hy : 0 < y) by (rewrite <- E; exact H).
    rewrite !round_mag_pos_eq by assumption.
    unfold ulp_exp. rewrite (ilog2_comp x y H E).
    set (q := Z.max _ _).
    assert (E2 : x / pow2 q == y / pow2 q) by (rewrite E; reflexivity).
    rewrite (rne_comp _ _ E2). reflexivity.
  - assert (Hy : y <= 0) by (rewrite <- E; exact H).
    rewrite !round_mag_zero by assumption. reflexivity.
Qed.

(* scaled value bounds *)
Lemma scaled_lower x : 0 < x -> (ulp_exp x <= ilog2 x)%Z ->
  pow2 (ilog2 x) <= round_mag x.
Proof.
  intros Hx Hq. rewrite round_mag_pos_eq by exact Hx.
  destruct (ilog2_spec x Hx) as [A1 A2].
  set (q := ulp_exp x) in *. set (e := ilog2 x) in *.
  assert (Hpe : pow2 e == inject_Z (2 ^ (e - q)) * pow2 q).
  { rewrite <- pow2_inject by lia. rewrite <- pow2_add. replace (e - q + q)%Z with e by lia. reflexivity. }
  rewrite Hpe. apply Qmult_le_r; [apply pow2_pos|].
  rewrite <- Zle_Qle. apply rne_ge.
  apply Qle_shift_div_l; [apply pow2_pos|]. rewrite <- Hpe. exact A1.
Qed.

Lemma scaled_upper x b : 0 < x -> (ulp_exp x <= b)%Z -> x <= pow2 b ->
  round_mag x <= pow2 b.
Proof.
  intros Hx Hq Hb. rewrite round_mag_pos_eq by exact Hx.
  set (q := ulp_exp x) in *.
  assert (Hpe : pow2 b == inject_Z (2 ^ (b - q)) * pow2 q).
  { rewrite <- pow2_inject by lia. rewrite <- pow2_add. replace (b - q + q)%Z with b by lia. reflexivity. }
  rewrite Hpe. apply Qmult_le_r; [apply pow2_pos|].
  rewrite <- Zle_Qle. apply rne_le.
  apply Qle_shift_div_r; [apply pow2_pos|]. rewrite <- Hpe. exact Hb.
Qed.

Lemma round_mag_mono x y : x <= y -> round_mag x <= round_mag y.
Proof.
  intros L. destruct (Qlt_le_dec 0 x) as [Hx|Hx].
  2:{ rewrite (round_mag_zero x) by exact Hx. apply round_mag_nonneg. }
  assert (Hy : 0 < y) by lra.
  pose proof (ilog2_mono x y Hx L) as He.
  destruct (ilog2_spec x Hx) as [A1 A2]. destruct (ilog2_spec y Hy) as [B1 B2].
  destruct (Z.eq_dec (ulp_exp x) (ulp_exp y)) as [Eq|Nq].
  - rewrite !round_mag_pos_eq by assumption. rewrite Eq.
    apply Qmult_le_r; [apply pow2_pos|]. rewrite <- Zle_Qle. apply rne_mono.
    apply Qmult_le_r; [apply Qinv_lt_0_compat, pow2_pos|]. exact L.
  - assert (Hq : (ulp_exp x < ulp_exp y)%Z) by (unfold ulp_exp in *; lia).
    assert (Hqy : (ulp_exp y = ilog2 y - 52)%Z) by (unfold ulp_exp in *; lia).
    assert (Hex : (ilog2 x < ilog2 y)%Z) by (unfold ulp_exp in *; lia).
    apply Qle_trans with (pow2 (ilog2 y)).
    + apply scaled_upper; [exact Hx| unfold ulp_exp in *; lia |].
      apply Qle_trans with (pow2 (ilog2 x + 1)); [lra|]. apply pow2_le. lia.
    + apply scaled_lower; [exact Hy|lia].
Qed.


Ltac qcompute := apply Qle_bool_iff; vm_compute; reflexivity.

Lemma Qlt_compute a b : negb (Qle_bool b a) = true -> a < b.
Proof.
  intros H. apply Qnot_le_lt. intro L. apply Qle_bool_iff in L. rewrite L in H. discriminate.
Qed.

Lemma max_float_ge : pow2 1023 <= max_float.
Proof. qcompute. Qed.

Lemma max_float_lt : max_float < pow2 1024.
Proof. apply Qlt_compute. vm_compute. reflexivity. Qed.

Lemma round_mag_max x : round_mag x < pow2 1024 -> round_mag x <= max_float.
Proof.
  intros Hr. destruct (Qlt_le_dec 0 x) as [Hx|Hx].
  2:{ rewrite round_mag_zero by exact Hx. apply Qle_trans with (pow2 1023); [apply Qlt_le_weak, pow2_pos|apply max_float_ge]. }
  destruct (ilog2_spec x Hx) as [A1 A2].
  destruct (Z_le_gt_dec 1024 (ilog2 x)) as [Hbig|Hsmall].
  - exfalso. assert (H1 : pow2 (ilog2 x) <= round_mag x) by (apply scaled_lower; [exact Hx|unfold ulp_exp; lia]).
    assert (H2 : pow2 1024 <= pow2 (ilog2 x)) by (apply pow2_le; lia). lra.
  - assert (Hq : (ulp_exp x <= 971)%Z) by (unfold ulp_exp; lia).
    assert (Hq2 : (ilog2 x + 1 <= ulp_exp x + 53)%Z) by (unfold ulp_exp; lia).
    rewrite round_mag_pos_eq in * by exact Hx.
    set (q := ulp_exp x) in *. set (k := rne (x / pow2 q)) in *.
    assert (Hk : (k <= 2 ^ 53)%Z).
    { apply rne_le. apply Qle_shift_div_r; [apply pow2_pos|].
      rewrite <- pow2_inject by lia. rewrite <- pow2_add.
      apply Qle_trans with (pow2 (ilog2 x + 1)); [lra|]. apply pow2_le. lia. }
    destruct (Z.eq_dec q 971) as [E|NE].
    + rewrite E in *. unfold max_float. apply Qmult_le_r; [apply pow2_pos|].
      rewrite <- Zle_Qle.
      assert (Hk2 : inject_Z k < inject_Z (2 ^ 53)).
      { apply Qmult_lt_r with (z := pow2 971); [apply pow2_pos|].
        rewrite <- (pow2_inject 53) by lia. rewrite <- pow2_add. exact Hr. }
      rewrite <- Zlt_Qlt in Hk2. lia.
    + apply Qle_trans with (pow2 1023); [|apply max_float_ge].
      apply Qle_trans with (inject_Z (2 ^ 53) * pow2 q).
      * apply Qmult_le_r; [apply pow2_pos|]. rewrite <- Zle_Qle. exact Hk.
      * rewrite <- pow2_inject by lia. rewrite <- pow2_add. apply pow2_le. lia.
Qed.

Lemma of_Q_cases neg x :
  (of_Q neg x = Inf neg /\ pow2 1024 <= round_mag x) \/
  (of_Q neg x = Fin neg (Qred (round_mag x)) /\ round_mag x < pow2 1024).
Proof.
  unfold of_Q. destruct (Qle_bool (pow2 1024) (round_mag x)) eqn:E.
  - left. split; [reflexivity|]. apply Qle_bool_iff. exact E.
  - right. split; [reflexivity|]. apply Qlt_compute. rewrite E. reflexivity.
Qed.

Lemma of_Q_wf neg x : wf (of_Q neg x).
Proof.
  destruct (of_Q_cases neg x) as [[E _]|[E H]]; rewrite E; simpl; [exact I|].
  rewrite Qred_correct. split; [apply round_mag_nonneg|apply round_mag_max; exact H].
Qed.

Lemma of_Q_fin neg x : round_mag x < pow2 1024 ->
  of_Q neg x = Fin neg (Qred (round_mag x)).
Proof.
  intros H. destruct (of_Q_cases neg x) as [[_ E]|[E _]]; [lra|exact E].
Qed.

Lemma of_Q_has_val x : 0 <= x -> round_mag x < pow2 1024 ->
  has_val (of_Q false x) (round_mag x).
Proof.
  intros Hx H. rewrite of_Q_fin by exact H. exists false, (Qred (round_mag x)).
  split; [reflexivity|]. rewrite Qred_correct. split; [apply round_mag_nonneg|reflexivity].
Qed.

Lemma has_val_comp x u v : u == v -> has_val x u -> has_val x v.
Proof. intros E (s & m & Hx & Hm & Hv). exists s, m. rewrite <- E. auto. Qed.

Lemma has_val_wf x : is_finite x = true -> wf x -> exists v, has_val x v.
Proof.
  destruct x as [s m| |]; simpl; try discriminate. intros _ [H _].
  exists (if s then - m else m), s, m. split; [reflexivity|]. split; [exact H|reflexivity].
Qed.

Lemma add_val x y u v : has_val x u -> has_val y v -> 0 <= u -> 0 <= v ->
  round_mag (u + v) < pow2 1024 -> has_val (add x y) (round_mag (u + v)).
Proof.
  intros (a & p & -> & Hp & Hu) (b & q & -> & Hq & Hv) Hu0 Hv0 Hr.
  unfold add, sval. set (s := (if a then - p else p) + (if b then - q else q)).
  assert (Hs : s == u + v) by (unfold s; rewrite Hu, Hv; reflexivity).
  destruct (Qeq_bool s 0) eqn:E.
  - apply Qeq_bool_iff in E. exists (a && b)%bool, 0. split; [reflexivity|]. split; [lra|].
    assert (R : round_mag (u + v) == 0).
    { rewrite (round_mag_comp (u + v) 0); [reflexivity|]. rewrite <- Hs. exact E. }
    rewrite R. destruct (a && b)%bool; reflexivity.
  - assert (Hpos : 0 <= s) by (rewrite Hs; lra).
    assert (Hb : Qle_bool 0 s = true) by (apply Qle_bool_iff; exact Hpos).
    rewrite Hb. simpl negb.
    assert (Ha : Qabs s == u + v) by (rewrite Qabs_pos by exact Hpos; exact Hs).
    apply has_val_comp with (round_mag (Qabs s)); [apply round_mag_comp; exact Ha|].
    apply of_Q_has_val; [apply Qabs_nonneg|]. rewrite (round_mag_comp _ _ Ha). exact Hr.
Qed.

Lemma div_val x c u : has_val x u -> 0 <= u -> 0 < c ->
  round_mag (u / c) < pow2 1024 -> has_val (div x (Fin false c)) (round_mag (u / c)).
Proof.
  intros (a & p & -> & Hp & Hu) Hu0 Hc Hr. unfold div.
  assert (E : Qeq_bool c 0 = false).
  { destruct (Qeq_bool c 0) eqn:E; [|reflexivity]. apply Qeq_bool_iff in E. lra. }
  rewrite E. rewrite xorb_false_r.
  destruct a.
  - assert (Hp0 : p == 0) by lra. assert (Hu1 : u == 0) by lra.
    assert (R1 : round_mag (p / c) == 0).
    { rewrite (round_mag_comp (p / c) 0); [reflexivity|]. rewrite Hp0. field. lra. }
    assert (R2 : round_mag (u / c) == 0).
    { rewrite (round_mag_comp (u / c) 0); [reflexivity|]. rewrite Hu1. field. lra. }
    rewrite of_Q_fin by (rewrite R1; apply pow2_pos).
    exists true, (Qred (round_mag (p / c))). split; [reflexivity|].
    rewrite Qred_correct. split; [apply round_mag_nonneg|]. rewrite R1, R2. reflexivity.
  - assert (Ec : p / c == u / c) by (rewrite Hu; reflexivity).
    apply has_val_comp with (round_mag (p / c)); [apply round_mag_comp; exact Ec|].
    apply of_Q_has_val.
    + apply Qle_shift_div_l; [exact Hc|]. lra.
    + rewrite (round_mag_comp _ _ Ec). exact Hr.
Qed.

Lemma opp_val x u : has_val x u -> has_val (opp x) (- u).
Proof.
  intros (a & p & -> & Hp & Hu). exists (negb a), p. split; [reflexivity|]. split; [exact Hp|].
  destruct a; simpl; rewrite <- Hu; ring.
Qed.

Lemma leb_val x y u v : has_val x u -> has_val y v -> leb x y = Qle_bool u v.
Proof.
  intros (a & p & -> & Hp & Hu) (b & q & -> & Hq & Hv). unfold leb, sval.
  apply Bool.eq_true_iff_eq. rewrite !Qle_bool_iff, Hu, Hv. reflexivity.
Qed.

Lemma leb_has_val x lo hi : wf x -> leb lo x = true -> leb x hi = true ->
  is_finite lo = true -> is_finite hi = true -> exists v, has_val x v.
Proof.
  intros W L1 L2 F1 F2. apply has_val_wf; [|exact W].
  destruct x; [reflexivity| |]; destruct lo, hi; simpl in *; try discriminate.
  destruct neg; discriminate.
Qed.


Lemma round_mag_small x B : x <= B -> round_mag B < pow2 1024 -> round_mag x < pow2 1024.
Proof. intros L H. apply Qle_lt_trans with (round_mag B); [apply round_mag_mono; exact L|exact H]. Qed.

Lemma f60_eq : f60 = Fin false 60.
Proof. vm_compute. reflexivity. Qed.

Lemma f3600_eq : f3600 = Fin false 3600.
Proof. vm_compute. reflexivity. Qed.

Lemma dms_val D M S d m s ud um us :
  round_mag (M / 60) < pow2 1024 ->
  round_mag (D + round_mag (M / 60)) < pow2 1024 ->
  round_mag (S / 3600) < pow2 1024 ->
  dms_bound D M S < pow2 1024 ->
  has_val d ud -> has_val m um -> has_val s us ->
  0 <= ud <= D -> 0 <= um <= M -> 0 <= us <= S ->
  exists w, has_val (dms d m s) w /\ 0 <= w <= dms_bound D M S.
Proof.
  intros B1 B2 B3 B4 Hd Hm Hs [Hd0 Hd1] [Hm0 Hm1] [Hs0 Hs1].
  unfold dms. rewrite f60_eq, f3600_eq.
  assert (L1 : um / 60 <= M / 60) by (apply Qmult_le_r; [reflexivity|exact Hm1]).
  assert (L3 : us / 3600 <= S / 3600) by (apply Qmult_le_r; [reflexivity|exact Hs1]).
  pose proof (round_mag_mono _ _ L1) as M1.
  pose proof (round_mag_mono _ _ L3) as M3.
  pose proof (round_mag_nonneg (um / 60)) as N1.
  pose proof (round_mag_nonneg (us / 3600)) as N3.
  assert (L2 : ud + round_mag (um / 60) <= D + round_mag (M / 60)) by lra.
  pose proof (round_mag_mono _ _ L2) as M2.
  pose proof (round_mag_nonneg (ud + round_mag (um / 60))) as N2.
  assert (L4 : round_mag (ud + round_mag (um / 60)) + round_mag (us / 3600)
               <= round_mag (D + round_mag (M / 60)) + round_mag (S / 3600)) by lra.
  pose proof (round_mag_mono _ _ L4) as M4.
  assert (V1 : has_val (div m (Fin false 60)) (round_mag (um / 60))).
  { apply div_val; [exact Hm|exact Hm0|reflexivity|]. eapply round_mag_small; eassumption. }
  assert (V2 : has_val (add d (div m (Fin false 60))) (round_mag (ud + round_mag (um / 60)))).
  { apply add_val; [exact Hd|exact V1|exact Hd0|exact N1|]. eapply round_mag_small; eassumption. }
  assert (V3 : has_val (div s (Fin false 3600)) (round_mag (us / 3600))).
  { apply div_val; [exact Hs|exact Hs0|reflexivity|]. eapply round_mag_small; eassumption. }
  eexists. split.
  - apply add_val; [exact V2|exact V3|exact N2|exact N3|]. eapply round_mag_small; [exact L4|exact B4].
  - split; [apply round_mag_nonneg|exact M4].
Qed.

Ltac qlt_compute := apply Qlt_compute; vm_compute; reflexivity.

Lemma dms_bound_lat : dms_bound 89 59 60 <= 90.
Proof. qcompute. Qed.
Lemma dms_bound_lon : dms_bound 179 59 60 <= 180.
Proof. qcompute. Qed.
Lemma dms_bound_pole_lat : dms_bound 90 0 0 <= 90.
Proof. qcompute. Qed.
Lemma dms_bound_pole_lon : dms_bound 180 0 0 <= 180.
Proof. qcompute. Qed.

(** dBuV to dBm never overflows *)
Lemma f107_eq : f107 = Fin false 107.
Proof. vm_compute. reflexivity. Qed.

Lemma sub_107_finite x : wf x -> is_finite (sub x f107) = is_finite x.
Proof.
  rewrite f107_eq. destruct x as [a p| |]; [|destruct neg; reflexivity|reflexivity].
  intros [Hp Hmax]. unfold sub, opp, add, sval. simpl negb. cbv iota.
  set (s := (if a then - p else p) + - (107)).
  destruct (Qeq_bool s 0); [reflexivity|].
  rewrite of_Q_fin; [reflexivity|].
  apply round_mag_small with (max_float + 107).
  - assert (0 <= max_float)
      by (apply Qle_trans with (pow2 1023); [apply Qlt_le_weak, pow2_pos|apply max_float_ge]).
    unfold s. apply (proj2 (Qabs_Qle_condition _ _)). destruct a; split; lra.
  - qlt_compute.
Qed.

End FloatFacts.

(** ** Text and bytes *)

Lemma str_app_nil_r s : s ++ "" = s.
Proof. induction s; simpl; congruence. Qed.

Lemma str_app_assoc a b c : (a ++ b) ++ c = a ++ (b ++ c).
Proof. induction a; simpl; congruence. Qed.

Lemma str_length_app a b : String.length (a ++ b) = (String.length a + String.length b)%nat.
Proof. induction a; simpl; auto. Qed.

Lemma is_empty_true s : is_empty s = true -> s = "".
Proof. destruct s; simpl; [reflexivity|discriminate]. Qed.

Lemma is_empty_false s : is_empty s = false -> s <> "".
Proof. destruct s; simpl; [discriminate|discriminate]. Qed.

Lemma take_drop n s : take n s ++ drop n s = s.
Proof.
  revert s. induction n as [|n IH]; intros [|c s]; simpl; try reflexivity.
  rewrite IH. reflexivity.
Qed.

Lemma take_length n s : String.length (take n s) = Nat.min n (String.length s).
Proof.
  revert s. induction n as [|n IH]; intros [|c s]; simpl; try reflexivity.
  rewrite IH. reflexivity.
Qed.

Lemma take_nonempty n s : (0 < n)%nat -> s <> "" -> take n s <> "".
Proof. destruct n, s; simpl; try lia; try congruence. Qed.

(** a prefix no longer than [p] of [p ++ rest] splits [p] *)
Lemma prefix_split a x p rest :
  a ++ x = p ++ rest -> (String.length a <= String.length p)%nat ->
  exists p', p = a ++ p' /\ x = p' ++ rest.
Proof.
  revert p. induction a as [|c a IH]; intros p E L; simpl in *.
  - exists p. auto.
  - destruct p as [|d p]; simpl in *; [lia|].
    injection E as -> E. destruct (IH p E) as (p' & -> & ->); [lia|].
    exists p'. auto.
Qed.

(** *** Reads *)

Lemma read_pending n f : pending f = fst (read n f) ++ pending (snd (read n f)).
Proof.
  induction f as [|c cs IH]; destruct n as [|n]; simpl; try reflexivity.
  destruct (is_empty c) eqn:E.
  - apply is_empty_true in E. subst c. simpl. exact IH.
  - destruct (String.length c <=? S n)%nat; simpl.
    + reflexivity.
    + rewrite <- str_app_assoc. destruct c as [|c0 c']; [discriminate|]. simpl.
      rewrite take_drop. reflexivity.
Qed.

Lemma read_length n f : (String.length (fst (read n f)) <= n)%nat.
Proof.
  induction f as [|c cs IH]; destruct n as [|n]; simpl; try lia.
  destruct (is_empty c) eqn:E; [exact IH|].
  destruct (String.length c <=? S n)%nat eqn:L; simpl.
  - apply Nat.leb_le in L. exact L.
  - destruct c as [|c0 c']; [discriminate|]. simpl. rewrite take_length. lia.
Qed.

Lemma read_nonempty n f : (0 < n)%nat -> pending f <> "" -> fst (read n f) <> "".
Proof.
  intros Hn. induction f as [|c cs IH]; destruct n as [|n]; simpl; try lia; try congruence.
  intros H. destruct (is_empty c) eqn:E.
  - apply is_empty_true in E. subst c. simpl in H. apply IH. exact H.
  - destruct (String.length c <=? S n)%nat; simpl.
    + apply is_empty_false. exact E.
    + destruct c; [discriminate|]. simpl. discriminate.
Qed.

Lemma read_zero f : read 0 f = ("", f).
Proof. destruct f; reflexivity. Qed.

(** A read of one byte gets the next byte of the stream, however the
    stream is cut into pieces. *)
Lemma read_one c r f : pending f = String c r ->
  exists f', read 1 f = (String c "", f') /\ pending f' = r.
Proof.
  intros H. pose proof (read_pending 1 f) as P. pose proof (read_length 1 f) as L.
  assert (N : fst (read 1 f) <> "") by (apply read_nonempty; [lia|congruence]).
  destruct (read 1 f) as [a f'] eqn:E. simpl in *.
  destruct a as [|a0 [|a1 a]]; simpl in L; [congruence| |lia].
  rewrite H in P. simpl in P. injection P as -> ->.
  exists f'. auto.
Qed.

(** A read that is not cut short gets the next [n] bytes. *)
Lemma read_exact n f a r : pending f = a ++ r -> String.length a = n ->
  String.length (fst (read n f)) = n ->
  exists f', read n f = (a, f') /\ pending f' = r.
Proof.
  intros H La Ln. pose proof (read_pending n f) as P.
  destruct (read n f) as [b f'] eqn:E. simpl in *.
  rewrite H in P. symmetry in P.
  destruct (prefix_split b (pending f') a r P) as (p' & Ea & Er); [lia|].
  assert (p' = "").
  { apply (f_equal String.length) in Ea. rewrite str_length_app in Ea.
    destruct p'; [reflexivity|simpl in Ea; lia]. }
  subst p'. rewrite str_app_nil_r in Ea. subst b. exists f'. auto.
Qed.

(** *** The payload loop *)


Lemma recv_data_fuel fuel1 : forall fuel2 blen data f,
  (Z.to_nat (blen - Z.of_nat (String.length data)) <= fuel1)%nat ->
  (Z.to_nat (blen - Z.of_nat (String.length data)) <= fuel2)%nat ->
  Pr100.recv_data fuel1 blen data f = Pr100.recv_data fuel2 blen data f.
Proof.
  induction fuel1 as [|fuel1 IH]; intros fuel2 blen data f H1 H2.
  - destruct fuel2 as [|fuel2]; simpl; [reflexivity|].
    destruct (Z.of_nat (String.length data) <? blen)%Z eqn:T; [|reflexivity].
    apply Z.ltb_lt in T. lia.
  - destruct fuel2 as [|fuel2]; simpl.
    + destruct (Z.of_nat (String.length data) <? blen)%Z eqn:T; [|reflexivity].
      apply Z.ltb_lt in T. lia.
    + destruct (Z.of_nat (String.length data) <? blen)%Z eqn:T; [|reflexivity].
      apply Z.ltb_lt in T.
      destruct (read _ f) as [chunk f'] eqn:R.
      destruct (is_empty chunk) eqn:E; [reflexivity|].
      apply is_empty_false in E.
      assert (0 < String.length chunk)%nat by (destruct chunk; [congruence|simpl; lia]).
      apply IH; rewrite str_length_app; lia.
Qed.

(** The function is the loop: with the fuel it is given it satisfies the
    equation of [while len(data) < blen]. *)
Lemma recv_data_unfold blen data f :
  Pr100.recv_data (Z.to_nat (blen - Z.of_nat (String.length data))) blen data f =
  if (Z.of_nat (String.length data) <? blen)%Z then
    let (chunk, f') := read (Z.to_nat (blen - Z.of_nat (String.length data))) f in
    if is_empty chunk then (Raise (RuntimeError Pr100.closed_msg), f')
    else Pr100.recv_data (Z.to_nat (blen - Z.of_nat (String.length (data ++ chunk))))
           blen (data ++ chunk) f'
  else (Ok data, f).
Proof.
  destruct (Z.of_nat (String.length data) <? blen)%Z eqn:T.
  - apply Z.ltb_lt in T.
    destruct (Z.to_nat (blen - Z.of_nat (String.length data))) as [|k] eqn:K; [lia|].
    simpl. assert (T' : (Z.of_nat (String.length data) <? blen)%Z = true) by (apply Z.ltb_lt; exact T).
    rewrite T', K. destruct (read (S k) f) as [chunk f'] eqn:R.
    destruct (is_empty chunk) eqn:E; [reflexivity|].
    apply is_empty_false in E.
    assert (0 < String.length chunk)%nat by (destruct chunk; [congruence|simpl; lia]).
    apply recv_data_fuel; rewrite str_length_app; lia.
  - apply Z.ltb_ge in T.
    replace (Z.to_nat (blen - Z.of_nat (String.length data))) with 0%nat by lia.
    reflexivity.
Qed.

Lemma recv_data_ok fuel : forall blen data f p rest,
  pending f = p ++ rest ->
  Z.of_nat (String.length data + String.length p) = blen ->
  (String.length p <= fuel)%nat ->
  exists f', Pr100.recv_data fuel blen data f = (Ok (data ++ p), f') /\ pending f' = rest.
Proof.
  induction fuel as [|fuel IH]; intros blen data f p rest P B L.
  - destruct p; [|simpl in L; lia]. simpl in *. exists f. rewrite str_app_nil_r. auto.
  - simpl. destruct (Z.of_nat (String.length data) <? blen)%Z eqn:T.
    + apply Z.ltb_lt in T.
      replace (Z.to_nat (blen - Z.of_nat (String.length data))) with (String.length p) by lia.
      assert (Hp : p <> "") by (intros ->; simpl in *; lia).
      pose proof (read_pending (String.length p) f) as RP.
      pose proof (read_length (String.length p) f) as RL.
      assert (RN : fst (read (String.length p) f) <> "").
      { apply read_nonempty; [destruct p; [congruence|simpl; lia]|].
        rewrite P. destruct p; [congruence|discriminate]. }
      destruct (read (String.length p) f) as [chunk f'] eqn:R. simpl in *.
      destruct (is_empty chunk) eqn:E; [apply is_empty_true in E; congruence|].
      rewrite P in RP. symmetry in RP.
      destruct (prefix_split chunk (pending f') p rest RP RL) as (p' & -> & Er).
      rewrite str_length_app in *.
      assert (0 < String.length chunk)%nat by (destruct chunk; [congruence|simpl; lia]).
      destruct (IH blen (data ++ chunk) f' p' rest Er) as (f'' & Hr & Hp'').
      * rewrite str_length_app. lia.
      * lia.
      * exists f''. rewrite Hr, str_app_assoc. auto.
    + apply Z.ltb_ge in T. assert (p = "") by (destruct p; [reflexivity|simpl in *; lia]).
      subst p. simpl in *. exists f. rewrite str_app_nil_r. auto.
Qed.

(** *** Predicates on all characters *)

Lemma forallb_string_app p a b :
  forallb_string p (a ++ b) = forallb_string p a && forallb_string p b.
Proof. induction a as [|c a IH]; simpl; [reflexivity|]. rewrite IH, andb_assoc. reflexivity. Qed.

Lemma forallb_string_impl (p q : ascii -> bool) s :
  (forall c, p c = true -> q c = true) ->
  forallb_string p s = true -> forallb_string q s = true.
Proof.
  intros H. induction s as [|c s IH]; simpl; [reflexivity|].
  intros E. apply andb_prop in E. destruct E as [E1 E2].
  rewrite (H c E1), (IH E2). reflexivity.
Qed.

Lemma forallb_string_take p n s :
  forallb_string p s = true -> forallb_string p (take n s) = true.
Proof.
  revert s. induction n as [|n IH]; intros [|c s]; simpl; try reflexivity.
  intros E. apply andb_prop in E. destruct E as [E1 E2]. rewrite E1, (IH s E2). reflexivity.
Qed.

Lemma forallb_string_drop p n s :
  forallb_string p s = true -> forallb_string p (drop n s) = true.
Proof.
  revert s. induction n as [|n IH]; intros [|c s]; simpl; try reflexivity; try (intros E; exact E).
  intros E. apply andb_prop in E. destruct E as [E1 E2]. apply IH. exact E2.
Qed.

Lemma forallb_string_repeat p c n : p c = true -> forallb_string p (repeat_char c n) = true.
Proof. intros H. induction n; simpl; [reflexivity|]. rewrite H, IHn. reflexivity. Qed.

Lemma length_repeat_char c n : String.length (repeat_char c n) = n.
Proof. induction n; simpl; congruence. Qed.

(** *** Decimal numerals *)

Lemma digit_char_is_digit n : is_digit (ascii_of_nat (48 + Z.to_nat (n mod 10))) = true.
Proof.
  assert (H : (0 <= n mod 10 < 10)%Z) by (apply Z.mod_pos_bound; lia).
  assert (K : (Z.to_nat (n mod 10) < 10)%nat) by lia.
  unfold is_digit. rewrite nat_ascii_embedding by lia.
  apply andb_true_intro. split; apply Nat.leb_le; lia.
Qed.

Lemma digits_fuel_digits fuel : forall n acc,
  forallb_string is_digit acc = true ->
  forallb_string is_digit (digits_of_pos_fuel fuel n acc) = true.
Proof.
  induction fuel as [|fuel IH]; intros n acc H; simpl; [exact H|].
  assert (H' : forallb_string is_digit
                 (String (ascii_of_nat (48 + Z.to_nat (n mod 10))) acc) = true)
    by (cbn [forallb_string]; rewrite digit_char_is_digit, H; reflexivity).
  destruct (n / 10 =? 0)%Z; [exact H'|apply IH; exact H'].
Qed.

Lemma digits_fuel_length fuel : forall n acc,
  (String.length acc <= String.length (digits_of_pos_fuel fuel n acc))%nat.
Proof.
  induction fuel as [|fuel IH]; intros n acc; simpl; [lia|].
  destruct (n / 10 =? 0)%Z; simpl; [lia|].
  etransitivity; [|apply IH]. simpl. lia.
Qed.

Lemma digits_fuel_bound fuel : forall j n acc,
  (1 <= j)%nat -> (0 <= n < 10 ^ Z.of_nat j)%Z ->
  (String.length (digits_of_pos_fuel fuel n acc) <= j + String.length acc)%nat.
Proof.
  induction fuel as [|fuel IH]; intros j n acc Hj Hn; simpl; [lia|].
  destruct (n / 10 =? 0)%Z eqn:E; simpl; [lia|].
  apply Z.eqb_neq in E.
  destruct j as [|[|j]]; [lia| |].
  - exfalso. apply E. apply Z.div_small. change (10 ^ Z.of_nat 1)%Z with 10%Z in Hn. lia.
  - etransitivity; [apply (IH (S j))|simpl; lia]; [lia|].
    split; [apply Z.div_pos; lia|].
    apply Z.div_lt_upper_bound; [lia|].
    replace (Z.of_nat (S (S j))) with (Z.succ (Z.of_nat (S j))) in Hn by lia.
    rewrite Z.pow_succ_r in Hn by lia. lia.
Qed.

Lemma string_of_Z_nat_digits n : forallb_string is_digit (string_of_Z_nat n) = true.
Proof. apply digits_fuel_digits. reflexivity. Qed.

Lemma string_of_Z_nat_nonempty n : string_of_Z_nat n <> "".
Proof.
  unfold string_of_Z_nat. simpl.
  set (acc := String _ "").
  assert (L : forall s, (1 <= String.length s)%nat -> s <> "") by (intros [|] ?; simpl in *; [lia|discriminate]).
  destruct (n / 10 =? 0)%Z; apply L; [simpl; lia|].
  etransitivity; [|apply digits_fuel_length]. simpl. lia.
Qed.

Lemma string_of_Z_nat_length j n : (1 <= j)%nat -> (0 <= n < 10 ^ Z.of_nat j)%Z ->
  (String.length (string_of_Z_nat n) <= j)%nat.
Proof.
  intros Hj Hn. pose proof (digits_fuel_bound (S (Z.to_nat (Z.log2 n))) j n "" Hj Hn) as H.
  simpl String.length in H at 2. unfold string_of_Z_nat. lia.
Qed.

Lemma zero_pad_digits w s : forallb_string is_digit s = true ->
  forallb_string is_digit (zero_pad w s) = true.
Proof.
  intros H. unfold zero_pad. rewrite forallb_string_app, H, forallb_string_repeat; reflexivity.
Qed.

Lemma zero_pad_length w s : (String.length s <= w)%nat -> String.length (zero_pad w s) = w.
Proof. intros H. unfold zero_pad. rewrite str_length_app, length_repeat_char. lia. Qed.

(** [format(x, ".kf")] of a finite float is a numeral with [k] decimals. *)
Lemma format_f_fixed k x : PyFloat.is_finite x = true -> fixed_numeral (S k) (format_f (S k) x).
Proof.
  destruct x as [s m| |]; try discriminate. intros _. unfold format_f.
  set (p := (10 ^ Z.of_nat (S k))%Z). set (n := PyFloat.rne _).
  exists (sign_prefix s), (string_of_Z_nat (n / p)), (zero_pad (S k) (string_of_Z_nat (n mod p))).
  split; [reflexivity|]. split; [destruct s; auto|].
  split; [apply string_of_Z_nat_nonempty|].
  split; [apply string_of_Z_nat_digits|].
  split; [apply zero_pad_digits, string_of_Z_nat_digits|].
  apply zero_pad_length. apply string_of_Z_nat_length; [lia|].
  apply Z.mod_pos_bound. subst p. apply Z.pow_pos_nonneg; lia.
Qed.

Lemma digit_not_comma c : is_digit c = true -> not_comma c = true.
Proof. destruct c as [[] [] [] [] [] [] [] []]; intros H; try discriminate H; reflexivity. Qed.

Lemma digits_no_comma s : forallb_string is_digit s = true -> no_comma s.
Proof. apply forallb_string_impl. exact digit_not_comma. Qed.

Lemma no_comma_app a b : no_comma a -> no_comma b -> no_comma (a ++ b).
Proof. unfold no_comma. intros Ha Hb. rewrite forallb_string_app, Ha, Hb. reflexivity. Qed.

Lemma no_comma_take n s : no_comma s -> no_comma (take n s).
Proof. apply forallb_string_take. Qed.

Lemma no_comma_drop n s : no_comma s -> no_comma (drop n s).
Proof. apply forallb_string_drop. Qed.

Lemma no_comma_Z n : no_comma (string_of_Z_nat n).
Proof. apply digits_no_comma, string_of_Z_nat_digits. Qed.

Lemma no_comma_zero_pad w s : no_comma s -> no_comma (zero_pad w s).
Proof. intros H. apply no_comma_app; [apply forallb_string_repeat; reflexivity|exact H]. Qed.

Lemma no_comma_sign s : no_comma (sign_prefix s).
Proof. destruct s; reflexivity. Qed.

Ltac no_comma_tac :=
  repeat first
    [ apply no_comma_app
    | apply no_comma_sign
    | apply no_comma_Z
    | apply no_comma_zero_pad
    | apply no_comma_take
    | apply no_comma_drop
    | apply forallb_string_repeat; reflexivity
    | reflexivity ].

Lemma no_comma_format_f k x : no_comma (format_f k x).
Proof.
  destruct x as [s m|s|]; unfold format_f; [|destruct s; reflexivity|reflexivity].
  destruct k; no_comma_tac.
Qed.

Lemma no_comma_float_repr x : no_comma (float_repr x).
Proof.
  destruct x as [s m|s|]; unfold float_repr; [|destruct s; reflexivity|reflexivity].
  destruct (Qle_bool m 0); [no_comma_tac|].
  destruct (shortest_digits 16 1 m (ilog10 m)) as [c0 sc0].
  destruct (drop_trailing_zeros 17 c0 sc0) as [c sc].
  set (ds := string_of_Z_nat c). assert (Hds : no_comma ds) by apply no_comma_Z.
  apply no_comma_app; [apply no_comma_sign|].
  repeat match goal with |- context [if ?b then _ else _] => destruct b end;
    no_comma_tac; exact Hds.
Qed.

Lemma float_repr_nonempty x : float_repr x <> "".
Proof.
  assert (L : forall a b, b <> "" -> a ++ b <> "") by (intros [|] b H; simpl; [exact H|discriminate]).
  assert (R : forall a b, a <> "" -> a ++ b <> "") by (intros [|] b H; simpl; [congruence|discriminate]).
  destruct x as [s m|s|]; unfold float_repr; [|destruct s; discriminate|discriminate].
  destruct (Qle_bool m 0); [apply L; discriminate|].
  destruct (shortest_digits 16 1 m (ilog10 m)) as [c0 sc0].
  destruct (drop_trailing_zeros 17 c0 sc0) as [c sc].
  apply L.
  repeat match goal with |- context [if ?b then _ else _] => destruct b end.
  - apply L, L, L. apply L. apply L. apply string_of_Z_nat_nonempty.
  - apply L, L, L, L. apply L. apply string_of_Z_nat_nonempty.
  - apply L, L, L. apply L. apply L. apply string_of_Z_nat_nonempty.
  - apply L, L, L, L. apply L. apply string_of_Z_nat_nonempty.
  - apply R. discriminate.
  - apply L, R. discriminate.
  - apply L, L. discriminate.
Qed.

Lemma no_comma_dec w n : no_comma (dec w n).
Proof. unfold dec. no_comma_tac. Qed.

Lemma no_comma_Ymd t : no_comma (strftime_Ymd t).
Proof. unfold strftime_Ymd. repeat (apply no_comma_app; [first [apply no_comma_dec | reflexivity]|]). apply no_comma_dec. Qed.

Lemma no_comma_HMS t : no_comma (strftime_HMS t).
Proof. unfold strftime_HMS. repeat (apply no_comma_app; [first [apply no_comma_dec | reflexivity]|]). apply no_comma_dec. Qed.

(** *** Splitting a line *)

Lemma split_comma_cons a rest : no_comma a ->
  split_comma (a ++ String "," rest) = a :: split_comma rest.
Proof.
  unfold no_comma. induction a as [|c a IH]; simpl; intros H; [reflexivity|].
  apply andb_prop in H. destruct H as [Hc Ha].
  unfold not_comma in Hc. apply negb_true_iff in Hc. rewrite Hc.
  rewrite (IH Ha). reflexivity.
Qed.

Lemma split_comma_last a : no_comma a -> split_comma a = [a].
Proof.
  unfold no_comma. induction a as [|c a IH]; simpl; intros H; [reflexivity|].
  apply andb_prop in H. destruct H as [Hc Ha].
  unfold not_comma in Hc. apply negb_true_iff in Hc. rewrite Hc.
  rewrite (IH Ha). reflexivity.
Qed.

(** *** Runs of digits *)

Lemma span_digits_spec s : forall d r, span_digits s = (d, r) ->
  s = d ++ r /\ forallb_string is_digit d = true /\
  match r with EmptyString => True | String c _ => is_digit c = false end.
Proof.
  induction s as [|c s IH]; simpl; intros d r E.
  - injection E as <- <-. auto.
  - destruct (is_digit c) eqn:D.
    + destruct (span_digits s) as [d' r'] eqn:S. injection E as <- <-.
      destruct (IH d' r' eq_refl) as (-> & Hd & Hr). simpl. rewrite D, Hd. auto.
    + injection E as <- <-. simpl. rewrite D. auto.
Qed.

Lemma span_digits_all a : forallb_string is_digit a = true -> span_digits a = (a, "").
Proof.
  induction a as [|c a IH]; simpl; [reflexivity|]. intros H.
  apply andb_prop in H. destruct H as [Hc Ha]. rewrite Hc, (IH Ha). reflexivity.
Qed.

Lemma span_digits_app a c r : forallb_string is_digit a = true -> is_digit c = false ->
  span_digits (a ++ String c r) = (a, String c r).
Proof.
  induction a as [|c0 a IH]; simpl; intros H Hc.
  - rewrite Hc. reflexivity.
  - apply andb_prop in H. destruct H as [H0 Ha]. rewrite H0, (IH Ha Hc). reflexivity.
Qed.

(** *** The validation pattern *)

Lemma fullmatch_numeral_spec s : fullmatch_numeral s = true <-> numeral_shaped s.
Proof.
  unfold fullmatch_numeral, numeral_shaped. split.
  - destruct (span_digits s) as [ip r] eqn:S.
    destruct (span_digits_spec s ip r S) as (-> & Hip & Hr).
    destruct ip as [|c ip]; [discriminate|]. intros H.
    exists (String c ip). split; [discriminate|]. split; [exact Hip|].
    destruct r as [|c' r'].
    + left. apply str_app_nil_r.
    + right. destruct (Ascii.eqb c' ".") eqn:Ec.
      * apply Ascii.eqb_eq in Ec. subst c'.
        destruct (span_digits r') as [fp r2] eqn:S2.
        destruct (span_digits_spec r' fp r2 S2) as (-> & Hfp & _).
        destruct fp as [|f0 fp]; [discriminate|]. destruct r2; [|discriminate].
        exists (String f0 fp). rewrite str_app_nil_r. split; [discriminate|]. auto.
      * exfalso. destruct c' as [[] [] [] [] [] [] [] []]; try discriminate H; discriminate Ec.
  - intros (ip & Hne & Hip & [->|(fp & Hfne & Hfp & ->)]).
    + rewrite (span_digits_all ip Hip). destruct ip; [congruence|reflexivity].
    + change (ip ++ "." ++ fp) with (ip ++ String "." fp).
      rewrite (span_digits_app ip "." fp Hip eq_refl).
      rewrite (span_digits_all fp Hfp).
      destruct ip; [congruence|]. destruct fp; [congruence|reflexivity].
Qed.

(** *** [float] on text *)

Lemma parse_decimal_wf neg s x : parse_decimal neg s = Some x -> PyFloat.wf x.
Proof.
  unfold parse_decimal. destruct (span_digits s) as [ip r1].
  destruct (match r1 with String "."%char r => span_digits r | _ => ("", r1) end) as [fp r2].
  destruct (ip ++ fp); [discriminate|].
  destruct (parse_exponent r2); [|discriminate].
  intros E. injection E as <-. apply of_Q_wf.
Qed.

Lemma parse_inf_nan_wf neg s x : parse_inf_nan neg s = Some x -> PyFloat.wf x.
Proof.
  unfold parse_inf_nan. destruct (_ || _); [intros E; injection E as <-; exact I|].
  destruct (String.eqb _ _); [intros E; injection E as <-; exact I|discriminate].
Qed.

Lemma py_float_wf s x : py_float s = Some x -> PyFloat.wf x.
Proof.
  unfold py_float. destruct (drop_underscores _ _) as [u|]; [|discriminate].
  destruct (split_sign u) as [neg r].
  destruct (parse_decimal neg r) as [y|] eqn:E.
  - intros H. injection H as <-. eapply parse_decimal_wf. exact E.
  - apply parse_inf_nan_wf.
Qed.

Lemma num_char_facts c : num_char c = true ->
  is_bspace c = false /\ Ascii.eqb c "_" = false.
Proof.
  destruct c as [[] [] [] [] [] [] [] []]; intros H; try discriminate H; split; reflexivity.
Qed.

Lemma lstrip_num s : forallb_string num_char s = true -> lstrip_with is_bspace s = s.
Proof.
  destruct s as [|c s]; simpl; [reflexivity|]. intros H.
  apply andb_prop in H. destruct H as [Hc _].
  destruct (num_char_facts c Hc) as [-> _]. reflexivity.
Qed.

Lemma rstrip_num s : forallb_string num_char s = true -> rstrip_with is_bspace s = s.
Proof.
  induction s as [|c s IH]; simpl; [reflexivity|]. intros H.
  apply andb_prop in H. destruct H as [Hc Hs]. rewrite (IH Hs).
  destruct (num_char_facts c Hc) as [-> _]. destruct s; reflexivity.
Qed.

Lemma drop_underscores_num s : forall prev, Ascii.eqb prev "_" = false ->
  forallb_string num_char s = true -> drop_underscores prev s = Some s.
Proof.
  induction s as [|c s IH]; simpl; intros prev P H.
  - rewrite P. reflexivity.
  - apply andb_prop in H. destruct H as [Hc Hs].
    destruct (num_char_facts c Hc) as [_ U]. rewrite U, P. simpl.
    rewrite (IH c U Hs). reflexivity.
Qed.

Lemma digits_num_char s : forallb_string is_digit s = true -> forallb_string num_char s = true.
Proof.
  apply forallb_string_impl. intros c H. unfold num_char. rewrite H. reflexivity.
Qed.

Lemma numeral_num_char n : numeral_shaped n -> forallb_string num_char n = true.
Proof.
  intros (ip & _ & Hip & [->|(fp & _ & Hfp & ->)]).
  - apply digits_num_char, Hip.
  - rewrite !forallb_string_app, (digits_num_char ip Hip), (digits_num_char fp Hfp). reflexivity.
Qed.

Lemma numeral_head n : numeral_shaped n -> exists c r, n = String c r /\ is_digit c = true.
Proof.
  intros (ip & Hne & Hip & H). destruct ip as [|c ip]; [congruence|].
  simpl in Hip. apply andb_prop in Hip. destruct Hip as [Hc _].
  destruct H as [->|(fp & _ & _ & ->)]; simpl; eauto.
Qed.

Lemma parse_decimal_numeral neg n : numeral_shaped n ->
  exists x, parse_decimal neg n = Some x.
Proof.
  intros (ip & Hne & Hip & [->|(fp & Hfne & Hfp & ->)]); unfold parse_decimal.
  - rewrite (span_digits_all ip Hip). rewrite str_app_nil_r.
    destruct ip; [congruence|]. simpl. eauto.
  - change (ip ++ "." ++ fp) with (ip ++ String "." fp).
    rewrite (span_digits_app ip "." fp Hip eq_refl), (span_digits_all fp Hfp).
    destruct ip; [congruence|]. simpl. eauto.
Qed.

Lemma split_sign_digit c r : is_digit c = true -> split_sign (String c r) = (false, String c r).
Proof. destruct c as [[] [] [] [] [] [] [] []]; intros H; try discriminate H; reflexivity. Qed.

Lemma py_float_numeral n : numeral_shaped n ->
  (exists x, py_float n = Some x) /\ (exists x, py_float (String "-" n) = Some x).
Proof.
  intros H. pose proof (numeral_num_char n H) as C.
  destruct (numeral_head n H) as (c & r & E & D).
  split; unfold py_float.
  - rewrite (lstrip_num n C), (rstrip_num n C), (drop_underscores_num n zero eq_refl C).
    rewrite E, (split_sign_digit c r D), <- E.
    destruct (parse_decimal_numeral false n H) as (x & ->). eauto.
  - assert (C' : forallb_string num_char (String "-" n) = true) by (simpl; exact C).
    rewrite (lstrip_num _ C'), (rstrip_num _ C'), (drop_underscores_num _ zero eq_refl C').
    cbn [split_sign].
    destruct (parse_decimal_numeral true n H) as (x & ->). eauto.
Qed.

(** *** The search pattern *)

Lemma match_number_shaped c s : is_digit c = true -> numeral_shaped (match_number (String c s)).
Proof.
  intros D. unfold match_number.
  destruct (span_digits (String c s)) as [ip r] eqn:S.
  destruct (span_digits_spec _ _ _ S) as (E & Hip & _).
  assert (Hne : ip <> "").
  { intros ->. simpl in S. rewrite D in S. destruct (span_digits s). discriminate. }
  destruct r as [|c' r']; [exists ip; auto|].
  destruct (Ascii.eqb c' ".") eqn:Ec.
  - apply Ascii.eqb_eq in Ec. subst c'.
    destruct (span_digits r') as [fp r2] eqn:S2. cbn [fst].
    destruct (span_digits_spec _ _ _ S2) as (_ & Hfp & _).
    destruct fp as [|f0 fp]; [exists ip; auto|].
    exists ip. split; [exact Hne|]. split; [exact Hip|]. right.
    exists (String f0 fp). split; [discriminate|]. auto.
  - assert (X : match c' with "."%char => match fst (span_digits r') with "" => ip | String _ _ as fp => ip ++ "." ++ fp end | _ => ip end = ip).
    { destruct c' as [[] [] [] [] [] [] [] []]; try reflexivity; discriminate Ec. }
    rewrite X. exists ip. auto.
Qed.

Lemma search_number_shaped s : forall g, search_number s = Some g ->
  exists n, numeral_shaped n /\ (g = n \/ g = String "-" n).
Proof.
  induction s as [|c s IH]; simpl; intros g E; [discriminate|].
  destruct (is_digit c) eqn:D.
  - injection E as <-. eexists. split; [apply match_number_shaped; exact D|auto].
  - destruct (Ascii.eqb c "-").
    + destruct s as [|d s']; [discriminate|].
      destruct (is_digit d) eqn:D2.
      * injection E as <-. eexists. split; [apply match_number_shaped; exact D2|auto].
      * apply IH. exact E.
    + apply IH. exact E.
Qed.

(** [float(m.group(1))] never raises. *)
Lemma search_number_float s g : search_number s = Some g -> exists x, py_float g = Some x.
Proof.
  intros E. destruct (search_number_shaped s g E) as (n & Hn & [->| ->]);
    apply (py_float_numeral n Hn).
Qed.

(** ** Block data *)

Section BlockReader.

Import Pr100.

Lemma digit_facts c : is_digit c = true ->
  is_bspace c = false /\ is_space c = false /\ is_ascii c = true /\
  Ascii.eqb c "_" = false /\ Ascii.eqb c "-" = false /\ Ascii.eqb c "+" = false /\
  Ascii.eqb c "," = false /\ Ascii.eqb c "." = false /\ Ascii.eqb c LF = false /\
  (0 <= digit_val c <= 9)%Z.
Proof.
  destruct c as [[] [] [] [] [] [] [] []]; intros H; try discriminate H;
    repeat split; try reflexivity; vm_compute; congruence.
Qed.

Lemma scan_int_digits ds : forall acc prev,
  forallb_string is_digit ds = true -> Ascii.eqb prev "_" = false ->
  scan_int acc prev ds = Some (digits_val_acc acc ds, "").
Proof.
  induction ds as [|c ds IH]; intros acc prev H P; simpl in *.
  - rewrite P. reflexivity.
  - apply andb_prop in H. destruct H as [Hc Hds]. rewrite Hc.
    apply IH; [exact Hds|]. apply (digit_facts c Hc).
Qed.

Lemma py_int_digits ds : ds <> "" -> forallb_string is_digit ds = true ->
  py_int ds = Some (digits_val ds).
Proof.
  intros N H. destruct ds as [|c ds]; [congruence|].
  pose proof H as H'. simpl in H'. apply andb_prop in H'. destruct H' as [Hc Hds].
  destruct (digit_facts c Hc) as (B & _ & _ & _ & M & P & _).
  unfold py_int. cbn [lstrip_with]. rewrite B.
  assert (S : split_sign (String c ds) = (false, String c ds)).
  { unfold split_sign. destruct c as [[] [] [] [] [] [] [] []]; try reflexivity; discriminate. }
  rewrite S. rewrite Hc. rewrite (scan_int_digits (String c ds) 0%Z zero H eq_refl).
  reflexivity.
Qed.

Lemma py_int_empty : py_int "" = None.
Proof. reflexivity. Qed.

Lemma digits_val_single c : digits_val (String c "") = digit_val c.
Proof. unfold digits_val. simpl. lia. Qed.

(** C2 (amended).  For a stream that is ['#'], one digit [n], [n] digits
    giving a length, then at least that many payload bytes, and whose
    length digits arrive in one read, the block reader returns exactly the
    payload and leaves exactly the bytes that follow it, however the
    payload is cut into pieces.  The stream [#211HELLOWORLD!] decodes to
    [HELLOWORLD!], which has 11 bytes. *)
Theorem C2_block_reader_amended :
  (forall (f : sock_file) (n : ascii) (digits payload rest : string),
      pending f = String "#" (String n (digits ++ payload ++ rest)) ->
      is_digit n = true ->
      digits <> "" ->
      digit_val n = Z.of_nat (String.length digits) ->
      forallb_string is_digit digits = true ->
      digits_val digits = Z.of_nat (String.length payload) ->
      header_unsplit f (String.length digits) ->
      exists f', _scpi_recv_block f = (Ok payload, f') /\ pending f' = rest)
  /\ _scpi_recv_block ["#211HELLOWORLD!"] = (Ok "HELLOWORLD!", [])
  /\ String.length "HELLOWORLD!" = 11%nat.
Proof.
  split; [|split; reflexivity].
  intros f n digits payload rest P Hn Hne Hval Hds Hlen Hun.
  unfold header_unsplit in Hun. unfold _scpi_recv_block.
  destruct (read_one _ _ _ P) as (f1 & R1 & P1). rewrite R1 in *. simpl in Hun.
  destruct (read_one _ _ _ P1) as (f2 & R2 & P2). rewrite R2 in *. simpl in Hun.
  change (negb (String.eqb "#" "#")) with false. cbv iota.
  rewrite (py_int_digits (String n ""));
    [|discriminate|simpl; rewrite Hn; reflexivity].
  rewrite digits_val_single, Hval, Nat2Z.id.
  destruct (read_exact _ _ _ _ P2 eq_refl Hun) as (f3 & R3 & P3). rewrite R3.
  rewrite (py_int_digits digits Hne Hds), Hlen, Nat2Z.id.
  destruct (recv_data_ok (String.length payload) (Z.of_nat (String.length payload)) "" f3 payload rest P3)
    as (f' & Hr & Hp); [simpl; reflexivity|lia|].
  exists f'. split; [exact Hr|exact Hp].
Qed.

(** The theorem at a block whose header and payload arrive in six
    pieces. *)
Lemma C2_witness :
  exists f', _scpi_recv_block ["#"; "2"; "11"; "HEL"; "LOWORLD!ab"; "c"] = (Ok "HELLOWORLD!", f')
             /\ pending f' = "abc".
Proof.
  apply (proj1 C2_block_reader_amended) with (n := "2"%char) (digits := "11").
  - reflexivity.
  - reflexivity.
  - discriminate.
  - reflexivity.
  - reflexivity.
  - reflexivity.
  - reflexivity.
Defined.

(** C2 as stated fails.  [#212HELLOWORLD!] announces 12 bytes and carries
    11: the reader meets the end of the stream and raises.  And when the
    two length digits of a well-framed block arrive in two pieces, the
    reader takes the first digit for the whole length. *)
Lemma C2_counterexample :
  fst (_scpi_recv_block ["#212HELLOWORLD!"]) = Raise (RuntimeError closed_msg)
  /\ fst (_scpi_recv_block ["#212HELLOWORLD!"]) <> Ok "HELLOWORLD!".
Proof. split; [reflexivity|discriminate]. Qed.

(** C10.  When the byte after ['#'] is the digit ['0'], the reader converts
    the result of a read of zero bytes to an integer: it raises
    [ValueError], not the [RuntimeError] of a reply that is not block
    data, and returns no data. *)
Theorem C10_indefinite_block_value_error :
  forall (f : sock_file) (rest : string),
    pending f = String "#" (String "0" rest) ->
    exists f', _scpi_recv_block f = (Raise ValueError, f') /\ pending f' = rest.
Proof.
  intros f rest P. unfold _scpi_recv_block.
  destruct (read_one _ _ _ P) as (f1 & R1 & P1). rewrite R1.
  destruct (read_one _ _ _ P1) as (f2 & R2 & P2). rewrite R2.
  change (negb (String.eqb "#" "#")) with false. cbv iota.
  change (py_int "0") with (Some 0%Z). cbv iota. change (Z.to_nat 0) with 0%nat.
  rewrite read_zero. change (py_int "") with (@None Z). cbv iota.
  exists f2. auto.
Qed.

(** The theorem at [#0HELLO], delivered in two pieces. *)
Lemma C10_witness :
  exists f', _scpi_recv_block ["#"; "0HELLO"] = (Raise ValueError, f') /\ pending f' = "HELLO".
Proof. apply C10_indefinite_block_value_error. reflexivity. Defined.

End BlockReader.

(** ** Sampling period *)

Lemma initial_period_default : Pr100.initial_period None = PyFloat.of_Z 5.
Proof. vm_compute. reflexivity. Qed.


Lemma initial_period_nan : PyFloat.is_nan (Pr100.initial_period (Some "nan")) = true.
Proof. vm_compute. reflexivity. Qed.




(** ** Continuous mode *)

Section Continuous.

Import Pr100.



(** The capture never fails on its own account: it fails only if drawing
    the fall-back card does. *)
Lemma guardar_captura_ok conn pillow m :
  exists a, guardar_captura_real_o_fallback conn pillow (Ok tt) m = Ok a.
Proof.
  unfold guardar_captura_real_o_fallback.
  destruct (_fetch_png_via_scpi conn); [destruct pillow|]; simpl; eauto.
Qed.




(** *** The columns of a sample line *)

Lemma no_comma_az_txt az : no_comma (az_txt az).
Proof.
  destruct az as [a|]; simpl; [|reflexivity].
  destruct (PyFloat.is_finite a); [apply no_comma_format_f|reflexivity].
Qed.

Lemma no_comma_coord_txt c : no_comma (coord_txt c).
Proof.
  destruct c as [x|]; simpl; [|reflexivity].
  destruct (PyFloat.is_finite x); [apply no_comma_format_f|reflexivity].
Qed.

Lemma sample_line_columns t dbm az lat lon :
  split_comma (sample_line t dbm az lat lon) =
  [strftime_Ymd t; strftime_HMS t; float_repr dbm; az_txt az; coord_txt lat;
   coord_txt lon ++ String LF ""].
Proof.
  unfold sample_line.
  change ("," ++ ?x) with (String "," x).
  rewrite split_comma_cons by apply no_comma_Ymd.
  change ("," ++ ?x) with (String "," x).
  rewrite split_comma_cons by apply no_comma_HMS.
  change ("," ++ ?x) with (String "," x).
  rewrite split_comma_cons by apply no_comma_float_repr.
  change ("," ++ ?x) with (String "," x).
  rewrite split_comma_cons by apply no_comma_az_txt.
  change ("," ++ ?x) with (String "," x).
  rewrite split_comma_cons by apply no_comma_coord_txt.
  rewrite split_comma_last; [reflexivity|].
  apply no_comma_app; [apply no_comma_coord_txt|reflexivity].
Qed.

(** C6 (amended).  Every sample line has the same six columns: date,
    time, power, bearing, latitude, longitude.  The power is never empty
    and is [nan] without a reading.  The bearing is a numeral with one
    decimal when the reading is finite, and the token [no directivo] when
    it is absent or not finite. *)
Theorem C6_sample_line_columns_amended :
  forall (t : datetime) (dbm : float) (az lat lon : option float),
    split_comma (sample_line t dbm az lat lon) =
      [strftime_Ymd t; strftime_HMS t; float_repr dbm; az_txt az; coord_txt lat;
       coord_txt lon ++ String LF ""]
    /\ float_repr dbm <> ""
    /\ float_repr PyFloat.NaN = "nan"
    /\ (forall e, reading_dbuv e = None -> float_repr (reading_dbm e) = "nan")
    /\ (forall a, az = Some a -> PyFloat.is_finite a = true ->
                  az_txt az = format_f 1 a /\ fixed_numeral 1 (az_txt az))
    /\ (az = None -> az_txt az = "no directivo")
    /\ (forall a, az = Some a -> PyFloat.is_finite a = false ->
                  az_txt az = "no directivo").
Proof.
  intros t dbm az lat lon.
  split; [apply sample_line_columns|].
  split; [apply float_repr_nonempty|].
  split; [reflexivity|].
  split; [intros e H; unfold reading_dbm; rewrite H; reflexivity|].
  split; [|split].
  - intros a -> F. simpl. rewrite F. split; [reflexivity|apply format_f_fixed; exact F].
  - intros ->. reflexivity.
  - intros a -> F. simpl. rewrite F. reflexivity.
Qed.

(** The theorem at a bearing of 123.45 degrees. *)
Lemma C6_witness :
  az_txt (Some (PyFloat.of_decimal false 12345 (-2))) = "123.5" /\
  fixed_numeral 1 (az_txt (Some (PyFloat.of_decimal false 12345 (-2)))).
Proof.
  apply (proj1 (proj2 (proj2 (proj2 (proj2
           (C6_sample_line_columns_amended t0 PyFloat.NaN
              (Some (PyFloat.of_decimal false 12345 (-2))) None None)))))
           (PyFloat.of_decimal false 12345 (-2)) eq_refl eq_refl).
Defined.

(** C6 as stated fails: the token written for an absent bearing is
    [no directivo], not [non-directive]. *)
Lemma C6_counterexample :
  az_txt None = "no directivo" /\ az_txt None <> "non-directive" /\
  nth 3 (split_comma (sample_line t0 PyFloat.NaN None None None)) "" = "no directivo".
Proof. split; [reflexivity|split; [discriminate|reflexivity]]. Qed.

End Continuous.

(** ** Sweep mode *)

Section Sweep.

Import Medicion360.

Lemma extraer_primer_float_wf s x : extraer_primer_float s = Some x -> PyFloat.wf x.
Proof.
  unfold extraer_primer_float. destruct (is_empty s); [discriminate|].
  destruct (search_number s); [apply py_float_wf|discriminate].
Qed.

(** The converted level is finite exactly when the reading is. *)
Lemma dbm_finite dbuv : PyFloat.wf dbuv ->
  PyFloat.is_finite (dbuv_to_dbm dbuv) = PyFloat.is_finite dbuv.
Proof. apply sub_107_finite. Qed.

(** C5 (amended).  A round of the sweep that passes the loop test appends
    one line exactly when the bearing and the level both parse to finite
    numbers and the append succeeds, and nothing otherwise.  The line is
    the bearing with one decimal, a comma, and the level minus 107.0 with
    two decimals. *)
Theorem C5_sweep_round_amended :
  forall (e : cycle_env) (st : state),
    enters e st ->
    cycle e st =
      (mk_state false (fold_left (fun f l => append l f) (cycle_lines e)
                                 (log_at_append e st)), Continue)
    /\ ((exists l, cycle_lines e = [l]) <->
        (exists az dbuv,
            reading_az e = Some az /\ reading_dbuv e = Some dbuv /\
            PyFloat.is_finite az = true /\ PyFloat.is_finite dbuv = true /\
            append_ok e = true))
    /\ (forall l, In l (cycle_lines e) ->
        exists az dbuv,
          reading_az e = Some az /\ reading_dbuv e = Some dbuv /\
          l = format_f 1 az ++ "," ++ format_f 2 (PyFloat.sub dbuv f107) ++ String LF "" /\
          fixed_numeral 1 (format_f 1 az) /\
          fixed_numeral 2 (format_f 2 (PyFloat.sub dbuv f107)))
    /\ ((forall l, cycle_lines e <> [l]) -> cycle_lines e = []).
Proof.
  intros e st (Hs & Hg & Hx). split.
  { unfold cycle. rewrite Hs, Hg, Hx. reflexivity. }
  unfold cycle_lines, reading_dbm.
  destruct (reading_az e) as [az|] eqn:Eaz;
  destruct (reading_dbuv e) as [dbuv|] eqn:Edb.
  2-4: (split; [split; [intros (l & H); discriminate H
                       |intros (a & d & H1 & H2 & _); discriminate]|];
        split; [intros l []|reflexivity]).
  pose proof (extraer_primer_float_wf _ _ Edb) as W.
  rewrite (dbm_finite dbuv W).
  destruct (PyFloat.is_finite az) eqn:Faz; destruct (PyFloat.is_finite dbuv) eqn:Fdb;
    destruct (append_ok e) eqn:Ok; cbn [andb].
  2-8: (split; [split; [intros (l & H); discriminate H
                       |intros (a & d & H1 & H2 & H3 & H4 & H5);
                        injection H1 as <-; injection H2 as <-; congruence]|];
        split; [intros l []|reflexivity]).
  split; [split; [intros _; exists az, dbuv; auto|intros _; eexists; reflexivity]|].
  split.
  - intros l [<-|[]]. exists az, dbuv. repeat split.
    + apply format_f_fixed. exact Faz.
    + apply format_f_fixed.
      pose proof (dbm_finite dbuv W) as D. unfold dbuv_to_dbm in D.
      rewrite Fdb in D. exact D.
  - intros H. exfalso. eapply H. reflexivity.
Qed.

(** The theorem at a level of 50 dBuV and a bearing of 10 degrees. *)
Lemma C5_witness :
  cycle (good_round true) st0 =
    (mk_state false (Some "10.0,-57.00
"), Continue).
Proof.
  apply (proj1 (C5_sweep_round_amended (good_round true) st0
                  (conj eq_refl (conj eq_refl eq_refl)))).
Defined.

(** C5 as stated fails: with both readings finite, a failing append is
    caught and nothing is written. *)
Lemma C5_counterexample :
  enters (good_round false) st0 /\
  (exists az dbuv,
      reading_az (good_round false) = Some az /\
      reading_dbuv (good_round false) = Some dbuv /\
      PyFloat.is_finite az = true /\ PyFloat.is_finite dbuv = true) /\
  cycle_lines (good_round false) = [] /\
  file (fst (cycle (good_round false) st0)) = file st0.
Proof.
  split; [repeat split|]. split; [|split; reflexivity].
  eexists. eexists. split; [vm_compute; reflexivity|].
  split; [vm_compute; reflexivity|]. split; reflexivity.
Qed.

(** A round with a bearing and no level appends nothing. *)
Lemma bearing_only_appends_nothing : cycle_lines bearing_only = [].
Proof. reflexivity. Qed.

(** *** Removal of the log *)

(** A removal found by the existence test of a round of the sweep ends
    the loop. *)
Lemma sweep_removed_before_breaks e st :
  removed_before e = true -> snd (cycle e st) = Break.
Proof.
  intros H. unfold cycle. rewrite H. cbn [remove_if exists_ negb].
  destruct (stop_ev st || signal e); reflexivity.
Qed.

(** C4 (the code departs from it).  When the log is removed during the
    wait for a position, the wait ends, the header write creates the log
    again and the sweep runs as from a fresh log with an empty header: with
    one good round after the removal, the loop is still running and has
    appended a line. *)
Theorem C4_removal_during_wait_does_not_stop :
  (forall (p : poll_env) (ps : list poll_env) (envs : list cycle_env),
      p_signal p = false -> p_removed_before p = true ->
      main (p :: ps) true envs =
        Some (sweep_loop envs (mk_state false (Some (String LF ""))))) /\
  main [removed_poll] true [good_round true] =
    Some (mk_state false (Some "
10.0,-57.00
"), Running).
Proof.
  split; [|reflexivity].
  intros p ps envs Hs Hr. unfold main. cbn [wait_fix stop_ev file orb].
  rewrite Hs, Hr. reflexivity.
Qed.

(** The theorem at a wait of two rounds. *)
Lemma C4_witness :
  main [removed_poll; removed_poll] true [] =
    Some (sweep_loop [] (mk_state false (Some (String LF "")))).
Proof.
  apply (proj1 C4_removal_during_wait_does_not_stop); reflexivity.
Defined.

End Sweep.

(** ** Continuous mode: removal of the log *)

Lemma continuous_removed_before_breaks e st :
  Pr100.removed_before e = true -> snd (Pr100.cycle e st) = Pr100.Break.
Proof.
  intros H. unfold Pr100.cycle. rewrite H. cbn [Pr100.remove_if exists_ negb].
  destruct (Pr100.stop_ev st || Pr100.signal e); reflexivity.
Qed.

(** A removal between the existence test and the append is undone by the
    append, which creates the file again. *)
Lemma continuous_removed_during_recreates e st :
  Pr100.enters e st -> Pr100.removed_during e = true -> Pr100.append_ok e = true ->
  exists_ (Pr100.file (fst (Pr100.cycle e st))) = true.
Proof.
  intros (Hs & Hg & Hx) Hr Ha. unfold Pr100.cycle. rewrite Hs, Hg, Hx, Hr, Ha.
  cbn [orb negb Pr100.remove_if append].
  destruct (Pr100.reading_gps e) as [lat lon].
  destruct (Pr100.guardar_captura_real_o_fallback _ _ _ _); [|reflexivity].
  destruct (Pr100.save_frame_img _ _); reflexivity.
Qed.

(** ** Frequency change *)

Section Frequency.

Import Cambiar_freq.

(** Validation comes first: a text that is not numeral-shaped raises
    [ValueError] with nothing done to the outside, every other text goes
    to the instrument. *)
Lemma enviar_validation freq_mhz e :
  (~ numeral_shaped (normalize freq_mhz) ->
   enviar_comando_frecuencia freq_mhz e = (Raise ValueError, [])) /\
  (numeral_shaped (normalize freq_mhz) ->
   exists r rest, enviar_comando_frecuencia freq_mhz e = (r, Connect :: rest)).
Proof.
  unfold enviar_comando_frecuencia. split; intros H.
  - destruct (fullmatch_numeral (normalize freq_mhz)) eqn:E; [|reflexivity].
    exfalso. apply H. apply fullmatch_numeral_spec. exact E.
  - apply fullmatch_numeral_spec in H. rewrite H. cbn [negb].
    destruct (connect e); [destruct (echo e)|]; eauto.
Qed.

(** With an echo line, and with a closed connection, the function returns
    as documented. *)
Lemma enviar_echo_or_ok freq_mhz e line :
  numeral_shaped (normalize freq_mhz) -> connect e = Ok tt -> echo e = Ok line ->
  fst (enviar_comando_frecuencia freq_mhz e) =
    Ok (if is_empty (strip (decode_ignore line)) then "OK"
        else strip (decode_ignore line)).
Proof.
  intros H C E. apply fullmatch_numeral_spec in H.
  unfold enviar_comando_frecuencia. rewrite H, C, E. reflexivity.
Qed.

(** C9 (the code departs from it).  For the valid input ["433.92"] and an
    instrument that accepts the connection and sends nothing, the read of
    the echo times out and the exception leaves the function: it does not
    return ["OK"].  It returns ["OK"] when the instrument closes the
    connection without a reply. *)
Theorem C9_silent_instrument_raises :
  enviar_comando_frecuencia (Some "433.92") silent =
    (Raise TimeoutError,
     [Connect; Write "*CLS
"; Write "FREQ 433.92MHz
"; Write "FREQ?
"; Readline])
  /\ fst (enviar_comando_frecuencia (Some "433.92") silent) <> Ok "OK"
  /\ fst (enviar_comando_frecuencia (Some "433.92") closed) = Ok "OK".
Proof. split; [reflexivity|split; [discriminate|reflexivity]]. Qed.

End Frequency.

(** ** Position records *)

Lemma find_index_none test l : forall start,
  (forall p, In p l -> test p = false) -> find_index test l start = None.
Proof.
  induction l as [|p l IH]; intros start H; simpl; [reflexivity|].
  rewrite (H p) by (left; reflexivity). apply IH. intros q Hq. apply H. right. exact Hq.
Qed.

Lemma find_index_some test l : forall start i,
  (start <= i)%nat ->
  (exists p, nth_error l (i - start) = Some p /\ test p = true) ->
  (forall j q, (j < i - start)%nat -> nth_error l j = Some q -> test q = false) ->
  find_index test l start = Some i.
Proof.
  induction l as [|p l IH]; intros start i Hle (q & Hq & Tq) Hbefore.
  - destruct (i - start)%nat; discriminate.
  - simpl. destruct (Nat.eq_dec i start) as [->|Hne].
    + rewrite Nat.sub_diag in Hq. simpl in Hq. injection Hq as ->. rewrite Tq. reflexivity.
    + assert (E : (i - start = S (i - S start))%nat) by lia.
      rewrite (Hbefore 0%nat p); [|lia|reflexivity].
      apply IH; [lia| |].
      * exists q. rewrite E in Hq. simpl in Hq. auto.
      * intros j r Hj Hr. apply (Hbefore (S j) r); [lia|exact Hr].
Qed.

Lemma first_at_find test parts from i : first_at test parts from i ->
  find_index test (skipn from parts) from = Some i.
Proof.
  intros (Hle & (p & Hp & Tp) & Hbefore). apply find_index_some; [exact Hle| |].
  - exists p. rewrite nth_error_skipn. replace (from + (i - from))%nat with i by lia. auto.
  - intros j q Hj Hq. rewrite nth_error_skipn in Hq. apply (Hbefore (from + j)%nat q); [lia|exact Hq].
Qed.

Lemma no_marker_after test parts from :
  (forall j p, (from <= j)%nat -> nth_error parts j = Some p -> test p = false) ->
  find_index test (skipn from parts) from = None.
Proof.
  intros H. apply find_index_none. intros p Hp.
  destruct (In_nth_error _ _ Hp) as (k & Hk). rewrite nth_error_skipn in Hk.
  apply (H (from + k)%nat p); [lia|exact Hk].
Qed.

Lemma float_at_length parts n x : float_at parts n = Some x -> (n < List.length parts)%nat.
Proof.
  unfold float_at. destruct (nth_error parts n) eqn:E; [|discriminate].
  intros _. apply nth_error_Some. congruence.
Qed.

Lemma float_at_wf parts n x : float_at parts n = Some x -> PyFloat.wf x.
Proof.
  unfold float_at. destruct (nth_error parts n); [apply py_float_wf|discriminate].
Qed.

Lemma parse_gps_same : Medicion360.parse_gps_data = Pr100.parse_gps_data.
Proof. reflexivity. Qed.

Lemma parse_gps_never_partial s :
  fst (Pr100.parse_gps_data s) = None <-> snd (Pr100.parse_gps_data s) = None.
Proof.
  unfold Pr100.parse_gps_data.
  repeat match goal with
         | |- context [match ?x with _ => _ end] => destruct x
         end; simpl; split; intros; congruence.
Qed.

Section Never_partial.

Variable s : string.
Let parts := map strip (split_comma s).

Lemma parse_gps_no_NS :
  (forall p, In p parts -> is_NS p = false) -> Pr100.parse_gps_data s = (None, None).
Proof.
  intros H. unfold Pr100.parse_gps_data. destruct (is_empty s); [reflexivity|].
  fold parts. rewrite (find_index_none is_NS parts 0%nat H). reflexivity.
Qed.

Lemma parse_gps_no_EW i :
  first_at is_NS parts 0 i ->
  (forall j p, (i + 4 <= j)%nat -> nth_error parts j = Some p -> is_EW p = false) ->
  Pr100.parse_gps_data s = (None, None).
Proof.
  intros F H. unfold Pr100.parse_gps_data. destruct (is_empty s); [reflexivity|].
  fold parts. pose proof (first_at_find _ _ _ _ F) as E. simpl skipn in E. rewrite E.
  rewrite (no_marker_after is_EW parts (i + 4) H).
  repeat match goal with
         | |- context [match ?x with _ => _ end] => destruct x
         end; reflexivity.
Qed.

Lemma parse_gps_bad_lat i k :
  first_at is_NS parts 0 i -> (1 <= k <= 3)%nat -> float_at parts (i + k) = None ->
  Pr100.parse_gps_data s = (None, None).
Proof.
  intros F Hk H. unfold Pr100.parse_gps_data. destruct (is_empty s); [reflexivity|].
  fold parts. pose proof (first_at_find _ _ _ _ F) as E. simpl skipn in E. rewrite E.
  destruct (List.length parts <=? i + 3)%nat; [reflexivity|].
  assert (K : (k = 1 \/ k = 2 \/ k = 3)%nat) by lia.
  destruct K as [->|[->| ->]]; rewrite H;
    repeat match goal with
           | |- context [match ?x with _ => _ end] => destruct x
           end; reflexivity.
Qed.

Lemma parse_gps_bad_lon i j k :
  first_at is_NS parts 0 i -> first_at is_EW parts (i + 4) j ->
  (1 <= k <= 3)%nat -> float_at parts (j + k) = None ->
  Pr100.parse_gps_data s = (None, None).
Proof.
  intros F G Hk H. unfold Pr100.parse_gps_data. destruct (is_empty s); [reflexivity|].
  fold parts. pose proof (first_at_find _ _ _ _ F) as E. simpl skipn in E. rewrite E.
  rewrite (first_at_find _ _ _ _ G).
  destruct (List.length parts <=? i + 3)%nat; [reflexivity|].
  destruct (float_at parts (i + 1)); [|reflexivity].
  destruct (float_at parts (i + 2)); [|reflexivity].
  destruct (float_at parts (i + 3)); [|reflexivity].
  destruct (List.length parts <=? j + 3)%nat; [reflexivity|].
  assert (K : (k = 1 \/ k = 2 \/ k = 3)%nat) by lia.
  destruct K as [->|[->| ->]]; rewrite H;
    repeat match goal with
           | |- context [match ?x with _ => _ end] => destruct x
           end; reflexivity.
Qed.

End Never_partial.

Section Ranges.

Import PyFloat.
Local Open Scope Q_scope.

(** The value of a finite float between two others. *)
Lemma between_val x lo hi :
  wf x -> leb (Fin false lo) x = true -> leb x (Fin false hi) = true ->
  exists v, has_val x v /\ lo <= v <= hi.
Proof.
  destruct x as [a p|[]|]; simpl; try discriminate. intros [Hp _] L H.
  exists (sval a p). split.
  - exists a, p. unfold sval. split; [reflexivity|]. split; [exact Hp|reflexivity].
  - unfold sval in *. split; apply Qle_bool_iff; assumption.
Qed.

Lemma below_val x lo hi :
  wf x -> leb (Fin false lo) x = true -> ltb x (Fin false hi) = true ->
  exists v, has_val x v /\ lo <= v <= hi.
Proof.
  destruct x as [a p|[]|]; simpl; try discriminate. intros [Hp _] L H.
  exists (sval a p). split.
  - exists a, p. unfold sval. split; [reflexivity|]. split; [exact Hp|reflexivity].
  - unfold sval in *. split; [apply Qle_bool_iff; assumption|].
    apply negb_true_iff in H. apply Qlt_le_weak, Qnot_le_lt. intros C.
    apply Qle_bool_iff in C. congruence.
Qed.

Lemma dms_in_range (D L : Q) d m s :
  dms_small D 59 60 -> dms_small L 0 0 ->
  dms_bound D 59 60 <= L -> dms_bound L 0 0 <= L ->
  wf d -> wf m -> wf s ->
  (leb (Fin false 0) d = true /\ leb d (Fin false D) = true /\
   leb (Fin false 0) m = true /\ leb m (Fin false 59) = true /\
   leb (Fin false 0) s = true /\ ltb s (Fin false 60) = true)
  \/
  (leb (Fin false L) d = true /\ leb d (Fin false L) = true /\
   leb (Fin false 0) m = true /\ leb m (Fin false 0) = true /\
   leb (Fin false 0) s = true /\ leb s (Fin false 0) = true) ->
  exists w, has_val (dms d m s) w /\ 0 <= w <= L.
Proof.
  intros (A1 & A2 & A3 & A4) (P1 & P2 & P3 & P4) B1 B2 Wd Wm Ws
         [(D0 & D1 & M0 & M1 & S0 & S1)|(D0 & D1 & M0 & M1 & S0 & S1)].
  - destruct (between_val d _ _ Wd D0 D1) as (ud & Vd & Bd).
    destruct (between_val m _ _ Wm M0 M1) as (um & Vm & Bm).
    destruct (below_val s _ _ Ws S0 S1) as (us & Vs & Bs).
    destruct (dms_val D 59 60 d m s ud um us A1 A2 A3 A4 Vd Vm Vs Bd Bm Bs)
      as (w & Vw & Bw).
    exists w. split; [exact Vw|]. lra.
  - destruct (between_val d _ _ Wd D0 D1) as (ud & Vd & Bd).
    destruct (between_val m _ _ Wm M0 M1) as (um & Vm & Bm).
    destruct (between_val s _ _ Ws S0 S1) as (us & Vs & Bs).
    assert (Bd' : 0 <= ud <= L).
    { split; [|lra]. destruct Vd as (a & p & _ & Hp & Hv).
      destruct Vm as (_ & _ & _ & _ & _).
      apply Qle_trans with L; [|lra].
      apply Qle_trans with (dms_bound L 0 0); [apply round_mag_nonneg|exact B2]. }
    destruct (dms_val L 0 0 d m s ud um us P1 P2 P3 P4 Vd Vm Vs Bd' Bm Bs)
      as (w & Vw & Bw).
    exists w. split; [exact Vw|]. lra.
Qed.

Ltac small_tac := repeat split; apply Qlt_compute; vm_compute; reflexivity.

Lemma lat_in_range d m s : wf d -> wf m -> wf s -> valid_dms 90 d m s ->
  exists w, has_val (dms d m s) w /\ 0 <= w <= 90.
Proof.
  intros Wd Wm Ws V. apply (dms_in_range 89 90); auto.
  - small_tac.
  - small_tac.
  - apply dms_bound_lat.
  - apply dms_bound_pole_lat.
Qed.

Lemma lon_in_range d m s : wf d -> wf m -> wf s -> valid_dms 180 d m s ->
  exists w, has_val (dms d m s) w /\ 0 <= w <= 180.
Proof.
  intros Wd Wm Ws V. apply (dms_in_range 179 180); auto.
  - small_tac.
  - small_tac.
  - apply dms_bound_lon.
  - apply dms_bound_pole_lon.
Qed.

(** After the hemisphere adjustment the coordinate is within [-L, L]. *)
Lemma hemisphere_range (L : Z) (flip : bool) x w :
  (0 <= L <= 1000)%Z ->
  of_Z (- L) = Fin true (inject_Z L) -> of_Z L = Fin false (inject_Z L) ->
  has_val x w -> 0 <= w <= inject_Z L ->
  leb (of_Z (- L)) (if flip then opp x else x) = true /\
  leb (if flip then opp x else x) (of_Z L) = true.
Proof.
  intros HL E1 E2 V B. rewrite E1, E2.
  assert (VL : has_val (Fin false (inject_Z L)) (inject_Z L)).
  { exists false, (inject_Z L). split; [reflexivity|]. split; [|reflexivity].
    change 0 with (inject_Z 0). rewrite <- Zle_Qle. lia. }
  assert (VN : has_val (Fin true (inject_Z L)) (- inject_Z L)).
  { exists true, (inject_Z L). split; [reflexivity|]. split; [|reflexivity].
    change 0 with (inject_Z 0). rewrite <- Zle_Qle. lia. }
  destruct flip.
  - pose proof (opp_val x w V) as V'.
    rewrite (leb_val _ _ _ _ VN V'), (leb_val _ _ _ _ V' VL).
    split; apply Qle_bool_iff; lra.
  - rewrite (leb_val _ _ _ _ VN V), (leb_val _ _ _ _ V VL).
    split; apply Qle_bool_iff; lra.
Qed.

End Ranges.

Lemma first_at_nonempty test s i :
  test "" = false -> first_at test (map strip (split_comma s)) 0 i -> is_empty s = false.
Proof.
  intros T (_ & (p & Hp & Tp) & _). destruct s; [|reflexivity]. exfalso.
  simpl in Hp. destruct i as [|i]; simpl in Hp; [|destruct i; discriminate].
  injection Hp as <-. change (strip "") with "" in Tp. congruence.
Qed.

Lemma parse_gps_value s i j lat_d lat_m lat_s lon_d lon_m lon_s :
  let parts := map strip (split_comma s) in
  first_at is_NS parts 0 i ->
  float_at parts (i + 1) = Some lat_d -> float_at parts (i + 2) = Some lat_m ->
  float_at parts (i + 3) = Some lat_s ->
  first_at is_EW parts (i + 4) j ->
  float_at parts (j + 1) = Some lon_d -> float_at parts (j + 2) = Some lon_m ->
  float_at parts (j + 3) = Some lon_s ->
  Pr100.parse_gps_data s =
    (Some (if String.eqb (nth i parts "") "S" then PyFloat.opp (dms lat_d lat_m lat_s)
           else dms lat_d lat_m lat_s),
     Some (if String.eqb (nth j parts "") "W" then PyFloat.opp (dms lon_d lon_m lon_s)
           else dms lon_d lon_m lon_s)).
Proof.
  intros parts F A1 A2 A3 G B1 B2 B3.
  unfold Pr100.parse_gps_data. rewrite (first_at_nonempty is_NS s i eq_refl F).
  fold parts. pose proof (first_at_find _ _ _ _ F) as E. simpl skipn in E. rewrite E.
  rewrite (first_at_find _ _ _ _ G).
  pose proof (float_at_length _ _ _ A3) as L1. pose proof (float_at_length _ _ _ B3) as L2.
  assert (X1 : (List.length parts <=? i + 3)%nat = false) by (apply Nat.leb_gt; exact L1).
  assert (X2 : (List.length parts <=? j + 3)%nat = false) by (apply Nat.leb_gt; exact L2).
  rewrite X1, X2, A1, A2, A3, B1, B2, B3. reflexivity.
Qed.

(** C8 (amended).  [parse_gps_data], in both scripts, returns
    [(None, None)] when no field is [N] or [S], when no field from the
    fourth after the first [N]/[S] on is [E] or [W], and when one of the
    three fields after either marker is missing or is refused by [float];
    it never returns one coordinate without the other.  When both markers
    are there and [float] accepts the six fields, the result is a pair of
    floats, whatever the fields are. *)
Theorem C8_parse_gps_all_or_nothing_amended :
  forall parse : string -> option float * option float,
    parse = Pr100.parse_gps_data \/ parse = Medicion360.parse_gps_data ->
    forall s : string,
      let parts := map strip (split_comma s) in
      ((forall p, In p parts -> is_NS p = false) -> parse s = (None, None)) /\
      (forall i, first_at is_NS parts 0 i ->
                 (forall j p, (i + 4 <= j)%nat -> nth_error parts j = Some p ->
                              is_EW p = false) ->
                 parse s = (None, None)) /\
      (forall i k, first_at is_NS parts 0 i -> (1 <= k <= 3)%nat ->
                   float_at parts (i + k) = None -> parse s = (None, None)) /\
      (forall i j k, first_at is_NS parts 0 i -> first_at is_EW parts (i + 4) j ->
                     (1 <= k <= 3)%nat -> float_at parts (j + k) = None ->
                     parse s = (None, None)) /\
      (fst (parse s) = None <-> snd (parse s) = None) /\
      (forall i j, first_at is_NS parts 0 i -> first_at is_EW parts (i + 4) j ->
                   (forall k, (1 <= k <= 3)%nat ->
                      float_at parts (i + k) <> None /\ float_at parts (j + k) <> None) ->
                   exists lat lon, parse s = (Some lat, Some lon)).
Proof.
  intros parse Hp s parts.
  assert (E : parse = Pr100.parse_gps_data) by (destruct Hp as [->| ->]; reflexivity).
  subst parse. subst parts.
  split; [apply parse_gps_no_NS|].
  split; [apply parse_gps_no_EW|].
  split; [apply parse_gps_bad_lat|].
  split; [apply parse_gps_bad_lon|].
  split; [apply parse_gps_never_partial|].
  intros i j F G A.
  destruct (A 1%nat) as [A1 B1]; [lia|]. destruct (A 2%nat) as [A2 B2]; [lia|].
  destruct (A 3%nat) as [A3 B3]; [lia|].
  destruct (float_at (map strip (split_comma s)) (i + 1)) as [lat_d|] eqn:E1; [|congruence].
  destruct (float_at (map strip (split_comma s)) (i + 2)) as [lat_m|] eqn:E2; [|congruence].
  destruct (float_at (map strip (split_comma s)) (i + 3)) as [lat_s|] eqn:E3; [|congruence].
  destruct (float_at (map strip (split_comma s)) (j + 1)) as [lon_d|] eqn:E4; [|congruence].
  destruct (float_at (map strip (split_comma s)) (j + 2)) as [lon_m|] eqn:E5; [|congruence].
  destruct (float_at (map strip (split_comma s)) (j + 3)) as [lon_s|] eqn:E6; [|congruence].
  rewrite (parse_gps_value s i j _ _ _ _ _ _ F E1 E2 E3 G E4 E5 E6). eauto.
Qed.

(** The theorem at a reply whose seconds of latitude are not a number. *)
Lemma C8_witness :
  Medicion360.parse_gps_data "GPS,1,N,48,7,x,E,11,36,47.42" = (None, None).
Proof.
  apply (proj1 (proj2 (proj2 (C8_parse_gps_all_or_nothing_amended
           Medicion360.parse_gps_data
           (or_intror eq_refl) "GPS,1,N,48,7,x,E,11,36,47.42"))) 2 3)%nat.
  - split; [lia|]. split; [exists "N"; split; reflexivity|].
    intros j p Hj. destruct j as [|[|j]]; simpl; intros H; [| |lia]; injection H as <-; reflexivity.
  - lia.
  - reflexivity.
Defined.

(** C8 as stated fails.  The field [nan] holds no digit and is no
    number, yet [float] accepts it: for the reply
    [N,nan,7,40.33,E,11,36,47.42] both scripts return a latitude that is
    not-a-number beside the longitude, not [(None, None)], and the row of
    the continuous log then holds the longitude with no latitude. *)
Lemma C8_counterexample :
  first_at is_NS (map strip (split_comma "N,nan,7,40.33,E,11,36,47.42")) 0 0 /\
  nth_error (map strip (split_comma "N,nan,7,40.33,E,11,36,47.42")) 1 = Some "nan" /\
  forallb_string (fun c => negb (is_digit c)) "nan" = true /\
  Pr100.parse_gps_data "N,nan,7,40.33,E,11,36,47.42" =
    (Some PyFloat.NaN,
     Some (dms (PyFloat.of_Z 11) (PyFloat.of_Z 36) (PyFloat.of_decimal false 4742 (-2)))) /\
  Medicion360.parse_gps_data "N,nan,7,40.33,E,11,36,47.42" =
    Pr100.parse_gps_data "N,nan,7,40.33,E,11,36,47.42" /\
  Pr100.parse_gps_data "N,nan,7,40.33,E,11,36,47.42" <> (None, None) /\
  Pr100.coord_txt (fst (Pr100.parse_gps_data "N,nan,7,40.33,E,11,36,47.42")) = "" /\
  Pr100.coord_txt (snd (Pr100.parse_gps_data "N,nan,7,40.33,E,11,36,47.42")) = "11.613172".
Proof.
  split; [|split; [reflexivity|split; [reflexivity|]]].
  - split; [lia|]. split; [exists "N"; split; reflexivity|]. intros j p Hj. lia.
  - assert (E : Pr100.parse_gps_data "N,nan,7,40.33,E,11,36,47.42" =
      (Some PyFloat.NaN,
       Some (dms (PyFloat.of_Z 11) (PyFloat.of_Z 36)
               (PyFloat.of_decimal false 4742 (-2))))) by (vm_compute; reflexivity).
    split; [exact E|]. split; [reflexivity|]. rewrite E.
    split; [discriminate|]. split; [reflexivity|]. vm_compute. reflexivity.
Qed.

(** C3.  For a reply whose first [N]/[S] and following [E]/[W] markers are
    each followed by a valid degrees-minutes-seconds triple,
    [parse_gps_data] returns a latitude within [-90, 90] and a longitude
    within [-180, 180]; for the reply quoted in the scripts it returns
    48.1279 and 11.6132 to four decimals. *)
Theorem C3_position_in_range :
  (forall parse : string -> option float * option float,
      parse = Pr100.parse_gps_data \/ parse = Medicion360.parse_gps_data ->
      forall (s : string) (i j : nat) (lat_d lat_m lat_s lon_d lon_m lon_s : float),
        let parts := map strip (split_comma s) in
        first_at is_NS parts 0 i ->
        float_at parts (i + 1) = Some lat_d ->
        float_at parts (i + 2) = Some lat_m ->
        float_at parts (i + 3) = Some lat_s ->
        first_at is_EW parts (i + 4) j ->
        float_at parts (j + 1) = Some lon_d ->
        float_at parts (j + 2) = Some lon_m ->
        float_at parts (j + 3) = Some lon_s ->
        valid_dms 90 lat_d lat_m lat_s ->
        valid_dms 180 lon_d lon_m lon_s ->
        exists lat lon,
          parse s = (Some lat, Some lon) /\
          PyFloat.leb (PyFloat.of_Z (-90)) lat = true /\
          PyFloat.leb lat (PyFloat.of_Z 90) = true /\
          PyFloat.leb (PyFloat.of_Z (-180)) lon = true /\
          PyFloat.leb lon (PyFloat.of_Z 180) = true)
  /\
  (forall s, s = example_gps \/ s = example_gps_elided ->
     exists lat lon,
       Pr100.parse_gps_data s = (Some lat, Some lon) /\
       Medicion360.parse_gps_data s = (Some lat, Some lon) /\
       format_f 4 lat = "48.1279" /\ format_f 4 lon = "11.6132").
Proof.
  split.
  - intros parse Hp s i j lat_d lat_m lat_s lon_d lon_m lon_s parts
           F A1 A2 A3 G B1 B2 B3 V1 V2.
    assert (E : parse = Pr100.parse_gps_data) by (destruct Hp as [->| ->]; reflexivity).
    subst parse.
    rewrite (parse_gps_value s i j _ _ _ _ _ _ F A1 A2 A3 G B1 B2 B3). fold parts.
    destruct (lat_in_range lat_d lat_m lat_s) as (w1 & W1 & R1);
      eauto using float_at_wf.
    destruct (lon_in_range lon_d lon_m lon_s) as (w2 & W2 & R2);
      eauto using float_at_wf.
    eexists. eexists. split; [reflexivity|].
    destruct (hemisphere_range 90 (String.eqb (nth i parts "") "S")
                (dms lat_d lat_m lat_s) w1) as [H1 H2];
      [lia|vm_compute; reflexivity|vm_compute; reflexivity|exact W1|exact R1|].
    destruct (hemisphere_range 180 (String.eqb (nth j parts "") "W")
                (dms lon_d lon_m lon_s) w2) as [H3 H4];
      [lia|vm_compute; reflexivity|vm_compute; reflexivity|exact W2|exact R2|].
    auto.
  - intros s Hs.
    exists (dms (PyFloat.of_Z 48) (PyFloat.of_Z 7) (PyFloat.of_decimal false 4033 (-2))),
           (dms (PyFloat.of_Z 11) (PyFloat.of_Z 36) (PyFloat.of_decimal false 4742 (-2))).
    destruct Hs as [->| ->]; (split; [|split; [|split]]); vm_compute; reflexivity.
Qed.

(** The theorem at a position in the southern and western hemispheres. *)
Lemma C3_witness :
  exists lat lon,
    Pr100.parse_gps_data "S,33,51,35.9,W,151,12,40" = (Some lat, Some lon) /\
    PyFloat.leb (PyFloat.of_Z (-90)) lat = true /\
    PyFloat.leb lat (PyFloat.of_Z 90) = true /\
    PyFloat.leb (PyFloat.of_Z (-180)) lon = true /\
    PyFloat.leb lon (PyFloat.of_Z 180) = true.
Proof.
  apply (proj1 C3_position_in_range Pr100.parse_gps_data (or_introl eq_refl)
           "S,33,51,35.9,W,151,12,40" 0%nat 4%nat
           (PyFloat.of_Z 33) (PyFloat.of_Z 51) (PyFloat.of_decimal false 359 (-1))
           (PyFloat.of_Z 151) (PyFloat.of_Z 12) (PyFloat.of_Z 40)).
  - split; [lia|]. split; [exists "S"; split; reflexivity|]. intros j p Hj. lia.
  - vm_compute. reflexivity.
  - vm_compute. reflexivity.
  - vm_compute. reflexivity.
  - split; [lia|]. split; [exists "W"; split; reflexivity|]. intros j p Hj. lia.
  - vm_compute. reflexivity.
  - vm_compute. reflexivity.
  - vm_compute. reflexivity.
  - left. repeat split; vm_compute; reflexivity.
  - left. repeat split; vm_compute; reflexivity.
Defined.

(** ** Commands *)

Lemma rstrip_with_cons sp c s :
  rstrip_with sp (String c s) =
  match rstrip_with sp s with
  | EmptyString => if sp c then EmptyString else String c EmptyString
  | r => String c r
  end.
Proof. reflexivity. Qed.

Lemma rstrip_with_idem sp s : rstrip_with sp (rstrip_with sp s) = rstrip_with sp s.
Proof.
  induction s as [|c s IH]; [reflexivity|]. rewrite rstrip_with_cons.
  destruct (rstrip_with sp s) as [|d r] eqn:E.
  - destruct (sp c) eqn:C; [reflexivity|]. rewrite rstrip_with_cons. cbn [rstrip_with].
    rewrite C. reflexivity.
  - rewrite rstrip_with_cons, IH. reflexivity.
Qed.

Lemma lstrip_with_head sp s :
  lstrip_with sp s = "" \/
  exists c r, lstrip_with sp s = String c r /\ sp c = false.
Proof.
  induction s as [|c s IH]; [left; reflexivity|]. cbn [lstrip_with].
  destruct (sp c) eqn:C; [exact IH|]. right. exists c, s. auto.
Qed.

Lemma rstrip_with_head sp c r : sp c = false ->
  exists r', rstrip_with sp (String c r) = String c r'.
Proof.
  intros C. rewrite rstrip_with_cons. destruct (rstrip_with sp r).
  - rewrite C. eauto.
  - eauto.
Qed.

Lemma strip_idem s : strip (strip s) = strip s.
Proof.
  unfold strip.
  destruct (lstrip_with_head is_space s) as [E|(c & r & E & C)]; rewrite E.
  - reflexivity.
  - destruct (rstrip_with_head is_space c r C) as (r' & R). rewrite R.
    cbn [lstrip_with]. rewrite C. rewrite <- R. apply rstrip_with_idem.
Qed.

Lemma list_index_In {A : Type} (l : list A) i x : list_index l i = Some x -> In x l.
Proof.
  unfold list_index. destruct (0 <=? i)%Z; [apply nth_error_In|].
  destruct (i <? - Z.of_nat (List.length l))%Z; [discriminate|apply nth_error_In].
Qed.

Lemma list_index_nat {A : Type} (l : list A) (n : nat) :
  list_index l (Z.of_nat n) = nth_error l n.
Proof.
  unfold list_index. destruct (Z.leb_spec 0 (Z.of_nat n)); [|lia].
  rewrite Nat2Z.id. reflexivity.
Qed.

Lemma list_index_from_end {A : Type} (l : list A) (n : nat) : (n < List.length l)%nat ->
  list_index l (Z.of_nat n - Z.of_nat (List.length l))%Z = nth_error l n.
Proof.
  intros H. unfold list_index.
  destruct (Z.leb_spec 0 (Z.of_nat n - Z.of_nat (List.length l))%Z); [lia|].
  destruct (Z.ltb_spec (Z.of_nat n - Z.of_nat (List.length l))%Z (- Z.of_nat (List.length l))%Z); [lia|].
  f_equal. lia.
Qed.

Lemma get_cmd_member cmds index default c :
  Pr100.get_cmd cmds index default = Some c ->
  default = Some c \/
  (c <> "" /\ strip c = c /\ exists raw, In raw cmds /\ c = strip raw).
Proof.
  unfold Pr100.get_cmd.
  destruct index as [i|]; [|auto].
  destruct (i <? Z.of_nat (List.length cmds))%Z; [|auto].
  destruct (list_index cmds i) as [raw|] eqn:E; [|auto].
  destruct (is_empty (strip raw)) eqn:N; [auto|].
  intros H. injection H as <-. right.
  split; [apply is_empty_false; exact N|].
  split; [apply strip_idem|]. exists raw. split; [|reflexivity].
  apply (list_index_In _ _ _ E).
Qed.

Lemma get_cmd_at cmds default (n : nat) raw :
  nth_error cmds n = Some raw ->
  Pr100.get_cmd cmds (Some (Z.of_nat n)) default =
    (if is_empty (strip raw) then default else Some (strip raw)) /\
  Pr100.get_cmd cmds (Some (Z.of_nat n - Z.of_nat (List.length cmds))%Z) default =
    (if is_empty (strip raw) then default else Some (strip raw)).
Proof.
  intros H.
  assert (L : (n < List.length cmds)%nat).
  { apply nth_error_Some. rewrite H. discriminate. }
  unfold Pr100.get_cmd. split.
  - destruct (Z.ltb_spec (Z.of_nat n) (Z.of_nat (List.length cmds))); [|lia].
    rewrite list_index_nat, H. reflexivity.
  - destruct (Z.ltb_spec (Z.of_nat n - Z.of_nat (List.length cmds))%Z
                         (Z.of_nat (List.length cmds))); [|lia].
    rewrite (list_index_from_end _ _ L), H. reflexivity.
Qed.

Lemma get_cmd_outside cmds default i :
  (Z.of_nat (List.length cmds) <= i \/ i < - Z.of_nat (List.length cmds))%Z ->
  Pr100.get_cmd cmds (Some i) default = default.
Proof.
  intros H. unfold Pr100.get_cmd.
  destruct (Z.ltb_spec i (Z.of_nat (List.length cmds))); [|reflexivity].
  unfold list_index. destruct (Z.leb_spec 0 i); [lia|].
  destruct (Z.ltb_spec i (- Z.of_nat (List.length cmds))%Z); [reflexivity|lia].
Qed.

(** X1.  [get_cmd] gives the default or a command that can be sent: a member of
    the list, trimmed and not empty.  An index counts from the front, or,
    lowered by the length, from the end; outside the list, and without an
    index, the default comes back. *)
Theorem get_cmd_usable_or_default :
  (forall cmds index default c,
      Pr100.get_cmd cmds index default = Some c ->
      default = Some c \/
      (c <> "" /\ strip c = c /\ exists raw, In raw cmds /\ c = strip raw))
  /\ (forall cmds default (n : nat) raw,
        nth_error cmds n = Some raw ->
        Pr100.get_cmd cmds (Some (Z.of_nat n)) default =
          (if is_empty (strip raw) then default else Some (strip raw)) /\
        Pr100.get_cmd cmds (Some (Z.of_nat n - Z.of_nat (List.length cmds))%Z) default =
          (if is_empty (strip raw) then default else Some (strip raw)))
  /\ (forall cmds default i,
        (Z.of_nat (List.length cmds) <= i \/ i < - Z.of_nat (List.length cmds))%Z ->
        Pr100.get_cmd cmds (Some i) default = default)
  /\ (forall cmds default, Pr100.get_cmd cmds None default = default).
Proof.
  split; [|split; [|split]].
  - intros cmds index default c. apply get_cmd_member.
  - intros cmds default n raw. apply get_cmd_at.
  - intros cmds default i. apply get_cmd_outside.
  - intros cmds default. reflexivity.
Qed.

(** The theorem at a menu of three entries, the last one padded. *)
Lemma get_cmd_usable_or_default_witness :
  Pr100.get_cmd ["*IDN?"; "  "; " FREQ 100MHz "] (Some (-1)%Z) None = Some "FREQ 100MHz" /\
  (None = Some "FREQ 100MHz" \/
   ("FREQ 100MHz" <> "" /\ strip "FREQ 100MHz" = "FREQ 100MHz" /\
    exists raw, In raw ["*IDN?"; "  "; " FREQ 100MHz "] /\ "FREQ 100MHz" = strip raw)).
Proof.
  split; [reflexivity|].
  apply (proj1 get_cmd_usable_or_default
           ["*IDN?"; "  "; " FREQ 100MHz "] (Some (-1)%Z) None "FREQ 100MHz").
  reflexivity.
Defined.

Lemma contains_nonempty needle s : needle <> "" -> contains needle s = true -> s <> "".
Proof.
  intros N H. destruct s; [|discriminate]. simpl in H.
  destruct needle; [congruence|discriminate].
Qed.

Lemma remove_char_empty x s : remove_char x s <> "" -> s <> "".
Proof. destruct s; [simpl; congruence|discriminate]. Qed.

Lemma upper_string_empty s : upper_string s <> "" -> s <> "".
Proof. destruct s; [simpl; congruence|discriminate]. Qed.

Lemma first_fetch_member cmds c : Pr100.first_fetch cmds = Some c ->
  c <> "" /\ (exists raw, In raw cmds /\ c = strip raw) /\
  contains "DISPLAY:WINDOW:FETCH?" (remove_char " " (upper_string c)) = true.
Proof.
  induction cmds as [|raw cmds IH]; [discriminate|]. cbn [Pr100.first_fetch].
  destruct (contains "DISPLAY:WINDOW:FETCH?"
              (remove_char " " (upper_string (strip raw)))) eqn:E.
  - intros H. injection H as <-. split; [|split].
    + apply upper_string_empty, (remove_char_empty " "%char).
      apply (contains_nonempty "DISPLAY:WINDOW:FETCH?"); [discriminate|exact E].
    + exists raw. split; [left; reflexivity|reflexivity].
    + exact E.
  - intros H. destruct (IH H) as (N & (r & I & R) & C).
    split; [exact N|]. split; [|exact C]. exists r. split; [right; exact I|exact R].
Qed.

Lemma find_capture_heuristic cmds default :
  let h := match Pr100.first_fetch cmds with Some c => c | None => default end in
  (h = default \/ exists raw, In raw cmds /\ h = strip raw) /\
  (default <> "" -> h <> "").
Proof.
  cbn zeta. destruct (Pr100.first_fetch cmds) as [c|] eqn:E.
  - destruct (first_fetch_member _ _ E) as (N & M & _). split; [right; exact M|auto].
  - split; [left; reflexivity|auto].
Qed.

Lemma find_capture_cmd_member idx cmds default :
  (Pr100.find_capture_cmd idx cmds default = default \/
   exists raw, In raw cmds /\ Pr100.find_capture_cmd idx cmds default = strip raw)
  /\ (default <> "" -> Pr100.find_capture_cmd idx cmds default <> "").
Proof.
  unfold Pr100.find_capture_cmd.
  destruct idx as [t|]; [|apply find_capture_heuristic].
  destruct (py_int_text t) as [i|]; [|apply find_capture_heuristic].
  destruct (Pr100.get_cmd cmds (Some i) None) as [c|] eqn:G;
    [|apply find_capture_heuristic].
  destruct (is_empty c) eqn:N; [apply find_capture_heuristic|].
  destruct (get_cmd_member _ _ _ _ G) as [D|(_ & _ & M)]; [discriminate|].
  split; [right; exact M|]. intros _. apply is_empty_false. exact N.
Qed.




Lemma cmd_or_get_cmd cmds n d :
  Pr100.get_cmd cmds (Some (Z.of_nat n)) (Some d) = Some (Medicion360.cmd_or cmds n d).
Proof.
  unfold Medicion360.cmd_or. destruct (nth_error cmds n) as [raw|] eqn:E.
  - rewrite (proj1 (get_cmd_at cmds (Some d) n raw E)).
    destruct (is_empty (strip raw)); reflexivity.
  - apply get_cmd_outside. left.
    apply nth_error_None in E. lia.
Qed.

Lemma cmd_or_nonempty cmds n d : d <> "" -> Medicion360.cmd_or cmds n d <> "".
Proof.
  intros D. unfold Medicion360.cmd_or. destruct (nth_error cmds n) as [raw|]; [|exact D].
  destruct (is_empty (strip raw)) eqn:E; [exact D|apply is_empty_false; exact E].
Qed.

(** X3.  Whatever the menu holds, the continuous script and the sweep script
    take the same measurement, position and compass commands from it; none
    of them, nor the capture command, is ever empty; and with no menu they
    are the documented defaults. *)
Theorem command_selection_agrees :
  forall (idx : option string) (cmds : list string),
    Pr100.cmd_measure (Pr100.main_commands idx cmds) =
      Some (fst (fst (Medicion360.obtener_comandos_pr100 cmds))) /\
    Pr100.cmd_gps (Pr100.main_commands idx cmds) =
      Some (snd (fst (Medicion360.obtener_comandos_pr100 cmds))) /\
    Pr100.cmd_compass (Pr100.main_commands idx cmds) =
      Some (snd (Medicion360.obtener_comandos_pr100 cmds)) /\
    fst (fst (Medicion360.obtener_comandos_pr100 cmds)) <> "" /\
    snd (fst (Medicion360.obtener_comandos_pr100 cmds)) <> "" /\
    snd (Medicion360.obtener_comandos_pr100 cmds) <> "" /\
    Pr100.cmd_capture (Pr100.main_commands idx cmds) <> "" /\
    Medicion360.obtener_comandos_pr100 [] =
      (default_measure, default_gps, default_compass) /\
    Pr100.cmd_capture (Pr100.main_commands None []) = default_capture.
Proof.
  intros idx cmds. cbn [Pr100.main_commands Pr100.cmd_measure Pr100.cmd_gps
    Pr100.cmd_compass Pr100.cmd_capture Medicion360.obtener_comandos_pr100 fst snd].
  split; [apply (cmd_or_get_cmd cmds 2)|].
  split; [apply (cmd_or_get_cmd cmds 3)|].
  split; [apply (cmd_or_get_cmd cmds 4)|].
  split; [apply cmd_or_nonempty; discriminate|].
  split; [apply cmd_or_nonempty; discriminate|].
  split; [apply cmd_or_nonempty; discriminate|].
  split; [apply find_capture_cmd_member; discriminate|].
  split; reflexivity.
Qed.

(** *** Framing of a command *)








(** ** Frequency change: what reaches the instrument *)


Lemma rstrip_with_id sp s :
  forallb_string (fun c => negb (sp c)) s = true -> rstrip_with sp s = s.
Proof.
  induction s as [|c s IH]; [reflexivity|]. cbn [forallb_string]. intros H.
  apply andb_prop in H. destruct H as [C H]. rewrite rstrip_with_cons, (IH H).
  destruct s; [|reflexivity]. destruct (sp c); [discriminate|reflexivity].
Qed.







Lemma wire_of_env freq_mhz e :
  Cambiar_freq.enviar_comando_frecuencia_wire freq_mhz (Cambiar_freq.wire_of e) =
  Cambiar_freq.enviar_comando_frecuencia freq_mhz e.
Proof.
  unfold Cambiar_freq.enviar_comando_frecuencia_wire,
    Cambiar_freq.enviar_comando_frecuencia, Cambiar_freq.wire_of.
  cbn [Cambiar_freq.w_connect Cambiar_freq.w_cls Cambiar_freq.w_set
       Cambiar_freq.w_query Cambiar_freq.w_echo].
  destruct (negb _); [reflexivity|]. destruct (Cambiar_freq.connect e); reflexivity.
Qed.



(** ** The frequency endpoint of the server *)




(** ** The continuous loop as a whole *)

Lemma text_of_app a b : text_of (a ++ b)%list = text_of a ++ text_of b.
Proof.
  unfold text_of. induction a as [|x a IH]; [reflexivity|].
  simpl. rewrite IH, str_app_assoc. reflexivity.
Qed.

Lemma text_of_snoc a l : text_of (a ++ [l])%list = text_of a ++ l.
Proof. rewrite text_of_app. simpl. rewrite str_app_nil_r. reflexivity. Qed.

Section ContinuousRun.

Import Pr100.

Lemma well_formed_remove b f : well_formed_log f -> well_formed_log (remove_if b f).
Proof. destruct b; [intros _; exact I|auto]. Qed.

Lemma well_formed_append l f :
  is_sample_line l -> well_formed_log f -> well_formed_log (append l f).
Proof.
  intros L. destruct f as [content|]; simpl.
  - intros (ls & -> & F). exists (ls ++ [l])%list. split.
    + symmetry. apply text_of_snoc.
    + apply Forall_app. split; [exact F|]. constructor; [exact L|constructor].
  - intros _. exists [l]. split.
    + simpl. rewrite str_app_nil_r. reflexivity.
    + constructor; [exact L|constructor].
Qed.

(** What a round keeps: the frames are numbered as the rounds, the
    captures too, except that a round left through a failing frame has its
    capture already; the log stays a sequence of whole lines. *)
Lemma cycle_keeps e st :
  numbered st -> well_formed_log (file st) ->
  well_formed_log (file (fst (cycle e st))) /\
  match snd (cycle e st) with
  | Continue => numbered (fst (cycle e st)) /\ idx (fst (cycle e st)) = S (idx st)
  | Break => numbered (fst (cycle e st)) /\ idx (fst (cycle e st)) = idx st
  | Escaped _ =>
      List.length (frames (fst (cycle e st))) = idx (fst (cycle e st)) /\
      (idx (fst (cycle e st)) <= List.length (capturas (fst (cycle e st)))
       <= S (idx (fst (cycle e st))))%nat /\
      idx (fst (cycle e st)) = idx st
  end.
Proof.
  intros (Hf & Hc) W. unfold cycle. cbv zeta.
  pose proof (well_formed_remove (removed_before e) _ W) as W0.
  destruct (stop_ev st || signal e);
    [cbn; split; [exact W0|split; [split; assumption|reflexivity]]|].
  destruct (exists_ (remove_if (removed_before e) (file st))); cbn [negb];
    [|cbn; split; [exact W0|split; [split; assumption|reflexivity]]].
  destruct (reading_gps e) as [lat lon].
  set (line := sample_line _ _ _ _ _).
  assert (L : is_sample_line line) by (unfold is_sample_line, line; eauto 10).
  set (f2 := if append_ok e then _ else _).
  assert (W2 : well_formed_log f2).
  { subst f2. pose proof (well_formed_remove (removed_during e) _ W0) as W1.
    destruct (append_ok e); [apply well_formed_append; assumption|exact W1]. }
  destruct (guardar_captura_real_o_fallback _ _ _ _) as [c|ex].
  - destruct (save_frame_img _ _) as [fr|ex]; cbn [fst snd file idx frames capturas].
    + split; [exact W2|]. unfold numbered. cbn [frames capturas idx].
      rewrite !length_app. simpl. lia.
    + split; [exact W2|]. rewrite length_app. simpl. lia.
  - cbn [fst snd file idx frames capturas]. split; [exact W2|]. lia.
Qed.

Lemma main_loop_keeps envs : forall st,
  numbered st -> well_formed_log (file st) ->
  well_formed_log (file (fst (main_loop envs st))) /\
  List.length (frames (fst (main_loop envs st))) = idx (fst (main_loop envs st)) /\
  (idx (fst (main_loop envs st)) <= List.length (capturas (fst (main_loop envs st)))
   <= S (idx (fst (main_loop envs st))))%nat /\
  ((forall ex, snd (main_loop envs st) <> Failed ex) ->
   List.length (capturas (fst (main_loop envs st))) = idx (fst (main_loop envs st))) /\
  (idx (fst (main_loop envs st)) <= idx st + List.length envs)%nat.
Proof.
  induction envs as [|e es IH]; intros st N W.
  - destruct N as (Hf & Hc). cbn [main_loop fst snd List.length].
    split; [exact W|]. split; [exact Hf|]. split; [lia|].
    split; [intros _; exact Hc|lia].
  - cbn [main_loop]. destruct (cycle_keeps e st N W) as (W' & K).
    destruct (cycle e st) as [st' c]. cbn [fst snd] in *.
    destruct c as [| |ex].
    + destruct K as (N' & I'). destruct (IH st' N' W') as (A & B & C & D & E).
      split; [exact A|]. split; [exact B|]. split; [exact C|].
      split; [exact D|]. cbn [List.length]. lia.
    + destruct K as ((Hf & Hc) & I'). cbn [fst snd List.length].
      split; [exact W'|]. split; [exact Hf|]. split; [lia|].
      split; [intros _; exact Hc|lia].
    + destruct K as (Hf & Hc & I'). cbn [fst snd List.length].
      split; [exact W'|]. split; [exact Hf|]. split; [exact Hc|].
      split; [intros H; exfalso; apply (H ex); reflexivity|lia].
Qed.

(** X7.  However the world behaves, a run of the continuous loop leaves the
    frames numbered exactly as the samples, the captures too unless the
    run failed while drawing a frame (then one capture is ahead), and the
    log either absent or a sequence of whole six-column lines. *)
Theorem continuous_run_keeps_numbering :
  forall envs : list Pr100.cycle_env,
    let final := fst (Pr100.main_loop envs Pr100.st0) in
    Pr100.well_formed_log (Pr100.file final) /\
    List.length (Pr100.frames final) = Pr100.idx final /\
    (Pr100.idx final <= List.length (Pr100.capturas final) <= S (Pr100.idx final))%nat /\
    ((forall ex, snd (Pr100.main_loop envs Pr100.st0) <> Pr100.Failed ex) ->
     List.length (Pr100.capturas final) = Pr100.idx final) /\
    (Pr100.idx final <= List.length envs)%nat.
Proof.
  intros envs. cbn zeta.
  destruct (main_loop_keeps envs st0) as (A & B & C & D & E).
  - split; reflexivity.
  - exists []. split; [reflexivity|constructor].
  - repeat split; try assumption; apply C.
Qed.

Lemma undisturbed_cycle e st :
  undisturbed e -> stop_ev st = false -> exists_ (file st) = true ->
  cycle e st =
    (mk_state false (append (round_line e) (file st)) (S (idx st))
       (capturas (fst (cycle e st))) (frames (fst (cycle e st))), Continue).
Proof.
  intros (S & Rb & Rd & A & Cc & Fc) St X. unfold cycle, round_line.
  rewrite St, S, Rb, Rd, A, Cc, Fc. cbn [orb remove_if]. rewrite X. cbn [negb].
  destruct (reading_gps e) as [lat lon]. cbn [fst snd].
  destruct (guardar_captura_ok (capture_conn e) (pillow_ok e)
              (mk_metadata (ahora e) lat lon (reading_az e) (reading_dbm e))) as (a & ->).
  reflexivity.
Qed.

Lemma undisturbed_loop envs : forall st,
  Forall undisturbed envs -> stop_ev st = false -> exists_ (file st) = true ->
  snd (main_loop envs st) = Running /\
  idx (fst (main_loop envs st)) = (idx st + List.length envs)%nat /\
  file (fst (main_loop envs st)) =
    fold_left (fun f e => append (round_line e) f) envs (file st).
Proof.
  induction envs as [|e es IH]; intros st F St X.
  - cbn. auto.
  - inversion F as [|e' es' U Fs]; subst. cbn [main_loop].
    rewrite (undisturbed_cycle e st U St X).
    match goal with |- context [main_loop es ?s] => destruct (IH s Fs eq_refl) as (A & B & C) end.
    { cbn [file]. destruct (file st); reflexivity. }
    cbn [idx file] in *. cbn [fold_left List.length]. repeat split; [exact A|lia|exact C].
Qed.

Lemma fold_append_lines (ls : list string) : forall content,
  fold_left (fun f l => append l f) ls (Some content) = Some (content ++ text_of ls).
Proof.
  induction ls as [|l ls IH]; intros content; cbn [fold_left].
  - simpl. rewrite str_app_nil_r. reflexivity.
  - cbn [append]. rewrite IH. simpl. rewrite str_app_assoc. reflexivity.
Qed.

(** X8.  On a run that nothing disturbs, every round adds its line: after [n]
    rounds the loop is still going, the log holds the [n] lines of the
    rounds in order, and sample, capture and frame [i] belong together for
    every [i] below [n]. *)
Theorem undisturbed_run_one_line_per_round :
  forall envs : list Pr100.cycle_env,
    Forall Pr100.undisturbed envs ->
    let final := fst (Pr100.main_loop envs Pr100.st0) in
    snd (Pr100.main_loop envs Pr100.st0) = Pr100.Running /\
    Pr100.file final = Some (text_of (map Pr100.round_line envs)) /\
    Pr100.idx final = List.length envs /\
    List.length (Pr100.capturas final) = List.length envs /\
    List.length (Pr100.frames final) = List.length envs.
Proof.
  intros envs U. cbn zeta.
  destruct (undisturbed_loop envs st0 U eq_refl eq_refl) as (A & B & C).
  destruct (main_loop_keeps envs st0) as (_ & F & _ & Cn & _).
  { split; reflexivity. }
  { exists []. split; [reflexivity|constructor]. }
  cbn [idx st0] in B. simpl in B.
  split; [exact A|]. split; [|split; [exact B|split]].
  - rewrite C. cbn [file st0].
    etransitivity; [|exact (fold_append_lines (map round_line envs) "")].
    clear. generalize (Some ""). induction envs as [|e es IH]; intros f; [reflexivity|].
    cbn [fold_left map]. apply IH.
  - rewrite Cn; [exact B|]. intros ex. rewrite A. discriminate.
  - rewrite F. exact B.
Qed.

End ContinuousRun.

(** The theorem at two rounds in which every query times out. *)
Lemma undisturbed_run_one_line_per_round_witness :
  Pr100.file (fst (Pr100.main_loop
                     [Pr100.all_fail true (Ok tt); Pr100.all_fail true (Ok tt)] Pr100.st0)) =
    Some "2026-11-04,12:00:00,nan,no directivo,,
2026-11-04,12:00:00,nan,no directivo,,
".
Proof.
  apply (undisturbed_run_one_line_per_round
           [Pr100.all_fail true (Ok tt); Pr100.all_fail true (Ok tt)]).
  repeat constructor.
Defined.

(** ** The sweep as a whole *)

Section SweepRun.

Import Medicion360.

Lemma wait_fix_calm polls : forall st st' pos,
  Forall (fun p => p_removed_before p = false) polls ->
  wait_fix polls st = Some (st', pos) ->
  file st' = file st /\
  match pos with Some xy => fix_of polls xy | None => True end.
Proof.
  induction polls as [|p ps IH]; intros st st' pos F H; [discriminate|].
  inversion F as [|p' ps' Rp Fs]; subst. cbn [wait_fix] in H. rewrite Rp in H.
  cbn [remove_if] in H.
  destruct (stop_ev st || p_signal p).
  { injection H as <- <-. auto. }
  destruct (negb (exists_ (file st))).
  { injection H as <- <-. auto. }
  destruct (parse_gps_data (query_or_empty (p_gps_reply p))) as [[lat|] [lon|]] eqn:G.
  { injection H as <- <-. split; [reflexivity|]. exists p. split; [left; reflexivity|exact G]. }
  all: destruct (PyFloat.leb GPS_WAIT_S (p_elapsed p));
    [injection H as <- <-; auto|];
    destruct (IH _ _ _ Fs H) as (A & B); split; [exact A|];
    destruct pos as [xy|]; [|exact I];
    destruct B as (q & Iq & Gq); exists q; split; [right; exact Iq|exact Gq].
Qed.

Lemma sweep_loop_calm envs : forall st content,
  Forall calm envs -> file st = Some content ->
  exists k, (k <= List.length envs)%nat /\
    file (fst (sweep_loop envs st)) =
      Some (content ++ text_of (flat_map cycle_lines (firstn k envs))) /\
    (snd (sweep_loop envs st) = Running -> k = List.length envs).
Proof.
  induction envs as [|e es IH]; intros st content F X.
  - exists 0%nat. cbn. rewrite str_app_nil_r. auto.
  - inversion F as [|e' es' (Rb & Rd) Fs]; subst. cbn [sweep_loop]. unfold cycle.
    rewrite Rb, Rd, X. cbn [remove_if exists_ negb].
    destruct (stop_ev st || signal e).
    + exists 0%nat. cbn. rewrite str_app_nil_r. split; [lia|]. split; [reflexivity|discriminate].
    + rewrite fold_append_lines.
      match goal with |- context [sweep_loop es ?s] =>
        destruct (IH s (content ++ text_of (cycle_lines e)) Fs eq_refl) as (k & K & A & B) end.
      exists (S k). cbn [List.length firstn flat_map]. split; [lia|]. split.
      * rewrite A, text_of_app, str_app_assoc. reflexivity.
      * intros R. rewrite (B R). reflexivity.
Qed.

(** X9.  When the log is never removed and the header can be written, the
    sweep log is the header line followed by the lines of the rounds that
    gave a finite bearing and level, in order and with nothing else: the
    header is the blank line, or the position of a complete fix that one
    of the replies of the wait held.  While the loop is running every
    round is accounted for. *)
Theorem sweep_log_is_header_then_lines :
  forall (polls : list poll_env) (envs : list cycle_env) (st : state) (status : status),
    Forall (fun p => p_removed_before p = false) polls ->
    Forall calm envs ->
    main polls true envs = Some (st, status) ->
    exists pos k,
      (k <= List.length envs)%nat /\
      file st = Some (header_line pos ++ text_of (flat_map cycle_lines (firstn k envs))) /\
      (status = Running -> k = List.length envs) /\
      match pos with Some xy => fix_of polls xy | None => True end.
Proof.
  intros polls envs st status Fp Fe H. unfold main in H.
  destruct (wait_fix polls (mk_state false (Some ""))) as [[st1 pos]|] eqn:W; [|discriminate].
  destruct (wait_fix_calm _ _ _ _ Fp W) as (X & P). cbn [file] in X.
  injection H as H. exists pos.
  destruct (sweep_loop_calm envs (write_header true pos st1) (header_line pos) Fe)
    as (k & K & A & B).
  { cbn [write_header file]. rewrite X. reflexivity. }
  unfold write_header in A, B. rewrite H in A, B. cbn [fst snd] in A, B.
  exists k. auto.
Qed.

(** X10.  The wait for a position is over, at the latest, with the first poll
    that ends [GPS_WAIT_S] or more after the start: it has an outcome
    then, and what the polls after it would have returned plays no part. *)
Theorem wait_fix_is_bounded :
  forall (before : list poll_env) (p : poll_env) (after : list poll_env) (st : state),
    PyFloat.leb GPS_WAIT_S (p_elapsed p) = true ->
    (exists outcome, wait_fix (before ++ p :: after) st = Some outcome) /\
    wait_fix (before ++ p :: after) st = wait_fix (before ++ [p]) st.
Proof.
  intros before p after st T. revert st.
  induction before as [|q qs IH]; intros st.
  - cbn [app wait_fix]. rewrite T.
    destruct (stop_ev st || p_signal p); [split; [eauto|reflexivity]|].
    destruct (negb (exists_ (remove_if (p_removed_before p) (file st))));
      [split; [eauto|reflexivity]|].
    destruct (parse_gps_data (query_or_empty (p_gps_reply p))) as [[lat|] [lon|]];
      split; eauto.
  - cbn [app wait_fix].
    destruct (stop_ev st || p_signal q); [split; [eauto|reflexivity]|].
    destruct (negb (exists_ (remove_if (p_removed_before q) (file st))));
      [split; [eauto|reflexivity]|].
    destruct (parse_gps_data (query_or_empty (p_gps_reply q))) as [[lat|] [lon|]];
      try (split; [eauto|reflexivity]);
      (destruct (PyFloat.leb GPS_WAIT_S (p_elapsed q)); [split; [eauto|reflexivity]|apply IH]).
Qed.

End SweepRun.

(** The theorem at a wait without a fix that runs out of time, followed
    by a round with a bearing and no level and a round with both. *)
Lemma sweep_log_is_header_then_lines_witness :
  exists pos k,
    (k <= 2)%nat /\
    Some "
10.0,-57.00
" = Some (Medicion360.header_line pos ++
           text_of (flat_map Medicion360.cycle_lines
                      (firstn k [Medicion360.bearing_only; Medicion360.good_round true]))) /\
    (Medicion360.Running = Medicion360.Running -> k = 2%nat) /\
    match pos with
    | Some xy =>
        Medicion360.fix_of
          [Medicion360.mk_poll_env false false (Raise TimeoutError) (PyFloat.of_Z 9)] xy
    | None => True
    end.
Proof.
  apply (sweep_log_is_header_then_lines
           [Medicion360.mk_poll_env false false (Raise TimeoutError) (PyFloat.of_Z 9)]
           [Medicion360.bearing_only; Medicion360.good_round true]
           (Medicion360.mk_state false (Some "
10.0,-57.00
")) Medicion360.Running).
  - repeat constructor.
  - repeat constructor.
  - vm_compute. reflexivity.
Defined.

(** The theorem at a first poll that ends after nine seconds. *)
Lemma wait_fix_is_bounded_witness :
  Medicion360.wait_fix
    ([] ++ Medicion360.mk_poll_env false false (Raise TimeoutError) (PyFloat.of_Z 9)
        :: [Medicion360.removed_poll]) Medicion360.st0 =
  Medicion360.wait_fix
    ([] ++ [Medicion360.mk_poll_env false false (Raise TimeoutError) (PyFloat.of_Z 9)])
    Medicion360.st0.
Proof.
  apply (wait_fix_is_bounded []
           (Medicion360.mk_poll_env false false (Raise TimeoutError) (PyFloat.of_Z 9))
           [Medicion360.removed_poll] Medicion360.st0).
  vm_compute. reflexivity.
Defined.

(** ** Block data: every byte accounted for *)

Lemma break_line_app a b :
  break_line (a ++ b) =
  match break_line a with
  | (l, Some r) => (l, Some (r ++ b))
  | (l, None) => (l ++ fst (break_line b), snd (break_line b))
  end.
Proof.
  induction a as [|c a IH].
  - simpl. destruct (break_line b); reflexivity.
  - cbn [String.append break_line]. destruct (Ascii.eqb c LF); [reflexivity|].
    rewrite IH. destruct (break_line a) as [l [r|]]; reflexivity.
Qed.

Lemma break_line_pending s :
  s = fst (break_line s) ++ match snd (break_line s) with Some r => r | None => "" end.
Proof.
  induction s as [|c s IH]; [reflexivity|]. cbn [break_line].
  destruct (Ascii.eqb c LF); [reflexivity|].
  destruct (break_line s) as [l r]. cbn [fst snd] in *. simpl. f_equal. exact IH.
Qed.

(** [readline] takes the bytes of the stream up to and including the first
    line feed, however the stream is cut into pieces. *)
Lemma readline_break f :
  fst (readline f) = fst (break_line (pending f)) /\
  pending (snd (readline f)) =
    match snd (break_line (pending f)) with Some r => r | None => "" end.
Proof.
  induction f as [|c cs IH]; [split; reflexivity|].
  cbn [readline pending fold_right]. fold (pending cs). rewrite break_line_app.
  destruct (break_line c) as [l [r|]].
  - cbn [fst snd]. split; [reflexivity|].
    destruct (is_empty r) eqn:E; [apply is_empty_true in E; subst r|]; reflexivity.
  - destruct (readline cs) as [l' f']. cbn [fst snd] in *.
    destruct IH as (A & B). rewrite A. split; [reflexivity|exact B].
Qed.

Lemma read_empty_closed n f : (0 < n)%nat -> fst (read n f) = "" ->
  pending (snd (read n f)) = "".
Proof.
  intros Hn H. destruct (pending f) as [|c r] eqn:P.
  - pose proof (read_pending n f) as R. rewrite P, H in R. simpl in R. auto.
  - exfalso. apply (read_nonempty n f Hn); [rewrite P; discriminate|exact H].
Qed.

(** What the payload loop does to the stream: it takes a prefix of it; when
    it returns, the data has grown by that prefix to the announced length
    and no further; when it raises, the stream is at its end. *)
Lemma recv_data_accounts fuel : forall blen data f,
  (Z.to_nat (blen - Z.of_nat (String.length data)) <= fuel)%nat ->
  exists taken,
    pending f = taken ++ pending (snd (Pr100.recv_data fuel blen data f)) /\
    match fst (Pr100.recv_data fuel blen data f) with
    | Ok d =>
        d = data ++ taken /\
        Z.of_nat (String.length d) = Z.max blen (Z.of_nat (String.length data))
    | Raise ex =>
        ex = RuntimeError Pr100.closed_msg /\
        pending (snd (Pr100.recv_data fuel blen data f)) = "" /\
        (Z.of_nat (String.length (data ++ taken)) < blen)%Z
    end.
Proof.
  induction fuel as [|fuel IH]; intros blen data f Hf.
  - exists "". cbn [Pr100.recv_data fst snd]. split; [reflexivity|].
    rewrite str_app_nil_r. split; [reflexivity|lia].
  - cbn [Pr100.recv_data].
    destruct (Z.ltb_spec (Z.of_nat (String.length data)) blen) as [T|T].
    + pose proof (read_pending (Z.to_nat (blen - Z.of_nat (String.length data))) f) as RP.
      pose proof (read_length (Z.to_nat (blen - Z.of_nat (String.length data))) f) as RL.
      pose proof (read_empty_closed (Z.to_nat (blen - Z.of_nat (String.length data))) f) as RC.
      destruct (read (Z.to_nat (blen - Z.of_nat (String.length data))) f) as [chunk f'].
      cbn [fst snd] in *. destruct (is_empty chunk) eqn:E.
      * apply is_empty_true in E. subst chunk. exists "". cbn [fst snd].
        split; [exact RP|]. split; [reflexivity|]. split; [apply RC; [lia|reflexivity]|].
        rewrite str_app_nil_r. exact T.
      * apply is_empty_false in E.
        assert (0 < String.length chunk)%nat by (destruct chunk; [congruence|simpl; lia]).
        destruct (IH blen (data ++ chunk) f') as (taken & P & R).
        { rewrite str_length_app. lia. }
        exists (chunk ++ taken). split; [rewrite RP, P, str_app_assoc; reflexivity|].
        destruct (fst (Pr100.recv_data fuel blen (data ++ chunk) f')) as [d|ex].
        -- destruct R as (-> & L). split; [apply str_app_assoc|].
           rewrite L, str_length_app. lia.
        -- destruct R as (-> & C & L). split; [reflexivity|]. split; [exact C|].
           rewrite <- str_app_assoc. exact L.
    + exists "". cbn [fst snd]. split; [reflexivity|]. rewrite str_app_nil_r.
      split; [reflexivity|lia].
Qed.

Section BlockAccounts.

Import Pr100.

(** X11.  The reader takes a prefix of the stream and leaves the rest, whatever
    the outcome.  When it returns, what it took is the ['#'], the two
    header fields and the payload, and the payload has exactly the
    announced length: never less, never a byte of what follows.  When it
    raises for a connection closed, the stream is at its end. *)
Theorem block_reader_accounts_for_every_byte :
  forall f : sock_file,
    exists taken,
      pending f = taken ++ pending (snd (_scpi_recv_block f)) /\
      (forall data, fst (_scpi_recv_block f) = Ok data ->
         exists b1 b2 ndigits blen,
           taken = "#" ++ b1 ++ b2 ++ data /\
           py_int b1 = Some ndigits /\ py_int b2 = Some blen /\
           (String.length b1 <= 1)%nat /\
           (String.length b2 <= Z.to_nat ndigits)%nat /\
           Z.of_nat (String.length data) = Z.max blen 0) /\
      (fst (_scpi_recv_block f) = Raise (RuntimeError closed_msg) ->
         pending (snd (_scpi_recv_block f)) = "").
Proof.
  intros f. unfold _scpi_recv_block.
  pose proof (read_pending 1 f) as P1. pose proof (read_length 1 f) as L1.
  destruct (read 1 f) as [first f1]. cbn [fst snd] in *.
  destruct (String.eqb first "#") eqn:E; cbn [negb].
  - apply String.eqb_eq in E. subst first.
    pose proof (read_pending 1 f1) as P2. pose proof (read_length 1 f1) as L2.
    destruct (read 1 f1) as [b1 f2]. cbn [fst snd] in *.
    destruct (py_int b1) as [ndigits|] eqn:I1.
    + pose proof (read_pending (Z.to_nat ndigits) f2) as P3.
      pose proof (read_length (Z.to_nat ndigits) f2) as L3.
      destruct (read (Z.to_nat ndigits) f2) as [b2 f3]. cbn [fst snd] in *.
      destruct (py_int b2) as [blen|] eqn:I2.
      * destruct (recv_data_accounts (Z.to_nat blen) blen "" f3) as (taken & P & R).
        { simpl. lia. }
        exists ("#" ++ b1 ++ b2 ++ taken). split.
        { rewrite P1, P2, P3, P. rewrite !str_app_assoc. reflexivity. }
        destruct (fst (recv_data (Z.to_nat blen) blen "" f3)) as [d|ex].
        -- destruct R as (-> & L). split; [|discriminate].
           intros data H. injection H as <-. exists b1, b2, ndigits, blen.
           cbn [String.append] in *. repeat split; assumption.
        -- destruct R as (-> & C & _). split; [discriminate|]. intros _. exact C.
      * exists ("#" ++ b1 ++ b2). split.
        { rewrite P1, P2, P3. rewrite !str_app_assoc. reflexivity. }
        cbn [fst snd]. split; discriminate.
    + exists ("#" ++ b1). split.
      { rewrite P1, P2. rewrite !str_app_assoc. reflexivity. }
      cbn [fst snd]. split; discriminate.
  - destruct (readline_break f1) as (A & B).
    pose proof (break_line_pending (pending f1)) as BP.
    destruct (readline f1) as [line f2]. cbn [fst snd] in *.
    exists (first ++ line). split.
    { rewrite P1, str_app_assoc. f_equal. rewrite B, A. exact BP. }
    split; [discriminate|]. intros H. unfold not_block_msg, closed_msg in H.
    cbn [String.append] in H. injection H as H. discriminate H.
Qed.

(** X12.  A reply that does not start with ['#'] raises the error for a reply
    that is not block data, which quotes the first byte and, trimmed, the
    line read after it; the stream is left right after that line.  A
    stream already at its end raises the same error with nothing
    quoted. *)
Theorem reply_without_hash_is_reported :
  (forall (f : sock_file) (c : ascii) (r : string),
      pending f = String c r -> c <> "#"%char ->
      fst (_scpi_recv_block f) =
        Raise (RuntimeError (not_block_msg ++ strip (String c (fst (break_line r))))) /\
      pending (snd (_scpi_recv_block f)) =
        match snd (break_line r) with Some rest => rest | None => "" end)
  /\ (forall f : sock_file,
        pending f = "" ->
        fst (_scpi_recv_block f) = Raise (RuntimeError not_block_msg)).
Proof.
  split.
  - intros f c r P N. unfold _scpi_recv_block.
    destruct (read_one c r f P) as (f1 & -> & P1).
    assert (E : String.eqb (String c "") "#" = false).
    { apply String.eqb_neq. intros H. injection H as H. congruence. }
    rewrite E. cbn [negb]. destruct (readline_break f1) as (A & B).
    destruct (readline f1) as [line f2]. cbn [fst snd] in *. rewrite P1 in A, B.
    rewrite A. split; [reflexivity|exact B].
  - intros f P. unfold _scpi_recv_block.
    pose proof (read_pending 1 f) as P1. rewrite P in P1.
    destruct (read 1 f) as [first f1]. cbn [fst snd] in *.
    destruct first; [|discriminate]. simpl in P1.
    cbn [String.eqb negb]. destruct (readline_break f1) as (A & _).
    destruct (readline f1) as [line f2]. cbn [fst snd] in *.
    rewrite <- P1 in A. cbn in A. subst line. reflexivity.
Qed.

End BlockAccounts.

(** The theorem at an error message that arrives in two pieces, followed by
    the start of the next reply. *)
Lemma reply_without_hash_is_reported_witness :
  fst (Pr100._scpi_recv_block ["-113,"; "Undefined header
#15"]) =
    Raise (RuntimeError "Respuesta no es block data: -113,Undefined header") /\
  pending (snd (Pr100._scpi_recv_block ["-113,"; "Undefined header
#15"])) = "#15".
Proof.
  apply (proj1 reply_without_hash_is_reported ["-113,"; "Undefined header
#15"] "-"%char "113,Undefined header
#15").
  - reflexivity.
  - discriminate.
Defined.

(** ** Reading a number out of a reply *)

Lemma parse_decimal_value neg ip fp :
  ip <> "" -> forallb_string is_digit ip = true -> forallb_string is_digit fp = true ->
  parse_decimal neg ip = Some (PyFloat.of_decimal neg (digits_val ip) 0) /\
  (fp <> "" ->
   parse_decimal neg (ip ++ "." ++ fp) =
     Some (PyFloat.of_decimal neg (digits_val (ip ++ fp))
             (0 - Z.of_nat (String.length fp)))).
Proof.
  intros N Hip Hfp. unfold parse_decimal. split.
  - rewrite (span_digits_all ip Hip). rewrite str_app_nil_r.
    destruct ip; [congruence|]. reflexivity.
  - intros _. change (ip ++ "." ++ fp) with (ip ++ String "." fp).
    rewrite (span_digits_app ip "." fp Hip eq_refl), (span_digits_all fp Hfp).
    destruct ip as [|c ip]; [congruence|]. reflexivity.
Qed.

Lemma num_char_not_bspace s : forallb_string num_char s = true ->
  forallb_string (fun c => negb (is_bspace c)) s = true.
Proof.
  apply forallb_string_impl. intros c H.
  destruct c as [[] [] [] [] [] [] [] []]; try discriminate H; reflexivity.
Qed.

(** The value [float] gives to a numeral, bare or with a sign in front. *)
Lemma py_float_signed n x :
  numeral_shaped n -> parse_decimal false n = Some x ->
  py_float n = Some x /\
  py_float (String "+" n) = Some x /\
  exists y, parse_decimal true n = Some y /\ py_float (String "-" n) = Some y.
Proof.
  intros H P. pose proof (numeral_num_char n H) as C.
  destruct (numeral_head n H) as (c & r & E & D).
  pose proof (num_char_not_bspace n C) as B.
  destruct (parse_decimal_numeral true n H) as (y & Y).
  split; [|split].
  - unfold py_float.
    rewrite (lstrip_num n C), (rstrip_num n C), (drop_underscores_num n zero eq_refl C).
    rewrite E, (split_sign_digit c r D), <- E, P. reflexivity.
  - unfold py_float. cbn [lstrip_with is_bspace]. change (is_bspace "+") with false.
    cbv iota.
    rewrite (rstrip_with_id is_bspace (String "+" n)) by (simpl; exact B).
    cbn [drop_underscores]. change (Ascii.eqb "+" "_") with false. cbv iota.
    change (Ascii.eqb zero "_" && negb (is_digit "+")) with false. cbv iota.
    rewrite (drop_underscores_num n "+" eq_refl C). cbn [option_map split_sign].
    rewrite P. reflexivity.
  - exists y. split; [exact Y|].
    assert (C' : forallb_string num_char (String "-" n) = true) by (simpl; exact C).
    unfold py_float.
    rewrite (lstrip_num _ C'), (rstrip_num _ C'), (drop_underscores_num _ zero eq_refl C').
    cbn [split_sign]. rewrite Y. reflexivity.
Qed.

Lemma parse_decimal_not_nan neg s x : parse_decimal neg s = Some x -> PyFloat.is_nan x = false.
Proof.
  unfold parse_decimal. destruct (span_digits s) as [ip r1].
  destruct (match r1 with String "."%char r => span_digits r | _ => ("", r1) end) as [fp r2].
  destruct (ip ++ fp); [discriminate|].
  destruct (parse_exponent r2); [|discriminate].
  intros E. injection E as <-. unfold PyFloat.of_decimal, PyFloat.of_Q.
  destruct (Qle_bool _ _); reflexivity.
Qed.

Lemma search_number_none s :
  search_number s = None <-> forallb_string (fun c => negb (is_digit c)) s = true.
Proof.
  induction s as [|c s IH]; [split; reflexivity|]. cbn [search_number forallb_string].
  destruct (is_digit c) eqn:D; cbn [negb andb]; [split; discriminate|].
  destruct (Ascii.eqb c "-").
  - destruct s as [|d s']; [split; reflexivity|].
    destruct (is_digit d) eqn:D2; [|exact IH].
    cbn [forallb_string]. rewrite D2. split; discriminate.
  - exact IH.
Qed.

Lemma extraer_primer_float_facts s :
  (Pr100.extraer_primer_float s = None <->
   forallb_string (fun c => negb (is_digit c)) s = true) /\
  (forall x, Pr100.extraer_primer_float s = Some x ->
     PyFloat.is_nan x = false /\ PyFloat.wf x).
Proof.
  unfold Pr100.extraer_primer_float. split.
  - destruct s as [|c s]; [split; reflexivity|]. cbn [is_empty].
    destruct (search_number (String c s)) as [g|] eqn:E.
    + destruct (search_number_float _ _ E) as (x & ->).
      split; [discriminate|]. intros H. apply search_number_none in H. congruence.
    + split; [intros _; apply search_number_none; exact E|reflexivity].
  - intros x. destruct (is_empty s); [discriminate|].
    destruct (search_number s) as [g|] eqn:E; [|discriminate].
    intros F. split; [|apply (py_float_wf _ _ F)].
    destruct (search_number_shaped _ _ E) as (n & Hn & [->| ->]).
    + destruct (parse_decimal_numeral false n Hn) as (v & V).
      destruct (py_float_signed n v Hn V) as (A & _). rewrite A in F.
      injection F as <-. apply (parse_decimal_not_nan _ _ _ V).
    + destruct (parse_decimal_numeral false n Hn) as (v & V).
      destruct (py_float_signed n v Hn V) as (_ & _ & y & Y & A). rewrite A in F.
      injection F as <-. apply (parse_decimal_not_nan _ _ _ Y).
Qed.

(** X13.  In both scripts [extraer_primer_float] finds no number exactly in the
    texts without a digit; otherwise it returns a float, never
    not-a-number, and the conversion of the matched text cannot raise. *)
Theorem extraer_primer_float_total :
  forall s : string,
    Medicion360.extraer_primer_float s = Pr100.extraer_primer_float s /\
    (Pr100.extraer_primer_float s = None <->
     forallb_string (fun c => negb (is_digit c)) s = true) /\
    (forall x, Pr100.extraer_primer_float s = Some x ->
       PyFloat.is_nan x = false /\ PyFloat.wf x).
Proof.
  intros s. split; [reflexivity|]. apply extraer_primer_float_facts.
Qed.

(** The theorem at a reply with a unit after the level. *)
Lemma extraer_primer_float_total_witness :
  Pr100.extraer_primer_float "LEVEL -12.5 dBuV" = Some (PyFloat.of_decimal true 125 (-1)) /\
  PyFloat.is_nan (PyFloat.of_decimal true 125 (-1)) = false /\
  PyFloat.wf (PyFloat.of_decimal true 125 (-1)).
Proof.
  split; [vm_compute; reflexivity|].
  apply (proj2 (proj2 (extraer_primer_float_total "LEVEL -12.5 dBuV"))).
  vm_compute. reflexivity.
Defined.

(** ** The value of a position record *)

(** X14.  For a record that holds a hemisphere letter followed by three numbers,
    and after them a second letter followed by three numbers, both
    scripts return degrees plus minutes over 60 plus seconds over 3600 for
    each, negated for the letters [S] and [W]. *)
Theorem parse_gps_data_value :
  forall (s : string) (i j : nat) (lat_d lat_m lat_s lon_d lon_m lon_s : float),
    let parts := map strip (split_comma s) in
    first_at is_NS parts 0 i ->
    float_at parts (i + 1) = Some lat_d -> float_at parts (i + 2) = Some lat_m ->
    float_at parts (i + 3) = Some lat_s ->
    first_at is_EW parts (i + 4) j ->
    float_at parts (j + 1) = Some lon_d -> float_at parts (j + 2) = Some lon_m ->
    float_at parts (j + 3) = Some lon_s ->
    Pr100.parse_gps_data s =
      (Some (if String.eqb (nth i parts "") "S" then PyFloat.opp (dms lat_d lat_m lat_s)
             else dms lat_d lat_m lat_s),
       Some (if String.eqb (nth j parts "") "W" then PyFloat.opp (dms lon_d lon_m lon_s)
             else dms lon_d lon_m lon_s)) /\
    Medicion360.parse_gps_data s = Pr100.parse_gps_data s.
Proof.
  intros s i j lat_d lat_m lat_s lon_d lon_m lon_s parts Hns A1 A2 A3 Hew B1 B2 B3.
  split; [|rewrite parse_gps_same; reflexivity].
  apply (parse_gps_value s i j); assumption.
Qed.

(** The theorem at the reply quoted in the scripts: 48 d 7 m 40.33 s
    north, 11 d 36 m 47.42 s east. *)
Lemma parse_gps_data_value_witness :
  Pr100.parse_gps_data example_gps =
    (Some (dms (PyFloat.of_Z 48) (PyFloat.of_Z 7) (PyFloat.of_decimal false 4033 (-2))),
     Some (dms (PyFloat.of_Z 11) (PyFloat.of_Z 36) (PyFloat.of_decimal false 4742 (-2)))).
Proof.
  refine (eq_trans
            (proj1 (parse_gps_data_value example_gps 5 9
                      (PyFloat.of_Z 48) (PyFloat.of_Z 7) (PyFloat.of_decimal false 4033 (-2))
                      (PyFloat.of_Z 11) (PyFloat.of_Z 36) (PyFloat.of_decimal false 4742 (-2))
                      _ _ _ _ _ _ _ _)) _).
  - split; [lia|]. split; [exists "N"; split; reflexivity|].
    intros k p Hk.
    do 5 (destruct k as [|k]; [intros H; injection H as <-; reflexivity|]). lia.
  - vm_compute. reflexivity.
  - vm_compute. reflexivity.
  - vm_compute. reflexivity.
  - split; [lia|]. split; [exists "E"; split; reflexivity|]. intros k p Hk. lia.
  - vm_compute. reflexivity.
  - vm_compute. reflexivity.
  - vm_compute. reflexivity.
  - vm_compute. reflexivity.
Defined.

(** ** Decimal numerals: what they are worth *)

Lemma digits_val_acc_shift s : forall acc,
  digits_val_acc acc s = (acc * 10 ^ Z.of_nat (String.length s) + digits_val s)%Z.
Proof.
  unfold digits_val. induction s as [|c s IH]; intros acc.
  - simpl. lia.
  - cbn [digits_val_acc String.length]. rewrite (IH (10 * acc + digit_val c)%Z).
    rewrite (IH (10 * 0 + digit_val c)%Z).
    rewrite Nat2Z.inj_succ, Z.pow_succ_r by lia. ring.
Qed.

Lemma digits_val_acc_app a : forall acc b,
  digits_val_acc acc (a ++ b) = digits_val_acc (digits_val_acc acc a) b.
Proof.
  induction a as [|c a IH]; intros acc b; [reflexivity|].
  cbn [String.append digits_val_acc]. apply IH.
Qed.

Lemma digits_val_app a b :
  digits_val (a ++ b) = (digits_val a * 10 ^ Z.of_nat (String.length b) + digits_val b)%Z.
Proof.
  unfold digits_val at 1. rewrite digits_val_acc_app. fold (digits_val a).
  apply digits_val_acc_shift.
Qed.

Lemma digits_val_zeros n : digits_val (repeat_char "0" n) = 0%Z.
Proof.
  induction n as [|n IH]; [reflexivity|].
  change (repeat_char "0" (S n)) with ("0" ++ repeat_char "0" n).
  rewrite digits_val_app, IH. reflexivity.
Qed.

Lemma digits_val_zero_pad w s : digits_val (zero_pad w s) = digits_val s.
Proof. unfold zero_pad. rewrite digits_val_app, digits_val_zeros. lia. Qed.

Lemma digit_val_char k : (0 <= k < 10)%Z ->
  digit_val (ascii_of_nat (48 + Z.to_nat k)) = k.
Proof.
  intros H. unfold digit_val. rewrite nat_ascii_embedding by lia. lia.
Qed.

Lemma digits_fuel_val fuel : forall n acc,
  (0 <= n < 10 ^ Z.of_nat fuel)%Z ->
  digits_val (digits_of_pos_fuel fuel n acc) =
    (n * 10 ^ Z.of_nat (String.length acc) + digits_val acc)%Z.
Proof.
  induction fuel as [|fuel IH]; intros n acc H.
  - change (10 ^ Z.of_nat 0)%Z with 1%Z in H. assert (n = 0%Z) by lia. subst n.
    simpl. lia.
  - cbn [digits_of_pos_fuel].
    assert (M : (0 <= n mod 10 < 10)%Z) by (apply Z.mod_pos_bound; lia).
    pose proof (Z.div_mod n 10 ltac:(lia)) as DM.
    assert (V : digits_val (String (ascii_of_nat (48 + Z.to_nat (n mod 10))) acc) =
                (n mod 10 * 10 ^ Z.of_nat (String.length acc) + digits_val acc)%Z).
    { change (String ?c acc) with (String c "" ++ acc). rewrite digits_val_app.
      f_equal. f_equal. unfold digits_val. cbn [digits_val_acc].
      rewrite digit_val_char by exact M. lia. }
    destruct (Z.eqb_spec (n / 10) 0) as [E|E].
    + rewrite V. rewrite E in DM. f_equal. f_equal. lia.
    + rewrite IH.
      * rewrite V. cbn [String.length]. rewrite Nat2Z.inj_succ, Z.pow_succ_r by lia.
        rewrite DM at 3. ring.
      * split; [apply Z.div_pos; lia|]. apply Z.div_lt_upper_bound; [lia|].
        rewrite Nat2Z.inj_succ, Z.pow_succ_r in H by lia. lia.
Qed.

Lemma string_of_Z_nat_val n : (0 <= n)%Z -> digits_val (string_of_Z_nat n) = n.
Proof.
  intros H. unfold string_of_Z_nat. rewrite digits_fuel_val.
  - simpl. unfold digits_val. simpl. lia.
  - split; [exact H|]. destruct (Z.eq_dec n 0) as [->|N]; [reflexivity|].
    rewrite Nat2Z.inj_succ, Z2Nat.id by apply Z.log2_nonneg.
    apply Z.lt_le_trans with (2 ^ Z.succ (Z.log2 n))%Z.
    + apply Z.log2_spec. lia.
    + apply Z.pow_le_mono_l. split; [lia|lia].
Qed.

(** ** What a reader gets from a formatted float *)

Lemma numeral_of_parts ip fp :
  ip <> "" -> forallb_string is_digit ip = true ->
  fp <> "" -> forallb_string is_digit fp = true ->
  numeral_shaped (ip ++ "." ++ fp).
Proof. intros A B C D. exists ip. split; [exact A|]. split; [exact B|]. right. eauto. Qed.

Lemma py_float_fixed neg ip fp :
  ip <> "" -> forallb_string is_digit ip = true ->
  fp <> "" -> forallb_string is_digit fp = true ->
  py_float (sign_prefix neg ++ ip ++ "." ++ fp) =
    Some (PyFloat.of_decimal neg (digits_val (ip ++ fp))
            (0 - Z.of_nat (String.length fp))).
Proof.
  intros A B C D. pose proof (numeral_of_parts ip fp A B C D) as N.
  destruct (parse_decimal_value false ip fp A B D) as (_ & Pf).
  destruct (parse_decimal_value true ip fp A B D) as (_ & Pt).
  destruct (py_float_signed _ _ N (Pf C)) as (F & _ & y & Y & T).
  destruct neg; [|exact F].
  rewrite (Pt C) in Y. injection Y as <-. exact T.
Qed.

Lemma py_float_format_f k s m : (0 <= m)%Q ->
  py_float (format_f (S k) (PyFloat.Fin s m)) = Some (at_decimals (S k) (PyFloat.Fin s m)).
Proof.
  intros Hm. unfold format_f, at_decimals.
  set (p := (10 ^ Z.of_nat (S k))%Z).
  set (n := PyFloat.rne (m * inject_Z p)).
  assert (Hp : (0 < p)%Z) by (subst p; apply Z.pow_pos_nonneg; lia).
  assert (Hn : (0 <= n)%Z).
  { subst n. apply rne_ge. change (inject_Z 0) with 0%Q.
    apply Qmult_le_0_compat; [exact Hm|]. change 0%Q with (inject_Z 0).
    rewrite <- Zle_Qle. lia. }
  pose proof (Z.mod_pos_bound n p Hp) as Hmod.
  assert (L : String.length (zero_pad (S k) (string_of_Z_nat (n mod p))) = S k).
  { apply zero_pad_length, string_of_Z_nat_length; [lia|exact Hmod]. }
  rewrite py_float_fixed.
  - rewrite L. f_equal. f_equal. rewrite digits_val_app, L, digits_val_zero_pad.
    rewrite !string_of_Z_nat_val by (try apply Z.div_pos; lia).
    fold p. rewrite (Z.div_mod n p) at 3 by lia. ring.
  - apply string_of_Z_nat_nonempty.
  - apply string_of_Z_nat_digits.
  - intros E. rewrite E in L. discriminate L.
  - apply zero_pad_digits, string_of_Z_nat_digits.
Qed.

(** ** Character sets of what the scripts write *)

Section Charset.

Variable p : ascii -> bool.
Hypothesis p_digit : forall c, is_digit c = true -> p c = true.
Hypothesis p_marks : forallb_string p "-.infa" = true.

Lemma charset_digits s : forallb_string is_digit s = true -> forallb_string p s = true.
Proof. apply forallb_string_impl. exact p_digit. Qed.

Lemma charset_format_f k x : forallb_string p (format_f k x) = true.
Proof.
  assert (M : p "-" = true /\ p "." = true /\ p "i" = true /\ p "n" = true /\
              p "f" = true /\ p "a" = true).
  { cbn [forallb_string] in p_marks. repeat (apply andb_prop in p_marks as [? p_marks]).
    auto 10. }
  destruct M as (M1 & M2 & M3 & M4 & M5 & M6).
  destruct x as [s m|s|]; unfold format_f.
  - rewrite !forallb_string_app.
    rewrite (charset_digits _ (string_of_Z_nat_digits _)).
    assert (S : forallb_string p (sign_prefix s) = true).
    { destruct s; cbn [sign_prefix forallb_string]; [rewrite M1|]; reflexivity. }
    rewrite S. destruct k; [reflexivity|].
    cbn [String.append forallb_string]. rewrite M2.
    rewrite (charset_digits _ (zero_pad_digits _ _ (string_of_Z_nat_digits _))). reflexivity.
  - destruct s; cbn [sign_prefix String.append forallb_string];
      rewrite ?M1, M3, M4, M5; reflexivity.
  - cbn [forallb_string]. rewrite M4, M6. reflexivity.
Qed.

End Charset.

Lemma plain_format_f k x : forallb_string plain (format_f k x) = true.
Proof.
  apply charset_format_f; [|reflexivity].
  intros c H. destruct c as [[] [] [] [] [] [] [] []]; try discriminate H; reflexivity.
Qed.

(** ** Lines and numbers of a text *)

Lemma text_lines_line body rest :
  forallb_string plain body = true ->
  text_lines (body ++ String LF rest) = (body ++ String LF "") :: text_lines rest.
Proof.
  induction body as [|c body IH]; intros H.
  - reflexivity.
  - cbn [forallb_string] in H. apply andb_prop in H. destruct H as [C H].
    unfold plain in C. apply andb_prop in C. destruct C as [C1 C2].
    apply negb_true_iff in C1, C2.
    cbn [String.append text_lines]. rewrite C1, C2, (IH H). reflexivity.
Qed.

Lemma text_lines_text_of ls : Forall is_line ls -> text_lines (text_of ls) = ls.
Proof.
  induction 1 as [|l ls (body & -> & B) F IH]; [reflexivity|].
  cbn [text_of fold_right]. fold (text_of ls).
  rewrite str_app_assoc. cbn [String.append]. rewrite (text_lines_line _ _ B), IH.
  reflexivity.
Qed.

Lemma findall_skip a rest :
  findall_number (String.length a) (a ++ rest) = findall_number 0 rest.
Proof. induction a as [|c a IH]; [reflexivity|]. cbn. exact IH. Qed.

Lemma match_number_fixed ip fp c0 rest :
  forallb_string is_digit ip = true ->
  fp <> "" -> forallb_string is_digit fp = true -> is_digit c0 = false ->
  match_number ((ip ++ "." ++ fp) ++ String c0 rest) = ip ++ "." ++ fp.
Proof.
  intros A C D E. unfold match_number. rewrite str_app_assoc.
  change (("." ++ fp) ++ String c0 rest) with (String "." (fp ++ String c0 rest)).
  rewrite (span_digits_app ip "." _ A eq_refl).
  rewrite (span_digits_app fp c0 rest D E). cbn [fst].
  destruct fp; [congruence|reflexivity].
Qed.

Lemma findall_at_digit c n rest :
  is_digit c = true -> match_number (String c n ++ rest) = String c n ->
  findall_number 0 (String c n ++ rest) = String c n :: findall_number 0 rest.
Proof.
  intros Hc M. cbn [String.append findall_number]. rewrite Hc.
  change (String c (n ++ rest)) with (String c n ++ rest). rewrite M. f_equal.
  replace (String.length (String c n) - 1)%nat with (String.length n)
    by (cbn [String.length]; lia).
  apply findall_skip.
Qed.

Lemma findall_at_minus c n rest :
  is_digit c = true -> match_number (String c n ++ rest) = String c n ->
  findall_number 0 (String "-" (String c n) ++ rest) =
    String "-" (String c n) :: findall_number 0 rest.
Proof.
  intros Hc M. cbn [String.append findall_number].
  change (is_digit "-") with false. change (Ascii.eqb "-" "-") with true.
  cbn [orb]. rewrite Hc.
  change (String c (n ++ rest)) with (String c n ++ rest). rewrite M. f_equal.
  apply (findall_skip (String c n) rest).
Qed.

(** A numeral with decimals, followed by a character that is no digit, is
    the next match, whole. *)
Lemma findall_fixed k a c0 rest :
  fixed_numeral (S k) a -> is_digit c0 = false ->
  findall_number 0 (a ++ String c0 rest) = a :: findall_number 0 (String c0 rest).
Proof.
  intros (sign & ip & fp & -> & S & N & Hip & Hfp & L) E.
  assert (Nf : fp <> "") by (intros ->; discriminate L).
  pose proof (match_number_fixed ip fp c0 rest Hip Nf Hfp E) as M.
  destruct ip as [|c ip]; [congruence|].
  pose proof Hip as Hc. cbn [forallb_string] in Hc. apply andb_prop in Hc.
  destruct Hc as [Hc _].
  change (String c ip ++ "." ++ fp) with (String c (ip ++ "." ++ fp)) in *.
  destruct S as [-> | ->].
  - apply findall_at_digit; assumption.
  - apply findall_at_minus; assumption.
Qed.

(** ** The sweep, written by the script and read by the server *)

Section LiveSweep.

Import Medicion360.

Lemma add_wf x y : PyFloat.wf (PyFloat.add x y).
Proof.
  destruct x as [a p|a|], y as [b q|b|]; cbn [PyFloat.add PyFloat.wf]; try exact I.
  - destruct (Qeq_bool _ _); [|apply of_Q_wf]. cbn [PyFloat.wf].
    split; [apply Qle_refl|]. apply Qle_bool_iff. vm_compute. reflexivity.
  - destruct (Bool.eqb a b); exact I.
Qed.

Lemma round_sample_good e : Forall sound_pair (round_sample e).
Proof.
  unfold round_sample, reading_dbm.
  destruct (reading_az e) as [az|] eqn:A; [|constructor].
  destruct (reading_dbuv e) as [dbuv|]; [|constructor].
  destruct (PyFloat.is_finite az) eqn:Fa; [|constructor].
  destruct (PyFloat.is_finite (dbuv_to_dbm dbuv)) eqn:Fd; [|constructor].
  destruct (append_ok e); constructor; [|constructor].
  split; split; cbn [fst snd]; try assumption.
  - apply (extraer_primer_float_wf _ _ A).
  - apply add_wf.
Qed.

Lemma cycle_lines_samples e :
  cycle_lines e = map (fun p => sweep_line (fst p) (snd p)) (round_sample e).
Proof.
  unfold cycle_lines, round_sample.
  destruct (reading_az e); [|reflexivity]. destruct (reading_dbm e); [|reflexivity].
  destruct (_ && _ && _); reflexivity.
Qed.

Lemma flat_map_map {A B C : Type} (f : A -> list B) (g : B -> C) l :
  flat_map (fun a => map g (f a)) l = map g (flat_map f l).
Proof.
  induction l as [|a l IH]; [reflexivity|]. cbn [flat_map]. rewrite IH, map_app.
  reflexivity.
Qed.

Lemma finite_wf_pos x : PyFloat.is_finite x = true -> PyFloat.wf x ->
  exists s m, x = PyFloat.Fin s m /\ (0 <= m)%Q.
Proof.
  destruct x as [s m| |]; try discriminate. intros _ (H & _). eauto.
Qed.

Lemma py_float_written k x : PyFloat.is_finite x = true -> PyFloat.wf x ->
  py_float (format_f (S k) x) = Some (at_decimals (S k) x).
Proof.
  intros F W. destruct (finite_wf_pos x F W) as (s & m & -> & H).
  apply py_float_format_f. exact H.
Qed.

Lemma findall_sweep_line az dbm :
  PyFloat.is_finite az = true -> PyFloat.is_finite dbm = true ->
  findall_number 0 (sweep_line az dbm) = [format_f 1 az; format_f 2 dbm].
Proof.
  intros Fa Fd. unfold sweep_line.
  change ("," ++ ?x) with (String "," x).
  rewrite (findall_fixed 0 _ "," _ (format_f_fixed 0 az Fa) eq_refl).
  change (findall_number 0 (String "," ?t)) with (findall_number 0 t).
  rewrite (findall_fixed 1 _ LF _ (format_f_fixed 1 dbm Fd) eq_refl).
  reflexivity.
Qed.

Lemma live_points_samples samples : Forall sound_pair samples ->
  Server.live_points (map (fun p => sweep_line (fst p) (snd p)) samples) =
    map Server.point_of samples.
Proof.
  induction 1 as [|[az dbm] samples ((Fa & Wa) & (Fd & Wd)) F IH]; [reflexivity|].
  cbn [map Server.live_points fst snd] in *.
  rewrite (findall_sweep_line az dbm Fa Fd).
  rewrite (py_float_written 0 az Fa Wa), (py_float_written 1 dbm Fd Wd), IH.
  reflexivity.
Qed.

Lemma sweep_line_is_line az dbm : is_line (sweep_line az dbm).
Proof.
  exists (format_f 1 az ++ "," ++ format_f 2 dbm). split.
  - unfold sweep_line. rewrite !str_app_assoc. reflexivity.
  - rewrite !forallb_string_app, !plain_format_f. reflexivity.
Qed.

Lemma header_line_is_line pos : is_line (header_line pos).
Proof.
  destruct pos as [[la lo]|]; [|exists ""; split; reflexivity].
  exists (format_f 6 la ++ "," ++ format_f 6 lo). split.
  - unfold header_line. rewrite !str_app_assoc. reflexivity.
  - rewrite !forallb_string_app, !plain_format_f. reflexivity.
Qed.

(** The numbers of a header: the two coordinates when both are finite,
    fewer than two otherwise. *)
Lemma findall_header la lo :
  match PyFloat.is_finite la && PyFloat.is_finite lo,
        findall_number 0 (header_line (Some (la, lo))) with
  | true, l => l = [format_f 6 la; format_f 6 lo]
  | false, _ :: _ :: _ => False
  | false, _ => True
  end.
Proof.
  assert (One : forall x, PyFloat.is_finite x = true ->
            findall_number 0 (format_f 6 x ++ String LF "") = [format_f 6 x]).
  { intros x F. rewrite (findall_fixed 5 _ LF _ (format_f_fixed 5 x F) eq_refl).
    reflexivity. }
  assert (Cut : forall x t, PyFloat.is_finite x = true ->
            findall_number 0 (format_f 6 x ++ String "," t) =
              format_f 6 x :: findall_number 0 t).
  { intros x t F. rewrite (findall_fixed 5 _ "," _ (format_f_fixed 5 x F) eq_refl).
    reflexivity. }
  unfold header_line. change ("," ++ ?x) with (String "," x).
  destruct (PyFloat.is_finite la) eqn:Fa.
  - rewrite (Cut la _ Fa). destruct (PyFloat.is_finite lo) eqn:Fo; cbn [andb].
    + rewrite (One lo Fo). reflexivity.
    + destruct lo as [s m|[]|]; [discriminate| | |]; exact I.
  - cbn [andb].
    assert (Skip : findall_number 0 (format_f 6 la ++ String "," (format_f 6 lo ++ String LF ""))
                   = findall_number 0 (format_f 6 lo ++ String LF "")).
    { generalize (format_f 6 lo ++ String LF ""). intros t.
      destruct la as [s m|[]|]; [discriminate| | |]; reflexivity. }
    rewrite Skip. destruct (PyFloat.is_finite lo) eqn:Fo.
    + rewrite (One lo Fo). exact I.
    + destruct lo as [s m|[]|]; [discriminate| | |]; exact I.
Qed.

(** X15.  What the live endpoint of the server makes of a log the sweep script
    wrote: the position of the header to six decimals, or none when the
    header is blank or not finite, and for every line one point, the
    bearing to one decimal reduced modulo 360 and the level to two
    decimals, in the order of the rounds.  No line is lost and none is
    made up. *)
Theorem live_reads_back_the_sweep :
  forall (pos : option (float * float)) (envs : list cycle_env),
    match pos with
    | Some (la, lo) => PyFloat.wf la /\ PyFloat.wf lo
    | None => True
    end ->
    Server.api_med360_live
      (Some (header_line pos ++ text_of (flat_map cycle_lines envs))) =
    Server.mk_live (fst (Server.position_of pos)) (snd (Server.position_of pos))
      (map Server.point_of (flat_map round_sample envs)).
Proof.
  intros pos envs W.
  assert (G : Forall sound_pair (flat_map round_sample envs)).
  { induction envs as [|e es IH]; [constructor|]. cbn [flat_map].
    apply Forall_app. split; [apply round_sample_good|exact IH]. }
  assert (E : flat_map cycle_lines envs =
              map (fun p => sweep_line (fst p) (snd p)) (flat_map round_sample envs)).
  { rewrite <- flat_map_map. clear. induction envs as [|e es IH]; [reflexivity|].
    cbn [flat_map]. rewrite IH, cycle_lines_samples. reflexivity. }
  rewrite E. set (samples := flat_map round_sample envs) in *.
  set (lines := map (fun p => sweep_line (fst p) (snd p)) samples).
  assert (T : text_lines (header_line pos ++ text_of lines) = header_line pos :: lines).
  { change (header_line pos ++ text_of lines) with (text_of (header_line pos :: lines)).
    apply text_lines_text_of. constructor; [apply header_line_is_line|].
    subst lines. apply Forall_map. apply Forall_forall. intros p _.
    apply sweep_line_is_line. }
  unfold Server.api_med360_live. rewrite T.
  pose proof (live_points_samples samples G) as P. fold lines in P.
  destruct pos as [[la lo]|].
  - pose proof (findall_header la lo) as H. cbn [Server.position_of].
    destruct (PyFloat.is_finite la && PyFloat.is_finite lo) eqn:F.
    + rewrite H. apply andb_prop in F. destruct F as [Fa Fo]. destruct W as [Wa Wo].
      rewrite (py_float_written 5 la Fa Wa), (py_float_written 5 lo Fo Wo), P.
      reflexivity.
    + cbn [fst snd].
      destruct (findall_number 0 (header_line (Some (la, lo)))) as [|a [|b l]];
        [| |contradiction]; rewrite P; reflexivity.
  - cbn [Server.position_of fst snd header_line].
    change (findall_number 0 (String LF "")) with (@nil string). rewrite P. reflexivity.
Qed.

End LiveSweep.

(** The theorem at a header with a position and one round with a bearing
    of -10 degrees and a level of 50 dBuV. *)
Lemma live_reads_back_the_sweep_witness :
  Server.api_med360_live (Some "48.127869,11.613172
-10.0,-57.00
") =
  Server.mk_live (Some (PyFloat.of_decimal false 48127869 (-6)))
    (Some (PyFloat.of_decimal false 11613172 (-6)))
    [(PyFloat.of_Z 350, PyFloat.of_Z (-57))].
Proof.
  refine (eq_trans
            (live_reads_back_the_sweep
               (Some (PyFloat.of_decimal false 48127869 (-6),
                      PyFloat.of_decimal false 11613172 (-6)))
               [Medicion360.mk_cycle_env false false (Ok "50") (Ok "-10") false true]
               _) _).
  - split; apply of_Q_wf.
  - vm_compute. reflexivity.
Defined.

(** ** The bearing of a point *)

Section Bearing.

Import PyFloat.
Local Open Scope Q_scope.

Lemma remainder_360 m :
  0 <= m - 360 * inject_Z (Qfloor (m / 360)) /\
  m - 360 * inject_Z (Qfloor (m / 360)) < 360.
Proof.
  pose proof (Qfloor_le (m / 360)) as L. pose proof (Qlt_floor (m / 360)) as U.
  assert (E : m == 360 * (m / 360)) by (field).
  rewrite inject_Z_plus in U. change (inject_Z 1) with 1 in U.
  split.
  - apply Qle_minus_iff in L. apply Qle_minus_iff.
    setoid_replace (m - 360 * inject_Z (Qfloor (m / 360)) + - 0)
      with (360 * (m / 360 + - inject_Z (Qfloor (m / 360)))) by (field).
    apply Qmult_le_0_compat; [discriminate|exact L].
  - apply Qlt_minus_iff in U. apply Qlt_minus_iff.
    setoid_replace (360 + - (m - 360 * inject_Z (Qfloor (m / 360))))
      with (360 * (inject_Z (Qfloor (m / 360)) + 1 + - (m / 360))) by (field).
    apply Qmult_lt_0_compat; [reflexivity|exact U].
Qed.

Lemma round_mag_360 : round_mag 360 == 360.
Proof. apply Qeq_bool_iff. vm_compute. reflexivity. Qed.

Lemma mod_360_range x :
  is_nan (mod_360 x) = true \/
  (leb zero (mod_360 x) = true /\ leb (mod_360 x) (of_Z 360) = true).
Proof.
  destruct x as [s m| |]; [|left; reflexivity|left; reflexivity]. right.
  unfold mod_360. destruct (remainder_360 m) as (L & U).
  set (r := m - 360 * inject_Z (Qfloor (m / 360))) in *.
  change (of_Z 360) with (Fin false 360).
  destruct (Qeq_bool r 0); [split; reflexivity|].
  destruct s.
  - assert (B : round_mag (360 - r) <= 360).
    { apply Qle_trans with (round_mag 360).
      - apply round_mag_mono. apply Qle_minus_iff.
        setoid_replace (360 + - (360 - r)) with r by ring. exact L.
      - apply Qle_lteq. right. apply round_mag_360. }
    destruct (of_Q_cases false (360 - r)) as [(_ & I)|(-> & _)].
    + exfalso. apply (Qlt_irrefl (pow2 1024)).
      apply Qle_lt_trans with 360; [apply (Qle_trans _ _ _ I B)|].
      apply Qlt_compute. vm_compute. reflexivity.
    + cbn [leb zero sval]. split; apply Qle_bool_iff; rewrite Qred_correct;
        [apply round_mag_nonneg|exact B].
  - cbn [leb zero sval]. split; apply Qle_bool_iff; rewrite Qred_correct;
      [exact L|apply Qlt_le_weak; exact U].
Qed.

End Bearing.

Lemma live_points_range lines : forall d p,
  In (d, p) (Server.live_points lines) ->
  (PyFloat.is_nan d = true \/
   (PyFloat.leb PyFloat.zero d = true /\ PyFloat.leb d (PyFloat.of_Z 360) = true)).
Proof.
  induction lines as [|line lines IH]; intros d p H; [contradiction|].
  cbn [Server.live_points] in H.
  destruct (findall_number 0 line) as [|a [|b l]]; try (apply (IH d p H)).
  destruct (py_float a) as [x|]; [|contradiction].
  destruct (py_float b) as [y|]; [|contradiction].
  destruct H as [H|H]; [|apply (IH d p H)].
  injection H as <- _. apply mod_360_range.
Qed.

(** X16.  Whatever the file holds, the bearing of every point the live endpoint
    returns is not-a-number or lies between 0 and 360, both included, and
    the answer holds at most one point for every line after the first.
    The upper end is reached: a line that starts with the numeral
    [-0.00000000000000000001] gives the bearing 360.0. *)
Theorem live_bearing_within_turn :
  (forall (content : string) (d p : float),
      In (d, p) (Server.points (Server.api_med360_live (Some content))) ->
      PyFloat.is_nan d = true \/
      (PyFloat.leb PyFloat.zero d = true /\ PyFloat.leb d (PyFloat.of_Z 360) = true))
  /\ (forall content : string,
        (List.length (Server.points (Server.api_med360_live (Some content)))
         <= List.length (text_lines content) - 1)%nat)
  /\ Server.points (Server.api_med360_live (Some "
-0.00000000000000000001,-57.00
")) = [(PyFloat.of_Z 360, PyFloat.of_Z (-57))].
Proof.
  split; [|split].
  - intros content d p. unfold Server.api_med360_live.
    destruct (text_lines content) as [|first rest]; [intros []|].
    destruct (findall_number 0 first) as [|a [|b l]];
      try (cbn [Server.points]; apply live_points_range).
    destruct (py_float a) as [x|]; [|intros []].
    destruct (py_float b) as [y|]; [|intros []].
    cbn [Server.points]. apply live_points_range.
  - intros content. unfold Server.api_med360_live.
    assert (B : forall lines, (List.length (Server.live_points lines) <= List.length lines)%nat).
    { induction lines as [|line lines IH]; [cbn; lia|]. cbn [Server.live_points].
      destruct (findall_number 0 line) as [|a [|b l]]; cbn [List.length]; try lia.
      destruct (py_float a); [|cbn; lia]. destruct (py_float b); cbn [List.length]; lia. }
    destruct (text_lines content) as [|first rest]; [cbn; lia|].
    replace (List.length (first :: rest) - 1)%nat with (List.length rest)
      by (cbn [List.length]; lia).
    destruct (findall_number 0 first) as [|a [|b l]]; cbn [Server.points]; try apply B.
    destruct (py_float a); [|cbn; lia]. destruct (py_float b); cbn [Server.points List.length];
      [apply B|lia].
  - vm_compute. reflexivity.
Qed.

(** The theorem at a log with a blank header and a bearing of 370.5
    degrees. *)
Lemma live_bearing_within_turn_witness :
  PyFloat.is_nan (PyFloat.of_decimal false 105 (-1)) = true \/
  (PyFloat.leb PyFloat.zero (PyFloat.of_decimal false 105 (-1)) = true /\
   PyFloat.leb (PyFloat.of_decimal false 105 (-1)) (PyFloat.of_Z 360) = true).
Proof.
  apply (proj1 live_bearing_within_turn "
370.5,-57.00
" (PyFloat.of_decimal false 105 (-1)) (PyFloat.of_Z (-57))).
  vm_compute. left. reflexivity.
Defined.

(** ** Names of what the server saves *)

Lemma fold_max_ge r : forall n z, (z = n \/ In z r) -> (z <= fold_left Z.max r n)%Z.
Proof.
  induction r as [|a r IH]; intros n z H; cbn [fold_left].
  - destruct H as [->|[]]. lia.
  - destruct H as [->|[->|H]].
    + etransitivity; [|apply IH; left; reflexivity]. lia.
    + etransitivity; [|apply IH; left; reflexivity]. lia.
    + apply IH. right. exact H.
Qed.

Lemma next_number_gt ns z : In z ns -> (z < next_number ns)%Z.
Proof.
  destruct ns as [|n r]; [intros []|]. intros H. cbn [next_number].
  pose proof (fold_max_ge r n z) as G.
  assert (z <= fold_left Z.max r n)%Z by (apply G; destruct H; auto). lia.
Qed.

Lemma next_number_pos ns : (forall z, In z ns -> 0 <= z)%Z -> (1 <= next_number ns)%Z.
Proof.
  destruct ns as [|n r]; [cbn; lia|]. intros H. cbn [next_number].
  pose proof (fold_max_ge r n n (or_introl eq_refl)).
  pose proof (H n (or_introl eq_refl)). lia.
Qed.

Lemma collect_In {A B : Type} (f : A -> option B) l x y :
  In x l -> f x = Some y -> In y (collect f l).
Proof.
  induction l as [|a l IH]; [intros []|]. intros [->|H] E; cbn [collect].
  - rewrite E. left. reflexivity.
  - destruct (f a); [right|]; apply IH; assumption.
Qed.

Lemma collect_from {A B : Type} (f : A -> option B) l y :
  In y (collect f l) -> exists x, In x l /\ f x = Some y.
Proof.
  induction l as [|a l IH]; [intros []|]. cbn [collect].
  destruct (f a) as [b|] eqn:E.
  - intros [<-|H]; [exists a; split; [left; reflexivity|exact E]|].
    destruct (IH H) as (x & I & F). exists x. split; [right; exact I|exact F].
  - intros H. destruct (IH H) as (x & I & F). exists x. split; [right; exact I|exact F].
Qed.

Lemma count_digits_le s : (count_digits s <= String.length s)%nat.
Proof.
  induction s as [|c s IH]; [cbn; lia|]. cbn [count_digits String.length].
  destruct (is_digit c); lia.
Qed.

Lemma digits_val_acc_nonneg s : forall acc,
  forallb_string is_digit s = true -> (0 <= acc)%Z -> (0 <= digits_val_acc acc s)%Z.
Proof.
  induction s as [|c s IH]; intros acc H A; [exact A|].
  cbn [forallb_string] in H. apply andb_prop in H. destruct H as [C H].
  cbn [digits_val_acc]. apply IH; [exact H|].
  destruct (digit_facts c C) as (_ & _ & _ & _ & _ & _ & _ & _ & _ & D). lia.
Qed.

(** The number read from a run of digits, unless the run is too long. *)
Lemma py_int_text_digits ds : ds <> "" -> forallb_string is_digit ds = true ->
  (forall z, py_int_text ds = Some z -> z = digits_val ds /\ (0 <= z)%Z) /\
  ((String.length ds <= 4300)%nat -> py_int_text ds = Some (digits_val ds)).
Proof.
  intros N D. unfold py_int_text. rewrite (py_int_digits ds N D). split.
  - destruct (4300 <? count_digits ds)%nat; [discriminate|].
    intros z H. injection H as <-. split; [reflexivity|].
    apply digits_val_acc_nonneg; [exact D|lia].
  - intros L. pose proof (count_digits_le ds).
    destruct (Nat.ltb_spec 4300 (count_digits ds)); [lia|reflexivity].
Qed.

Lemma drop_app_length a b : drop (String.length a) (a ++ b) = b.
Proof. induction a as [|c a IH]; [destruct b; reflexivity|exact IH]. Qed.

Lemma take_app_length a b : take (String.length a) (a ++ b) = a.
Proof.
  induction a as [|c a IH]; [destruct b; reflexivity|].
  cbn [String.length String.append take]. rewrite IH. reflexivity.
Qed.

Lemma contains_char c s :
  contains (String c "") s = negb (forallb_string (fun x => negb (Ascii.eqb x c)) s).
Proof.
  induction s as [|x s IH]; [reflexivity|]. cbn [contains forallb_string String.prefix].
  rewrite IH. destruct (ascii_dec c x) as [->|N].
  - rewrite Ascii.eqb_refl. destruct s; reflexivity.
  - destruct (Ascii.eqb_spec x c) as [->|_]; [congruence|]. reflexivity.
Qed.

Lemma prefix_app pre r : String.prefix pre (pre ++ r) = true.
Proof.
  induction pre as [|c pre IH]; [destruct r; reflexivity|].
  cbn [String.append String.prefix]. destruct (ascii_dec c c); [exact IH|congruence].
Qed.

Lemma after_prefix_app pre r : after_prefix pre (pre ++ r) = Some r.
Proof. unfold after_prefix. rewrite prefix_app, drop_app_length. reflexivity. Qed.

Lemma after_prefix_ci_app pre r : lower_string pre = pre ->
  after_prefix_ci pre (pre ++ r) = Some r.
Proof.
  intros L. unfold after_prefix_ci.
  rewrite take_app_length, L, String.eqb_refl, drop_app_length. reflexivity.
Qed.

Lemma lower_string_app a b : lower_string (a ++ b) = lower_string a ++ lower_string b.
Proof.
  induction a as [|c a IH]; [reflexivity|].
  cbn [String.append lower_string]. rewrite IH. reflexivity.
Qed.

Lemma chop_LF_keep s c : Ascii.eqb c LF = false ->
  chop_LF (s ++ String c "") = s ++ String c "".
Proof.
  intros C. induction s as [|a s IH].
  - cbn [String.append chop_LF]. rewrite C. reflexivity.
  - change (String a s ++ String c "") with (String a (s ++ String c "")).
    cbn [chop_LF]. rewrite IH. destruct s; reflexivity.
Qed.

Lemma ends_with_app a suf : ends_with suf (a ++ suf) = true.
Proof.
  induction a as [|c a IH].
  - cbn [String.append]. destruct suf; cbn [ends_with]; rewrite String.eqb_refl; reflexivity.
  - cbn [String.append ends_with]. rewrite IH. apply orb_true_r.
Qed.

Lemma is_empty_nonempty s : s <> "" -> is_empty s = false.
Proof. destruct s; [congruence|reflexivity]. Qed.

Lemma nonempty_length s : s <> "" -> (1 <= String.length s)%nat.
Proof. destruct s; [congruence|cbn; lia]. Qed.

(** The group [(ts)] of a name. *)
Lemma paren_group_stamp ts : ts <> "" ->
  forallb_string (fun c => negb (Ascii.eqb c LF)) ts = true ->
  paren_group ("(" ++ ts ++ ")") = true.
Proof.
  intros N L. unfold paren_group. rewrite prefix_app.
  replace ("(" ++ ts ++ ")") with (("(" ++ ts) ++ ")") at 1 by apply str_app_assoc.
  rewrite ends_with_app.
  assert (G : (3 <=? String.length ("(" ++ ts ++ ")"))%nat = true).
  { apply Nat.leb_le. rewrite !str_length_app. pose proof (nonempty_length ts N).
    cbn [String.length]. lia. }
  rewrite G, !forallb_string_app, L. reflexivity.
Qed.

(** The numbers the two functions read from the names they generate. *)
Lemma save_number_nonneg n z : Server.save_number n = Some z -> (0 <= z)%Z.
Proof.
  unfold Server.save_number. destruct (after_prefix "save_" n) as [r|]; [|discriminate].
  destruct (span_digits r) as [ds rest] eqn:S.
  destruct (span_digits_spec r ds rest S) as (_ & D & _).
  destruct (is_empty ds) eqn:E; [discriminate|].
  intros H. apply (proj1 (py_int_text_digits ds (is_empty_false _ E) D) z H).
Qed.

Lemma save360_number_nonneg n z : Server.save360_number n = Some z -> (0 <= z)%Z.
Proof.
  unfold Server.save360_number. destruct (after_prefix "save360_" n) as [r|]; [|discriminate].
  destruct (span_digits r) as [ds rest] eqn:S.
  destruct (span_digits_spec r ds rest S) as (_ & D & _).
  destruct (is_empty ds) eqn:E; [discriminate|].
  destruct (String.prefix "(" rest); [|discriminate].
  intros H. apply (proj1 (py_int_text_digits ds (is_empty_false _ E) D) z H).
Qed.

Lemma save_number_name N rest : (0 <= N)%Z ->
  (String.length (string_of_Z_nat N) <= 4300)%nat ->
  Server.save_number ("save_" ++ string_of_Z_nat N ++ "(" ++ rest) = Some N.
Proof.
  intros HN L. unfold Server.save_number. rewrite after_prefix_app.
  change ("(" ++ rest) with (String "(" rest).
  rewrite span_digits_app by (apply string_of_Z_nat_digits || reflexivity).
  rewrite (is_empty_nonempty _ (string_of_Z_nat_nonempty N)).
  rewrite (proj2 (py_int_text_digits _ (string_of_Z_nat_nonempty N)
                    (string_of_Z_nat_digits N)) L).
  rewrite string_of_Z_nat_val by exact HN. reflexivity.
Qed.

Lemma save360_number_name N rest : (0 <= N)%Z ->
  (String.length (string_of_Z_nat N) <= 4300)%nat ->
  Server.save360_number ("save360_" ++ string_of_Z_nat N ++ "(" ++ rest) = Some N.
Proof.
  intros HN L. unfold Server.save360_number. rewrite after_prefix_app.
  change ("(" ++ rest) with (String "(" rest).
  rewrite span_digits_app by (apply string_of_Z_nat_digits || reflexivity).
  rewrite (is_empty_nonempty _ (string_of_Z_nat_nonempty N)).
  change (String "(" rest) with ("(" ++ rest). rewrite prefix_app.
  rewrite (proj2 (py_int_text_digits _ (string_of_Z_nat_nonempty N)
                    (string_of_Z_nat_digits N)) L).
  rewrite string_of_Z_nat_val by exact HN. reflexivity.
Qed.

(** X17.  The name of a saved run is never generated twice: the number
    of the new folder is above the number of every folder of the
    listing, so the new name is none of the listing.  The names of the listing are taken to be at
    most 4300 characters long, which every file system grants; [int]
    refuses a longer run of digits and the folder would not be counted. *)
Theorem next_save_dir_is_fresh :
  forall (existentes : list string) (ts_str : string),
    Forall (fun n => (String.length n <= 4300)%nat) existentes ->
    ~ In (Server._next_save_dir existentes ts_str) existentes.
Proof.
  intros existentes ts F I.
  pose proof (proj1 (Forall_forall _ _) F _ I) as L. revert I L.
  unfold Server._next_save_dir.
  set (ns := collect Server.save_number existentes). intros I L.
  assert (P : (1 <= next_number ns)%Z).
  { apply next_number_pos. intros z Hz.
    destruct (collect_from _ _ _ Hz) as (x & _ & E). exact (save_number_nonneg x z E). }
  assert (E : Server.save_number
                ("save_" ++ string_of_Z_nat (next_number ns) ++ "(" ++ ts ++ ")")
              = Some (next_number ns)).
  { apply save_number_name; [lia|]. rewrite !str_length_app in L. lia. }
  pose proof (next_number_gt ns _ (collect_In _ _ _ _ I E)). lia.
Qed.

(** The theorem on a listing with two folders and a stray file. *)
Lemma next_save_dir_is_fresh_witness :
  ~ In (Server._next_save_dir
          ["save_1(2024-01-01_00-00-00)"; "save_7"; "notas.txt"] "2025-03-04_05-06-07")
       ["save_1(2024-01-01_00-00-00)"; "save_7"; "notas.txt"].
Proof.
  apply next_save_dir_is_fresh.
  repeat constructor; apply Nat.leb_le; reflexivity.
Defined.

(** X18.  The name of a saved sweep is never generated twice either:
    among the names of the listing only those with a parenthesis after
    the number are counted, the new name is one of that shape, and its
    number is above theirs.  The names of the listing are taken to be at
    most 4300 characters long. *)
Theorem next_save360_name_is_fresh :
  forall (existentes : list string) (ts_str : string),
    Forall (fun n => (String.length n <= 4300)%nat) existentes ->
    ~ In (Server.next_save360_name existentes ts_str) existentes.
Proof.
  intros existentes ts F I.
  pose proof (proj1 (Forall_forall _ _) F _ I) as L. revert I L.
  unfold Server.next_save360_name.
  set (ns := collect Server.save360_number existentes). intros I L.
  assert (P : (1 <= next_number ns)%Z).
  { apply next_number_pos. intros z Hz.
    destruct (collect_from _ _ _ Hz) as (x & _ & E). exact (save360_number_nonneg x z E). }
  assert (E : Server.save360_number
                ("save360_" ++ string_of_Z_nat (next_number ns) ++ "(" ++ ts ++ ").txt")
              = Some (next_number ns)).
  { apply save360_number_name; [lia|]. rewrite !str_length_app in L. lia. }
  pose proof (next_number_gt ns _ (collect_In _ _ _ _ I E)). lia.
Qed.

(** The theorem on a listing with a counted file and one that is not. *)
Lemma next_save360_name_is_fresh_witness :
  ~ In (Server.next_save360_name
          ["save360_3(2024-01-01_00-00-00).txt"; "save360_9.txt"] "2025-03-04_05-06-07")
       ["save360_3(2024-01-01_00-00-00).txt"; "save360_9.txt"].
Proof.
  apply next_save360_name_is_fresh.
  repeat constructor; apply Nat.leb_le; reflexivity.
Defined.

(** The characters of a time stamp. *)
Section StampChars.

Variable p : ascii -> bool.
Hypothesis p_digit : forall c, is_digit c = true -> p c = true.
Hypothesis p_minus : p "-" = true.
Hypothesis p_under : p "_" = true.

Lemma dec_chars w n : forallb_string p (dec w n) = true.
Proof.
  unfold dec. apply (forallb_string_impl is_digit); [exact p_digit|].
  apply zero_pad_digits, string_of_Z_nat_digits.
Qed.

Lemma strftime_stamp_chars t : forallb_string p (strftime_stamp t) = true.
Proof.
  unfold strftime_stamp. rewrite !forallb_string_app, !dec_chars.
  cbn [forallb_string]. rewrite p_minus, p_under. reflexivity.
Qed.

End StampChars.

Lemma strftime_stamp_nonempty t : strftime_stamp t <> "".
Proof.
  intros E. apply (f_equal String.length) in E. unfold strftime_stamp in E.
  rewrite !str_length_app in E. cbn [String.length] in E. lia.
Qed.

Lemma strftime_stamp_without c : is_digit c = false ->
  Ascii.eqb "-" c = false -> Ascii.eqb "_" c = false -> forall t,
  forallb_string (fun x => negb (Ascii.eqb x c)) (strftime_stamp t) = true.
Proof.
  intros D M U t. apply strftime_stamp_chars.
  - intros x X. destruct (Ascii.eqb_spec x c) as [->|_]; [congruence|reflexivity].
  - rewrite M. reflexivity.
  - rewrite U. reflexivity.
Qed.

Lemma digits_without c s : is_digit c = false -> forallb_string is_digit s = true ->
  forallb_string (fun x => negb (Ascii.eqb x c)) s = true.
Proof.
  intros D. apply forallb_string_impl. intros x X.
  destruct (Ascii.eqb_spec x c) as [->|_]; [congruence|reflexivity].
Qed.

(** X19.  What the save of a run creates, the endpoints that show, rename,
    pack and delete a saved run accept: the name of the new folder passes
    [_safe_guardado_folder], whatever the listing and the time. *)
Theorem next_save_dir_is_accepted :
  forall (existentes : list string) (t : datetime),
    Server._safe_guardado_folder
      (Server._next_save_dir existentes (strftime_stamp t)) = true.
Proof.
  intros existentes t. unfold Server._next_save_dir.
  set (D := string_of_Z_nat _). set (ts := strftime_stamp t).
  assert (HD : forallb_string is_digit D = true) by apply string_of_Z_nat_digits.
  assert (L : forallb_string (fun x => negb (Ascii.eqb x LF)) ts = true)
    by (apply strftime_stamp_without; reflexivity).
  assert (S1 : forallb_string (fun x => negb (Ascii.eqb x "/")) ts = true)
    by (apply strftime_stamp_without; reflexivity).
  assert (S2 : forallb_string (fun x => negb (Ascii.eqb x BSL)) ts = true)
    by (apply strftime_stamp_without; reflexivity).
  assert (R : Server.safe_save_dir_re ("save_" ++ D ++ "(" ++ ts ++ ")") = true).
  { unfold Server.safe_save_dir_re. rewrite after_prefix_ci_app by reflexivity.
    change ("(" ++ ts ++ ")") with (String "(" (ts ++ ")")).
    rewrite span_digits_app by (exact HD || reflexivity).
    rewrite (is_empty_nonempty D (string_of_Z_nat_nonempty _)).
    change (String "(" (ts ++ ")")) with (("(" ++ ts) ++ ")").
    rewrite chop_LF_keep by reflexivity. rewrite str_app_assoc.
    rewrite paren_group_stamp by (apply strftime_stamp_nonempty || exact L).
    rewrite orb_true_r. reflexivity. }
  unfold Server._safe_guardado_folder. rewrite R, !contains_char.
  rewrite !forallb_string_app, S1, S2.
  rewrite (digits_without "/" D eq_refl HD), (digits_without BSL D eq_refl HD).
  reflexivity.
Qed.

(** X20.  What the save of a sweep creates, the list of saved sweeps shows and
    the deletion accepts: the name of the new file passes the filter of
    [api_med360_list] and the validation of [api_med360_delete], whatever
    the listing and the time. *)
Theorem next_save360_name_is_listed_and_deletable :
  forall (existentes : list string) (t : datetime),
    Server.listed_360 (Server.next_save360_name existentes (strftime_stamp t)) = true /\
    Server.deletable_360 (Server.next_save360_name existentes (strftime_stamp t)) = true.
Proof.
  intros existentes t. unfold Server.next_save360_name.
  set (D := string_of_Z_nat _). set (ts := strftime_stamp t).
  assert (HD : forallb_string is_digit D = true) by apply string_of_Z_nat_digits.
  assert (L : forallb_string (fun x => negb (Ascii.eqb x LF)) ts = true)
    by (apply strftime_stamp_without; reflexivity).
  assert (S1 : forallb_string (fun x => negb (Ascii.eqb x "/")) ts = true)
    by (apply strftime_stamp_without; reflexivity).
  assert (S2 : forallb_string (fun x => negb (Ascii.eqb x BSL)) ts = true)
    by (apply strftime_stamp_without; reflexivity).
  split.
  - unfold Server.listed_360. rewrite after_prefix_ci_app by reflexivity.
    change ("(" ++ ts ++ ").txt") with (String "(" (ts ++ ").txt")).
    rewrite span_digits_app by (exact HD || reflexivity).
    rewrite (is_empty_nonempty D (string_of_Z_nat_nonempty _)).
    replace (String "(" (ts ++ ").txt")) with (("(" ++ ts ++ ").tx") ++ "t")
      by (rewrite !str_app_assoc; reflexivity).
    rewrite chop_LF_keep by reflexivity.
    replace (("(" ++ ts ++ ").tx") ++ "t") with (("(" ++ ts ++ ")") ++ ".txt")
      by (rewrite !str_app_assoc; reflexivity).
    rewrite str_length_app.
    replace (String.length ("(" ++ ts ++ ")") + String.length ".txt" - 4)%nat
      with (String.length ("(" ++ ts ++ ")")) by (cbn [String.length]; lia).
    rewrite drop_app_length, take_app_length.
    rewrite paren_group_stamp by (apply strftime_stamp_nonempty || exact L).
    rewrite orb_true_r. reflexivity.
  - unfold Server.deletable_360. rewrite !contains_char.
    rewrite !forallb_string_app, S1, S2.
    rewrite (digits_without "/" D eq_refl HD), (digits_without BSL D eq_refl HD).
    replace ("save360_" ++ D ++ "(" ++ ts ++ ").txt")
      with (("save360_" ++ D ++ "(" ++ ts ++ ")") ++ ".txt")
      by (rewrite !str_app_assoc; reflexivity).
    rewrite lower_string_app. change (lower_string ".txt") with ".txt".
    rewrite ends_with_app. reflexivity.
Qed.

(** ** Saving a sweep *)

Lemma not_space_facts c : is_space c = false ->
  Ascii.eqb c CR = false /\ is_linebreak c = false.
Proof.
  destruct c as [[] [] [] [] [] [] [] []]; intros H; try discriminate H;
    split; reflexivity.
Qed.

Lemma universal_newlines_line b rest :
  forallb_string (fun c => negb (is_space c)) b = true ->
  universal_newlines (b ++ String LF rest) = b ++ String LF (universal_newlines rest).
Proof.
  induction b as [|c b IH]; intros H; [reflexivity|].
  cbn [forallb_string] in H. apply andb_prop in H. destruct H as [C H].
  apply negb_true_iff in C. destruct (not_space_facts c C) as (R & _).
  cbn [String.append universal_newlines]. rewrite R, (IH H). reflexivity.
Qed.

Lemma splitlines_line b rest :
  forallb_string (fun c => negb (is_space c)) b = true ->
  splitlines (b ++ String LF rest) = b :: splitlines rest.
Proof.
  induction b as [|c b IH]; intros H; [destruct rest; reflexivity|].
  cbn [forallb_string] in H. apply andb_prop in H. destruct H as [C H].
  apply negb_true_iff in C. destruct (not_space_facts c C) as (_ & B).
  cbn [String.append splitlines]. rewrite B, (IH H). reflexivity.
Qed.

(** Lines that hold no white space but the line feed at their end are
    saved as they are. *)
Lemma saved_lines_whole lines :
  Forall (fun l => exists b, l = b ++ String LF "" /\
                   forallb_string (fun c => negb (is_space c)) b = true) lines ->
  Server.saved_lines (text_of lines) = lines.
Proof.
  unfold Server.saved_lines. induction 1 as [|l lines (b & -> & T) _ IH]; [reflexivity|].
  cbn [text_of fold_right]. fold (text_of lines).
  rewrite str_app_assoc. cbn [String.append].
  rewrite (universal_newlines_line b _ T), (splitlines_line b _ T).
  cbn [map]. rewrite IH, (rstrip_with_id is_space b T). reflexivity.
Qed.

Lemma format_f_no_space k x :
  forallb_string (fun c => negb (is_space c)) (format_f k x) = true.
Proof.
  apply charset_format_f; [|reflexivity].
  intros c H. destruct c as [[] [] [] [] [] [] [] []]; try discriminate H; reflexivity.
Qed.

Lemma sweep_log_whole pos envs :
  Forall (fun l => exists b, l = b ++ String LF "" /\
                   forallb_string (fun c => negb (is_space c)) b = true)
    (Medicion360.header_line pos :: flat_map Medicion360.cycle_lines envs).
Proof.
  constructor.
  - destruct pos as [[la lo]|]; [|exists ""; split; reflexivity].
    exists (format_f 6 la ++ "," ++ format_f 6 lo). split.
    + unfold Medicion360.header_line. rewrite !str_app_assoc. reflexivity.
    + rewrite !forallb_string_app, !format_f_no_space. reflexivity.
  - induction envs as [|e es IH]; [constructor|]. cbn [flat_map].
    apply Forall_app. split; [|exact IH]. unfold Medicion360.cycle_lines.
    destruct (Medicion360.reading_az e) as [az|]; [|constructor].
    destruct (Medicion360.reading_dbm e) as [dbm|]; [|constructor].
    destruct (_ && _); constructor; [|constructor].
    exists (format_f 1 az ++ "," ++ format_f 2 dbm). split.
    + unfold Medicion360.sweep_line. rewrite !str_app_assoc. reflexivity.
    + rewrite !forallb_string_app, !format_f_no_space. reflexivity.
Qed.

(** X21.  Saving keeps the sweep: what [api_med360_save] writes for a log the
    sweep script wrote is the line of the equipment followed by the log,
    character for character, under the next free name.  Nothing of a
    line is trimmed away and no line is split or joined. *)
Theorem save_keeps_the_sweep :
  forall (EQUIPO_ACTUAL : string) (pos : option (float * float))
         (envs : list Medicion360.cycle_env)
         (existentes : list string) (t : datetime),
    let log := Medicion360.header_line pos ++
               text_of (flat_map Medicion360.cycle_lines envs) in
    Server.api_med360_save EQUIPO_ACTUAL (Some log) existentes t =
      Some (Server.next_save360_name existentes (strftime_stamp t),
            EQUIPO_ACTUAL ++ String LF "" ++ log).
Proof.
  intros equipo pos envs existentes t. cbv zeta. unfold Server.api_med360_save.
  change (Medicion360.header_line pos ++
          text_of (flat_map Medicion360.cycle_lines envs))
    with (text_of (Medicion360.header_line pos ::
                   flat_map Medicion360.cycle_lines envs)).
  rewrite (saved_lines_whole _ (sweep_log_whole pos envs)). reflexivity.
Qed.

(** ** The period of the sweep *)

Lemma leb_zero_ltb v : v <> PyFloat.NaN -> PyFloat.leb v PyFloat.zero = false ->
  PyFloat.ltb PyFloat.zero v = true.
Proof.
  intros N E. destruct v as [a q|[]|]; simpl in *; try congruence.
  rewrite E. reflexivity.
Qed.

(** X22.  The period of the sweep at import is never zero or negative: a
    [SAMPLE_PERIOD] that is missing gives one second, and so does one
    that is no number or not above zero.  Only a text that reads as
    not-a-number gets through the test [PERIODO_S <= 0], and then the
    period is not-a-number. *)
Theorem sweep_period_positive_unless_nan :
  forall SAMPLE_PERIOD : option string,
    let v := Medicion360.initial_period SAMPLE_PERIOD in
    (v = PyFloat.NaN <->
       exists t, SAMPLE_PERIOD = Some t /\ py_float t = Some PyFloat.NaN) /\
    (v <> PyFloat.NaN -> PyFloat.ltb PyFloat.zero v = true) /\
    (forall t, SAMPLE_PERIOD = Some t ->
       match py_float t with
       | Some x => PyFloat.leb x PyFloat.zero = true -> v = PyFloat.of_Z 1
       | None => v = PyFloat.of_Z 1
       end) /\
    (SAMPLE_PERIOD = None -> v = PyFloat.of_Z 1).
Proof.
  intros [t|]; cbv zeta.
  - unfold Medicion360.initial_period. destruct (py_float t) as [x|] eqn:P.
    + destruct (PyFloat.leb x PyFloat.zero) eqn:E.
      * split; [split|split; [|split]].
        -- intros H. vm_compute in H. discriminate H.
        -- intros (t' & T & P'). injection T as <-. rewrite P in P'.
           injection P' as ->. discriminate E.
        -- intros _. vm_compute. reflexivity.
        -- intros t' T. injection T as <-. rewrite P, E. reflexivity.
        -- discriminate.
      * split; [split|split; [|split]].
        -- intros ->. exists t. split; [reflexivity|exact P].
        -- intros (t' & T & P'). injection T as <-. congruence.
        -- intros N. apply leb_zero_ltb; assumption.
        -- intros t' T. injection T as <-. rewrite P, E. discriminate.
        -- discriminate.
    + split; [split|split; [|split]].
      * intros H. vm_compute in H. discriminate H.
      * intros (t' & T & P'). injection T as <-. congruence.
      * intros _. vm_compute. reflexivity.
      * intros t' T. injection T as <-. rewrite P. reflexivity.
      * discriminate.
  - split; [split|split; [|split]].
    + intros H. vm_compute in H. discriminate H.
    + intros (t' & T & _). discriminate T.
    + intros _. vm_compute. reflexivity.
    + intros t' T. discriminate T.
    + intros _. vm_compute. reflexivity.
Qed.
